(** * Temporal state reader and snapshot reconciliation of bsc-erigon

  A shallow embedding of
  - [core/state/history_reader_v3.go]      (module [HistoryReader]),
  - the temporal name tables of [erigon-lib/kv/tables.go] (module [Tables]),
  - the pruning helpers of the snapshot-sync stage     (module [SnapshotSync]),
  and the properties of these functions.

  Conventions.  A Go [uint64] is a [Z] together with its wrap-around, which
  is written out by [wrap64] at every arithmetic operation of the source; a
  Go [string] is a [string] (a sequence of bytes); a [[]byte] is a
  [list byte]; a Go [(value, error)] pair is a Rocq pair whose second
  component is an [option error] ([None] for [nil]); a run-time panic (an
  index out of range) is the [Panic] outcome. *)

From Stdlib Require Import ZArith Lia Bool Strings.Ascii Strings.String Strings.Byte.
From stdpp Require Import base list gmap strings sorting.

Local Open Scope string_scope.
Local Open Scope list_scope.
Local Open Scope Z_scope.

(** ** Machine integers *)

Module U64.

Definition modulus : Z := 2 ^ 64.
Definition MaxUint64 : Z := modulus - 1.
Definition MaxUint32 : Z := 2 ^ 32 - 1.

Definition wrap64 (z : Z) : Z := z mod modulus.

Definition add64 (a b : Z) : Z := wrap64 (a + b).
Definition sub64 (a b : Z) : Z := wrap64 (a - b).
Definition mul64 (a b : Z) : Z := wrap64 (a * b).

(** The values a [uint64] variable can hold. *)
Definition is_u64 (z : Z) : Prop := 0 <= z < modulus.

End U64.
Import U64.

(** ** Errors and outcomes *)

Definition bytes : Type := list byte.

(** The error values the embedded functions can return.  [ErrExternal] stands
    for an error produced by a collaborator outside this code (storage,
    decoder, iterator); [ErrWrapped] is [fmt.Errorf("op(%x): %w", key, err)]. *)
Inductive error : Type :=
| ErrSyntax (fn input : string)
| ErrRange (fn input : string)
| ErrUnknownHistoryName (name : string)
| ErrUnknownInvertedIdx (name : string)
| ErrGap (chaindata : string)
| PrunedError
| ErrExternal (msg : string)
| ErrWrapped (op : string) (key : bytes) (cause : error).

(** What running a piece of Go code can end in: a normal return, a returned
    error, or a run-time panic. *)
Inductive outcome (A : Type) : Type :=
| Ok (a : A)
| Err (e : error)
| Panic.
Arguments Ok {A} a.
Arguments Err {A} e.
Arguments Panic {A}.

Definition obind {A B} (m : outcome A) (k : A -> outcome B) : outcome B :=
  match m with
  | Ok a => k a
  | Err e => Err e
  | Panic => Panic
  end.

Declare Scope outcome_scope.
Delimit Scope outcome_scope with outcome.
Notation "x <-- m ;; k" := (obind m (fun x => k))
  (at level 100, m at next level, right associativity) : outcome_scope.

(** [s[i]] on a slice: panics out of range. *)
Definition index {A} (l : list A) (i : nat) : outcome A :=
  match l !! i with
  | Some a => Ok a
  | None => Panic
  end.

(** ** The functions of Go's [strings] and [strconv] that the code calls *)

Module GoStrings.

(** [strings.HasPrefix(s, prefix)]. *)
Fixpoint HasPrefix (s prefix : string) : bool :=
  match prefix, s with
  | EmptyString, _ => true
  | String _ _, EmptyString => false
  | String p prefix', String c s' => Ascii.eqb c p && HasPrefix s' prefix'
  end.

(** [strings.Contains(s, substr)]. *)
Fixpoint Contains (s substr : string) : bool :=
  HasPrefix s substr ||
  match s with
  | EmptyString => false
  | String _ s' => Contains s' substr
  end.

(** [strings.Split(s, sep)] for a separator of one byte, which is what every
    call site passes: the pieces between the separators, always at least
    one piece. *)
Fixpoint Split (s : string) (sep : ascii) : list string :=
  match s with
  | EmptyString => [EmptyString]
  | String c s' =>
      if Ascii.eqb c sep then EmptyString :: Split s' sep
      else match Split s' sep with
           | piece :: rest => String c piece :: rest
           | [] => [String c EmptyString]
           end
  end.

Definition is_digit (c : ascii) : bool :=
  let n := Z.of_N (N_of_ascii c) in (48 <=? n) && (n <=? 57).

Definition digit_val (c : ascii) : Z := Z.of_N (N_of_ascii c) - 48.

(** The digit loop of [strconv.ParseUint(s, 10, 64)]: [n] is the value read
    so far.  A byte that is not a decimal digit is a syntax error; a value
    that leaves 64 bits is a range error; whichever comes first from the
    left is returned. *)
Fixpoint parseDigits (s0 s : string) (n : Z) : Z * option error :=
  match s with
  | EmptyString => (n, None)
  | String c s' =>
      if negb (is_digit c) then (0, Some (ErrSyntax "ParseUint" s0))
      else
        let cutoff := MaxUint64 / 10 + 1 in
        if cutoff <=? n then (MaxUint64, Some (ErrRange "ParseUint" s0))
        else
          let n10 := mul64 n 10 in
          let n1 := add64 n10 (digit_val c) in
          if (n1 <? n10) || (MaxUint64 <? n1)
          then (MaxUint64, Some (ErrRange "ParseUint" s0))
          else parseDigits s0 s' n1
  end.

(** [strconv.ParseUint(s, 10, 64)]. *)
Definition ParseUint (s : string) : Z * option error :=
  match s with
  | EmptyString => (0, Some (ErrSyntax "ParseUint" s))
  | _ => parseDigits s s 0
  end.

End GoStrings.
Import GoStrings.

(** ** The temporal name tables ([kv] package) *)

Module Tables.

(** [type Domain uint16]. *)
Definition Domain : Type := Z.

Definition AccountsDomain : Domain := 0.
Definition StorageDomain : Domain := 1.
Definition CodeDomain : Domain := 2.
Definition CommitmentDomain : Domain := 3.
Definition ReceiptDomain : Domain := 4.
Definition RCacheDomain : Domain := 5.
Definition DomainLen : Domain := 6.

Definition MaxUint16 : Z := 2 ^ 16 - 1.

(** [type InvertedIdx string]. *)
Definition InvertedIdx : Type := string.

Definition AccountsHistoryIdx : InvertedIdx := "AccountsHistoryIdx".
Definition StorageHistoryIdx : InvertedIdx := "StorageHistoryIdx".
Definition CodeHistoryIdx : InvertedIdx := "CodeHistoryIdx".
Definition CommitmentHistoryIdx : InvertedIdx := "CommitmentHistoryIdx".
Definition ReceiptHistoryIdx : InvertedIdx := "ReceiptHistoryIdx".
Definition RCacheHistoryIdx : InvertedIdx := "ReceiptCacheHistoryIdx".
Definition LogTopicIdx : InvertedIdx := "LogTopicIdx".
Definition LogAddrIdx : InvertedIdx := "LogAddrIdx".
Definition TracesFromIdx : InvertedIdx := "TracesFromIdx".
Definition TracesToIdx : InvertedIdx := "TracesToIdx".

(** [func (idx InvertedIdx) String() string]. *)
Definition InvertedIdx_String (idx : InvertedIdx) : string :=
  if String.eqb idx AccountsHistoryIdx then "accounts"
  else if String.eqb idx StorageHistoryIdx then "storage"
  else if String.eqb idx CodeHistoryIdx then "code"
  else if String.eqb idx CommitmentHistoryIdx then "commitment"
  else if String.eqb idx ReceiptHistoryIdx then "receipt"
  else if String.eqb idx RCacheHistoryIdx then "rcache"
  else if String.eqb idx LogAddrIdx then "logaddrs"
  else if String.eqb idx LogTopicIdx then "logtopics"
  else if String.eqb idx TracesFromIdx then "tracesfrom"
  else if String.eqb idx TracesToIdx then "tracesto"
  else "unknown index".

Definition String2InvertedIdx (s : string) : InvertedIdx * option error :=
  if String.eqb s "accounts" then (AccountsHistoryIdx, None)
  else if String.eqb s "storage" then (StorageHistoryIdx, None)
  else if String.eqb s "code" then (CodeHistoryIdx, None)
  else if String.eqb s "commitment" then (CommitmentHistoryIdx, None)
  else if String.eqb s "receipt" then (ReceiptHistoryIdx, None)
  else if String.eqb s "rcache" then (RCacheHistoryIdx, None)
  else if String.eqb s "logaddrs" then (LogAddrIdx, None)
  else if String.eqb s "logtopics" then (LogTopicIdx, None)
  else if String.eqb s "tracesfrom" then (TracesFromIdx, None)
  else if String.eqb s "tracesto" then (TracesToIdx, None)
  else ("", Some (ErrUnknownInvertedIdx s)).

(** [func (d Domain) String() string]. *)
Definition Domain_String (d : Domain) : string :=
  if d =? AccountsDomain then "accounts"
  else if d =? StorageDomain then "storage"
  else if d =? CodeDomain then "code"
  else if d =? CommitmentDomain then "commitment"
  else if d =? ReceiptDomain then "receipt"
  else if d =? RCacheDomain then "rcache"
  else "unknown domain".

Definition String2Domain (s : string) : Domain * option error :=
  if String.eqb s "accounts" then (AccountsDomain, None)
  else if String.eqb s "storage" then (StorageDomain, None)
  else if String.eqb s "code" then (CodeDomain, None)
  else if String.eqb s "commitment" then (CommitmentDomain, None)
  else if String.eqb s "receipt" then (ReceiptDomain, None)
  else if String.eqb s "rcache" then (RCacheDomain, None)
  else (MaxUint16, Some (ErrUnknownHistoryName s)).

(** The tags that name a real domain: the enumeration below its technical
    end marker [DomainLen]. *)
Definition validDomain (d : Domain) : Prop := 0 <= d < DomainLen.

(** The declared inverted-index tags. *)
Definition invertedIdxTags : list InvertedIdx :=
  [AccountsHistoryIdx; StorageHistoryIdx; CodeHistoryIdx; CommitmentHistoryIdx;
   ReceiptHistoryIdx; RCacheHistoryIdx; LogTopicIdx; LogAddrIdx;
   TracesFromIdx; TracesToIdx].

(** The names [String2Domain] and [String2InvertedIdx] accept. *)
Definition domainNames : list string :=
  ["accounts"; "storage"; "code"; "commitment"; "receipt"; "rcache"].

Definition invertedIdxNames : list string :=
  domainNames ++ ["logaddrs"; "logtopics"; "tracesfrom"; "tracesto"].

End Tables.
Import Tables.

(** ** The history reader ([core/state/history_reader_v3.go]) *)

Module HistoryReader.

(** [kv.TemporalTx], as far as the reader calls it: [GetAsOf] returns
    [(v, ok, err)]. *)
Record TemporalTx : Type := {
  GetAsOf : Domain -> bytes -> Z -> bytes * bool * option error;
  HistoryStartFrom : Domain -> Z
}.

(** The fields of [accounts.Account] that the reader looks at. *)
Record Account : Type := {
  Nonce : Z;
  Balance : Z;
  CodeHash : bytes;
  Incarnation : Z
}.

Record HistoryReaderV3 : Type := {
  txNum : Z;
  trace : bool;
  ttx : TemporalTx;
  composite : bytes
}.

(** One line per [fmt.Printf] of the reader, holding its arguments. *)
Inductive TraceLine : Type :=
| TrAccountDataEmpty (address : bytes)
| TrAccountData (address : bytes) (nonce balance : Z) (codeHash : bytes)
| TrAccountStorage (address key enc : bytes)
| TrAccountCode (address code : bytes)
| TrAccountIncarnation (address : bytes) (incarnation : Z).

(** A method of the reader: it reads and updates the receiver and may print. *)
Definition Rd (A : Type) : Type :=
  HistoryReaderV3 -> A * HistoryReaderV3 * list TraceLine.

Definition ret {A} (a : A) : Rd A := fun hr => (a, hr, []).

Definition bind {A B} (m : Rd A) (k : A -> Rd B) : Rd B :=
  fun hr =>
    let '(a, hr1, out1) := m hr in
    let '(b, hr2, out2) := k a hr1 in
    (b, hr2, out1 ++ out2).

Definition this : Rd HistoryReaderV3 := fun hr => (hr, hr, []).

Definition setComposite (c : bytes) : Rd unit :=
  fun hr => (tt, {| txNum := txNum hr; trace := trace hr; ttx := ttx hr; composite := c |}, []).

Definition Printf (line : TraceLine) : Rd unit := fun hr => (tt, hr, [line]).

(** [if hr.trace { fmt.Printf(...) }]. *)
Definition traced (line : TraceLine) : Rd unit :=
  fun hr => if trace hr then Printf line hr else ret tt hr.

Declare Scope rd_scope.
Delimit Scope rd_scope with rd.
Notation "x <- m ;; k" := (bind m (fun x => k))
  (at level 100, m at next level, right associativity) : rd_scope.
Notation "m ;;; k" := (bind m (fun _ => k))
  (at level 100, right associativity) : rd_scope.

Definition result {A} (r : A * HistoryReaderV3 * list TraceLine) : A := r.1.1.
Definition after {A} (r : A * HistoryReaderV3 * list TraceLine) : HistoryReaderV3 := r.1.2.
Definition printed {A} (r : A * HistoryReaderV3 * list TraceLine) : list TraceLine := r.2.

Definition SetTx (tx : TemporalTx) : Rd unit :=
  fun hr => (tt, {| txNum := txNum hr; trace := trace hr; ttx := tx; composite := composite hr |}, []).
Definition SetTxNum (n : Z) : Rd unit :=
  fun hr => (tt, {| txNum := n; trace := trace hr; ttx := ttx hr; composite := composite hr |}, []).
Definition GetTxNum : Rd Z := fun hr => (txNum hr, hr, []).
Definition SetTrace (t : bool) : Rd unit :=
  fun hr => (tt, {| txNum := txNum hr; trace := t; ttx := ttx hr; composite := composite hr |}, []).

Definition stateDomainNames : list Domain := [AccountsDomain; StorageDomain; CodeDomain].

Definition StateHistoryStartFrom (hr : HistoryReaderV3) : Z :=
  fold_left
    (fun earliestTxNum domainName =>
       let domainStartingTxNum := HistoryStartFrom (ttx hr) domainName in
       if earliestTxNum <? domainStartingTxNum then domainStartingTxNum
       else earliestTxNum)
    stateDomainNames 0.

Definition isNil {A} (e : option A) : bool :=
  match e with None => true | Some _ => false end.

Section Readers.

(** The two account decoders of [erigon-lib/types/accounts]: each fills an
    account from stored bytes and returns an error. *)
Variable DeserialiseV3 : bytes -> Account * option error.
Variable DecodeForStorage : bytes -> Account * option error.

Local Open Scope rd_scope.

Definition ReadAccountData (address : bytes) : Rd (option Account * option error) :=
  hr <- this ;;
  let '(enc, ok, err) := GetAsOf (ttx hr) AccountsDomain address (txNum hr) in
  if negb (isNil err) || negb ok || (length enc =? 0)%nat then
    traced (TrAccountDataEmpty address) ;;;
    ret (None, err)
  else
    match DeserialiseV3 enc with
    | (_, Some err) => ret (None, Some (ErrWrapped "ReadAccountData" address err))
    | (a, None) =>
        traced (TrAccountData address (Nonce a) (Balance a) (CodeHash a)) ;;;
        ret (Some a, None)
    end.

Definition ReadAccountDataForDebug (address : bytes) : Rd (option Account * option error) :=
  ReadAccountData address.

Definition ReadAccountStorage (address : bytes) (incarnation : Z) (key : bytes)
  : Rd (bytes * option error) :=
  hr <- this ;;
  setComposite ((take 0 (composite hr) ++ address) ++ key) ;;;
  hr <- this ;;
  let '(enc, _, err) := GetAsOf (ttx hr) StorageDomain (composite hr) (txNum hr) in
  traced (TrAccountStorage address key enc) ;;;
  ret (enc, err).

Definition ReadAccountCode (address : bytes) (incarnation : Z) : Rd (bytes * option error) :=
  hr <- this ;;
  let '(code, _, err) := GetAsOf (ttx hr) CodeDomain address (txNum hr) in
  traced (TrAccountCode address code) ;;;
  ret (code, err).

Definition ReadAccountCodeSize (address : bytes) (incarnation : Z) : Rd (Z * option error) :=
  hr <- this ;;
  let '(enc, _, err) := GetAsOf (ttx hr) CodeDomain address (txNum hr) in
  ret (Z.of_nat (length enc), err).

Definition ReadAccountIncarnation (address : bytes) : Rd (Z * option error) :=
  hr <- this ;;
  let '(enc, ok, err) := GetAsOf (ttx hr) AccountsDomain address (txNum hr) in
  if negb (isNil err) || negb ok || (length enc =? 0)%nat then
    traced (TrAccountIncarnation address 0) ;;;
    ret (0, err)
  else
    match DecodeForStorage enc with
    | (_, Some err) => ret (0, Some (ErrWrapped "ReadAccountIncarnation" address err))
    | (a, None) =>
        if Incarnation a =? 0 then
          traced (TrAccountIncarnation address 0) ;;;
          ret (0, None)
        else
          traced (TrAccountIncarnation address (sub64 (Incarnation a) 1)) ;;;
          ret (sub64 (Incarnation a) 1, None)
    end.

(** The read operations behind the shared reader interface, with their
    arguments, and what each returns. *)
Inductive ReadOp : Type :=
| OpReadAccountData (address : bytes)
| OpReadAccountStorage (address : bytes) (incarnation : Z) (key : bytes)
| OpReadAccountCode (address : bytes) (incarnation : Z)
| OpReadAccountCodeSize (address : bytes) (incarnation : Z)
| OpReadAccountIncarnation (address : bytes).

Inductive ReadResult : Type :=
| ResAccount (a : option Account) (err : option error)
| ResBytes (v : bytes) (err : option error)
| ResInt (n : Z) (err : option error).

Definition runOp (op : ReadOp) : Rd ReadResult :=
  match op with
  | OpReadAccountData address =>
      r <- ReadAccountData address ;; ret (ResAccount r.1 r.2)
  | OpReadAccountStorage address incarnation key =>
      r <- ReadAccountStorage address incarnation key ;; ret (ResBytes r.1 r.2)
  | OpReadAccountCode address incarnation =>
      r <- ReadAccountCode address incarnation ;; ret (ResBytes r.1 r.2)
  | OpReadAccountCodeSize address incarnation =>
      r <- ReadAccountCodeSize address incarnation ;; ret (ResInt r.1 r.2)
  | OpReadAccountIncarnation address =>
      r <- ReadAccountIncarnation address ;; ret (ResInt r.1 r.2)
  end.

End Readers.

End HistoryReader.
Import HistoryReader.

(** ** The temporal store behind the handle *)

Module TemporalStore.

#[global] Instance byte_eq_decision : EqDecision byte := Byte.byte_eq_dec.

(** One write of the history of a domain: the key, the transaction number of
    the write and the value written ([None] for a deletion). *)
Record HistoryWrite : Type := {
  wDomain : Domain;
  wKey : bytes;
  wTxNum : Z;
  wValue : option bytes
}.

(** The store: the writes, oldest first, and for every domain the smallest
    transaction number whose history pruning has not discarded. *)
Record Store : Type := {
  writes : list HistoryWrite;
  historyStart : Domain -> Z
}.

Definition touches (d : Domain) (k : bytes) (t : Z) (w : HistoryWrite) : bool :=
  (wDomain w =? d) && bool_decide (wKey w = k) && (wTxNum w <=? t).

(** The most recent write of [k] in [d] at or before [t]: the last one in
    the list among those with the highest transaction number not above [t]. *)
Definition effectiveWrite (ws : list HistoryWrite) (d : Domain) (k : bytes) (t : Z)
  : option HistoryWrite :=
  fold_left
    (fun best w =>
       if touches d k t w then
         match best with
         | Some b => if wTxNum b <=? wTxNum w then Some w else Some b
         | None => Some w
         end
       else best)
    ws None.

(** Modelled from the spec: [HistoryStartFrom] of the temporal storage engine
    (the implementation of [kv.TemporalTx] is not among these sources):
    "returns the smallest transaction number for which [domain]'s history is
    still retrievable". *)
Definition StoreHistoryStartFrom (st : Store) (d : Domain) : Z := historyStart st d.

(** Modelled from the spec: [GetAsOf] of the temporal storage engine (the
    implementation of [kv.TemporalTx] is not among these sources).  "Returns
    the value associated with [key] in [domain] that was effective at
    transaction number [txNum]"; "a tombstone is represented as [found=false]
    with no error"; "querying at [txNum < HistoryStartFrom(D)] must yield
    [PrunedError], never a silently wrong value". *)
Definition StoreGetAsOf (st : Store) (d : Domain) (k : bytes) (t : Z)
  : bytes * bool * option error :=
  if t <? StoreHistoryStartFrom st d then ([], false, Some PrunedError)
  else
    match effectiveWrite (writes st) d k t with
    | Some w =>
        match wValue w with
        | Some v => (v, true, None)
        | None => ([], false, None)
        end
    | None => ([], false, None)
    end.

(** The handle a reader is bound to when it sits on this store. *)
Definition handle (st : Store) : TemporalTx :=
  {| GetAsOf := StoreGetAsOf st; HistoryStartFrom := StoreHistoryStartFrom st |}.

End TemporalStore.
Import TemporalStore.

(** ** Snapshot synchronisation: which catalog files are not fetched *)

Module SnapshotSync.

(** [snapcfg.PreverifiedItem]. *)
Record PreverifiedItem : Type := { Name : string; Hash : string }.

(** The part of [snaptype.FileInfo] that the code reads. *)
Record FileInfo : Type := { From : Z; To : Z }.

Definition isStateHistory (name : string) : bool :=
  HasPrefix name "idx" || HasPrefix name "history" || HasPrefix name "accessor".

Definition isStateSnapshot (name : string) : bool :=
  isStateHistory name || HasPrefix name "domain".

Definition canSnapshotBePruned (name : string) : bool :=
  isStateHistory name || Contains name "transactions".

(** The range end of a state file name such as [idx/v1-accounts.0-64.ef]:
    [strings.Split(name, ".")[1]], then [strings.Split(rangeString, "-")[1]],
    then [strconv.ParseUint(.., 10, 64)], as written out in
    [buildBlackListForPruning] and in [getMaxStepRangeInSnapshots]. *)
Definition parseStateTo (name : string) : outcome Z :=
  (rangeString <-- index (Split name ".") 1 ;;
   toString <-- index (Split rangeString "-") 1 ;;
   match ParseUint toString with
   | (_, Some err) => Err err
   | (to, None) => Ok to
   end)%outcome.

(** A frozen block body as [IterateFrozenBodies] hands it to its callback. *)
Record FrozenBody : Type := { blockNum : Z; baseTxNum : Z; txAmount : Z }.

(** The [blockReader] interface, as far as these functions call it:
    [Snapshots().SegmentsMax()], and an [IterateFrozenBodies] that calls back
    on [frozenBodies] in order and then returns [iterateErr]. *)
Record blockReader : Type := {
  SegmentsMax : Z;
  frozenBodies : list FrozenBody;
  iterateErr : option error
}.

(** The iteration stops at the first error its callback returns. *)
Fixpoint iterateBodies {S : Type} (f : S -> FrozenBody -> S * option error)
  (bodies : list FrozenBody) (final : option error) (s : S) : S * option error :=
  match bodies with
  | [] => (s, final)
  | b :: rest =>
      match f s b with
      | (s', None) => iterateBodies f rest final s'
      | (s', Some err) => (s', Some err)
      end
  end.

Definition IterateFrozenBodies {S : Type} (br : blockReader)
  (f : S -> FrozenBody -> S * option error) (s : S) : S * option error :=
  iterateBodies f (frozenBodies br) (iterateErr br) s.

(** [binary.BigEndian.Uint64(b)]: panics on fewer than eight bytes. *)
Definition byteZ (b : byte) : Z := Z.of_N (Byte.to_N b).

Definition BigEndian_Uint64 (b : bytes) : outcome Z :=
  match b with
  | b0 :: b1 :: b2 :: b3 :: b4 :: b5 :: b6 :: b7 :: _ =>
      Ok (Z.lor (byteZ b7)
         (Z.lor (Z.shiftl (byteZ b6) 8)
         (Z.lor (Z.shiftl (byteZ b5) 16)
         (Z.lor (Z.shiftl (byteZ b4) 24)
         (Z.lor (Z.shiftl (byteZ b3) 32)
         (Z.lor (Z.shiftl (byteZ b2) 40)
         (Z.lor (Z.shiftl (byteZ b1) 48)
                (Z.shiftl (byteZ b0) 56))))))))
  | _ => Panic
  end.

(** The end of [WaitForDownloader]: the comparison of the first non-genesis
    header key of the database, as [rawdbv3.SecondKey] returned it, with the
    highest block of the snapshots. *)
Definition finalConsistencyCheck (chaindata : string) (segmentsMax : Z)
  (secondKey : option bytes * option error) : outcome unit :=
  match secondKey with
  | (_, Some err) => Err err
  | (None, None) => Ok tt
  | (Some firstNonGenesis, None) =>
      (firstNonGenesisBlockNumber <-- BigEndian_Uint64 firstNonGenesis ;;
       if add64 segmentsMax 1 <? firstNonGenesisBlockNumber
       then Err (ErrGap chaindata)
       else Ok tt)%outcome
  end.

Section WithPackages.

(** [snaptype.Erigon2MergeLimit] and [config3.DefaultStepSize], positive
    constants of other packages, and [snaptype.ParseFileName], which returns
    [(res, isE3Seedable, ok)]. *)
Variable Erigon2MergeLimit : Z.
Variable DefaultStepSize : Z.
Variable ParseFileName : string -> string -> FileInfo * bool * bool.

Definition adjustBlockPrune (blocks minBlocksToDownload : Z) : Z :=
  let minBlocksToDownload :=
    if minBlocksToDownload <? Erigon2MergeLimit
    then Erigon2MergeLimit else minBlocksToDownload in
  let blocks :=
    if minBlocksToDownload <? blocks then minBlocksToDownload else blocks in
  sub64 blocks (blocks mod Erigon2MergeLimit).

(** The loop of [buildBlackListForPruning] over the catalog. *)
Fixpoint blackListLoop (stepPrune blockPrune : Z) (preverified : list PreverifiedItem)
  (blackList : gset string) : outcome (gset string) :=
  match preverified with
  | [] => Ok blackList
  | p :: rest =>
      let name := Name p in
      if negb (canSnapshotBePruned name) then
        blackListLoop stepPrune blockPrune rest blackList
      else if isStateSnapshot name then
        (to <-- parseStateTo name ;;
         if stepPrune <? to then blackListLoop stepPrune blockPrune rest blackList
         else blackListLoop stepPrune blockPrune rest ({[name]} ∪ blackList))%outcome
      else
        let '(res, _, ok) := ParseFileName "" name in
        if negb ok then blackListLoop stepPrune blockPrune rest blackList
        else if blockPrune <? To res then
          blackListLoop stepPrune blockPrune rest blackList
        else blackListLoop stepPrune blockPrune rest ({[name]} ∪ blackList)
  end.

(** What one pass through the body of that loop decides for a name: whether
    the name is put in the blacklist, on an error or a panic no pass follows. *)
Definition blackListEntry (stepPrune blockPrune : Z) (name : string) : outcome bool :=
  if negb (canSnapshotBePruned name) then Ok false
  else if isStateSnapshot name then
    (to <-- parseStateTo name ;; Ok (negb (stepPrune <? to)))%outcome
  else
    let '(res, _, ok) := ParseFileName "" name in
    if negb ok then Ok false else Ok (negb (blockPrune <? To res)).

Definition buildBlackListForPruning (pruneMode : bool)
  (stepPrune minBlockToDownload blockPrune : Z) (preverified : list PreverifiedItem)
  : outcome (gset string) :=
  if negb pruneMode then Ok ∅
  else
    let blockPrune := adjustBlockPrune blockPrune minBlockToDownload in
    blackListLoop stepPrune blockPrune preverified ∅.

(** The callback of [getMinimumBlocksToDownload]; the pair is the captured
    [(minToDownload, minStateStepToDownload)]. *)
Definition bodyCallback (frozenBlocks stateTxNum historyPruneTo : Z)
  (captured : Z * Z) (b : FrozenBody) : Z * Z * option error :=
  let '(minToDownload, minStateStepToDownload) := captured in
  let minStateStepToDownload :=
    if blockNum b =? historyPruneTo then
      let minStateStepToDownload :=
        sub64 (baseTxNum b) (DefaultStepSize - 1) / DefaultStepSize in
      if baseTxNum b <? DefaultStepSize - 1 then 0 else minStateStepToDownload
    else minStateStepToDownload in
  if stateTxNum <=? baseTxNum b then
    ((minToDownload, minStateStepToDownload), None)
  else
    let newMinToDownload :=
      if blockNum b <? frozenBlocks then sub64 frozenBlocks (blockNum b) else 0 in
    let minToDownload :=
      if newMinToDownload <? minToDownload then newMinToDownload else minToDownload in
    ((minToDownload, minStateStepToDownload), None).

Definition getMinimumBlocksToDownload (br : blockReader) (maxStateStep historyPruneTo : Z)
  : Z * Z * option error :=
  let frozenBlocks := SegmentsMax br in
  let stateTxNum := mul64 maxStateStep DefaultStepSize in
  match IterateFrozenBodies br (bodyCallback frozenBlocks stateTxNum historyPruneTo)
          (MaxUint64, MaxUint32) with
  | (_, Some err) => (0, 0, Some err)
  | ((minToDownload, minStateStepToDownload), None) =>
      (sub64 frozenBlocks minToDownload, minStateStepToDownload, None)
  end.

End WithPackages.

End SnapshotSync.
Import SnapshotSync.

(** ** Integer helpers (package [math]) *)

Module MathUtil.

Definition MaxInt64 : Z := 2 ^ 63 - 1.
Definition MinInt64 : Z := - 2 ^ 63.

(** The values of a Go [int] (64 bits) and its two's-complement wrap-around. *)
Definition is_int (z : Z) : Prop := MinInt64 <= z <= MaxInt64.
Definition wrapInt (z : Z) : Z := (z + 2 ^ 63) mod modulus - 2 ^ 63.

(** [bits.Mul64(x, y)] returns [(hi, lo)], the two halves of the 128-bit
    product; [bits.Add64(x, y, carry)] returns [(sum, carryOut)]. *)
Definition Mul64 (x y : Z) : Z * Z := ((x * y) / modulus, (x * y) mod modulus).
Definition Add64 (x y carry : Z) : Z * Z :=
  ((x + y + carry) mod modulus, (x + y + carry) / modulus).

(** The digit loop of [strconv.ParseUint(s, base, 64)] for an explicit base
    between 2 and 36: a byte is a digit [0-9], or a letter, upper or lower
    case, counting from ten; [lower(c)] is [c | ('x' - 'X')]. *)
Definition lower (c : Z) : Z := Z.lor c 32.

Definition digitOf (c : ascii) : option Z :=
  let n := Z.of_N (N_of_ascii c) in
  if (48 <=? n) && (n <=? 57) then Some (n - 48)
  else if (97 <=? lower n) && (lower n <=? 122) then Some (lower n - 97 + 10)
  else None.

Fixpoint parseDigitsBase (base : Z) (s0 s : string) (n : Z) : Z * option error :=
  match s with
  | EmptyString => (n, None)
  | String c s' =>
      match digitOf c with
      | None => (0, Some (ErrSyntax "ParseUint" s0))
      | Some d =>
          if base <=? d then (0, Some (ErrSyntax "ParseUint" s0))
          else
            let cutoff := MaxUint64 / base + 1 in
            if cutoff <=? n then (MaxUint64, Some (ErrRange "ParseUint" s0))
            else
              let nb := mul64 n base in
              let n1 := add64 nb d in
              if (n1 <? nb) || (MaxUint64 <? n1)
              then (MaxUint64, Some (ErrRange "ParseUint" s0))
              else parseDigitsBase base s0 s' n1
      end
  end.

(** [strconv.ParseUint(s, base, 64)], [2 <= base <= 36]. *)
Definition ParseUintBase (s : string) (base : Z) : Z * option error :=
  match s with
  | EmptyString => (0, Some (ErrSyntax "ParseUint" s))
  | _ => parseDigitsBase base s s 0
  end.

(** [fmt.Sprintf("%#x", u)] for a [uint64]: the digits are produced from the
    least significant one, at most sixteen of them, behind the prefix [0x]. *)
Definition hexDigit (d : Z) : ascii :=
  if d <? 10 then ascii_of_N (Z.to_N (48 + d)) else ascii_of_N (Z.to_N (87 + d)).

Fixpoint fmtHex (width : nat) (u : Z) (buf : string) : string :=
  match width with
  | O => buf
  | S width' =>
      if u <? 16 then String (hexDigit u) buf
      else fmtHex width' (u / 16) (String (hexDigit (u mod 16)) buf)
  end.

Definition Sprintf_sharp_x (u : Z) : string := "0x" ++ fmtHex 16 u "".

(** [ParseUint64]: decimal or hexadecimal syntax. *)
Definition ParseUint64 (s : string) : Z * bool :=
  if String.eqb s "" then (0, true)
  else if (2 <=? String.length s)%nat
          && (String.eqb (substring 0 2 s) "0x" || String.eqb (substring 0 2 s) "0X")
  then
    let '(v, err) := ParseUintBase (substring 2 (String.length s - 2) s) 16 in
    (v, isNil err)
  else
    let '(v, err) := ParseUint s in
    (v, isNil err).

(** [MustParseUint64] panics on an invalid string. *)
Definition MustParseUint64 (s : string) : option Z :=
  let '(v, ok) := ParseUint64 s in
  if negb ok then None else Some v.

(** The error of [UnmarshalText]. *)
Inductive textError : Type :=
| ErrInvalidHexOrDecimal (input : string).

(** The methods of [HexOrDecimal64]; the receiver [*i] is passed in and
    returned, a [[]byte] of text is a [string]. *)
Definition UnmarshalText (i : Z) (input : string) : Z * option textError :=
  let '(n, ok) := ParseUint64 input in
  if negb ok then (i, Some (ErrInvalidHexOrDecimal input))
  else (n, None).

Definition quote : ascii := "034"%char.

Definition UnmarshalJSON (i : Z) (input : string) : Z * option textError :=
  let input :=
    if (1 <? String.length input)%nat
       && match String.get 0 input with
          | Some c => Ascii.eqb c quote
          | None => false
          end
    then substring 1 (String.length input - 1 - 1) input
    else input in
  UnmarshalText i input.

Definition MarshalText (i : Z) : string * option textError :=
  (Sprintf_sharp_x i, None).

Definition AbsoluteDifference (x y : Z) : Z :=
  if y <? x then sub64 x y else sub64 y x.

Definition SafeMul (x y : Z) : Z * bool :=
  let '(hi, lo) := Mul64 x y in
  (lo, negb (hi =? 0)).

Definition SafeAdd (x y : Z) : Z * bool :=
  let '(sum, carryOut) := Add64 x y 0 in
  (sum, negb (carryOut =? 0)).

(** [CeilDiv] on [int]: [/] truncates towards zero. *)
Definition CeilDiv (x y : Z) : Z :=
  if y =? 0 then 0
  else wrapInt (Z.quot (wrapInt (wrapInt (x + y) - 1)) y).

End MathUtil.
Import MathUtil.

(** ** 256-bit integers ([holiman/uint256]), as far as the blob-gas code
    calls them *)

Module Uint256.

Definition modulus256 : Z := 2 ^ 256.
Definition is_u256 (z : Z) : Prop := 0 <= z < modulus256.

Definition NewInt (v : Z) : Z := v.

(** [z.Sign()] reads [z] as a two's-complement number: 0 for zero, 1 below
    [2^255], -1 from there on. *)
Definition Sign (z : Z) : Z :=
  if z =? 0 then 0 else if z <? 2 ^ 255 then 1 else -1.

(** [z.MulOverflow(x, y)], [z.AddOverflow(x, y)]: the low 256 bits and
    whether bits were lost. *)
Definition MulOverflow (x y : Z) : Z * bool :=
  ((x * y) mod modulus256, modulus256 <=? x * y).

Definition AddOverflow (x y : Z) : Z * bool :=
  ((x + y) mod modulus256, modulus256 <=? x + y).

(** [z.MulDivOverflow(x, y, d)]: [(x * y) / d] from the 512-bit product; a
    zero argument gives zero without overflow. *)
Definition MulDivOverflow (x y d : Z) : Z * bool :=
  if (x =? 0) || (y =? 0) || (d =? 0) then (0, false)
  else (((x * y) / d) mod modulus256, modulus256 <=? (x * y) / d).

(** [z.Div(x, y)]: zero for a zero divisor. *)
Definition Div (x y : Z) : Z := if y =? 0 then 0 else x / y.

End Uint256.
Import Uint256.

(** ** Blob gas and the Cancun header fields ([consensus/misc/eip4844.go]) *)

Module Eip4844.

(** The fields of [types.Header] that these functions read; a [nil] pointer
    is [None]. *)
Record Header : Type := {
  BlobGasUsed : option Z;
  ExcessBlobGas : option Z;
  ParentBeaconBlockRoot : option bytes;
  WithdrawalsHash : option bytes
}.

(** The methods of [chain.Config] that these functions call. *)
Record ChainConfig : Type := {
  GetTargetBlobGasPerBlock : Z -> Z;
  GetMinBlobGasPrice : Z;
  GetBlobGasPriceUpdateFraction : Z -> Z
}.

Definition CalcExcessBlobGas (config : ChainConfig) (parent : Header)
  (currentHeaderTime : Z) : Z :=
  let excessBlobGas := match ExcessBlobGas parent with Some v => v | None => 0 end in
  let blobGasUsed := match BlobGasUsed parent with Some v => v | None => 0 end in
  if add64 excessBlobGas blobGasUsed <? GetTargetBlobGasPerBlock config currentHeaderTime
  then 0
  else sub64 (add64 excessBlobGas blobGasUsed)
         (GetTargetBlobGasPerBlock config currentHeaderTime).

(** The errors of [FakeExponential], with the values they print. *)
Inductive blobError : Type :=
| ErrFactorDenomOverflow (factor denom : Z)
| ErrOutputOverflow (output numeratorAccum : Z)
| ErrDivisorOverflow (denom i : Z)
| ErrAccumOverflow (numeratorAccum numerator divisor : Z).

(** The loop of [FakeExponential].  [i] is an [int]: [i++] wraps and
    [uint64(i)] is [i] modulo [2^64].  The loop has no bound of its own, so
    the embedding counts its passes down from [fuel]; [None] is "more
    passes needed". *)
Fixpoint fakeExponentialLoop (fuel : nat) (denom numerator : Z)
  (i output numeratorAccum : Z) : option (Z + blobError) :=
  match fuel with
  | O => None
  | S fuel' =>
      if 0 <? Sign numeratorAccum then
        let '(output, overflow) := AddOverflow output numeratorAccum in
        if overflow then Some (inr (ErrOutputOverflow output numeratorAccum))
        else
          let '(divisor, overflow) := MulOverflow denom (NewInt (wrap64 i)) in
          if overflow then Some (inr (ErrDivisorOverflow denom i))
          else
            let '(numeratorAccum', overflow) :=
              MulDivOverflow numeratorAccum numerator divisor in
            if overflow
            then Some (inr (ErrAccumOverflow numeratorAccum' numerator divisor))
            else fakeExponentialLoop fuel' denom numerator
                   (wrapInt (i + 1)) output numeratorAccum'
      else Some (inl (Div output denom))
  end.

Definition FakeExponential (fuel : nat) (factor denom excessBlobGas : Z)
  : option (Z + blobError) :=
  let numerator := NewInt excessBlobGas in
  let output := NewInt 0 in
  let '(numeratorAccum, overflow) := MulOverflow factor denom in
  if overflow then Some (inr (ErrFactorDenomOverflow factor denom))
  else fakeExponentialLoop fuel denom numerator 1 output numeratorAccum.

Definition GetBlobGasPrice (fuel : nat) (config : ChainConfig)
  (excessBlobGas headerTime : Z) : option (Z + blobError) :=
  FakeExponential fuel (NewInt (GetMinBlobGasPrice config))
    (NewInt (GetBlobGasPriceUpdateFraction config headerTime)) excessBlobGas.

(** The errors of the header checks. *)
Inductive headerError : Type :=
| ErrMissingBlobGasUsed
| ErrMissingExcessBlobGas
| ErrMissingParentBeaconBlockRoot
| ErrHasParentBeaconBlockRoot
| ErrWrongWithdrawalsHash
| ErrBlobGasUsedBeforeFork (have : Z)
| ErrExcessBlobGasBeforeFork (have : Z)
| ErrParentBeaconBlockRootBeforeFork (have : bytes)
| ErrWithdrawalsHashBeforeFork (have : bytes)
| ErrInvalidParentBeaconRoot (have : option bytes).

Definition isSome {A} (o : option A) : bool :=
  match o with Some _ => true | None => false end.

(** [libcommon.Hash{}]. *)
Definition zeroHash : bytes := replicate 32 x00.

Definition VerifyPresenceOfCancunHeaderFields (header : Header) : option headerError :=
  if negb (isSome (BlobGasUsed header)) then Some ErrMissingBlobGasUsed
  else if negb (isSome (ExcessBlobGas header)) then Some ErrMissingExcessBlobGas
  else if negb (isSome (ParentBeaconBlockRoot header))
  then Some ErrMissingParentBeaconBlockRoot
  else None.

Definition VerifyAbsenceOfCancunHeaderFields (header : Header) : option headerError :=
  match BlobGasUsed header with
  | Some v => Some (ErrBlobGasUsedBeforeFork v)
  | None =>
      match ExcessBlobGas header with
      | Some v => Some (ErrExcessBlobGasBeforeFork v)
      | None =>
          match ParentBeaconBlockRoot header with
          | Some h => Some (ErrParentBeaconBlockRootBeforeFork h)
          | None => None
          end
      end
  end.

Definition VerifyBscAbsenceOfCancunHeaderFields (header : Header) : option headerError :=
  match BlobGasUsed header with
  | Some v => Some (ErrBlobGasUsedBeforeFork v)
  | None =>
      match ExcessBlobGas header with
      | Some v => Some (ErrExcessBlobGasBeforeFork v)
      | None =>
          match ParentBeaconBlockRoot header with
          | Some h => Some (ErrParentBeaconBlockRootBeforeFork h)
          | None =>
              match WithdrawalsHash header with
              | Some h => Some (ErrWithdrawalsHashBeforeFork h)
              | None => None
              end
          end
      end
  end.

Section WithEmptyRoot.

(** [types.EmptyRootHash], a constant of another package. *)
Variable EmptyRootHash : bytes.

Definition wrongWithdrawalsHash (header : Header) : bool :=
  match WithdrawalsHash header with
  | None => true
  | Some h => negb (bool_decide (h = EmptyRootHash))
  end.

Definition VerifyBscPresenceOfCancunHeaderFields (header : Header) : option headerError :=
  if negb (isSome (BlobGasUsed header)) then Some ErrMissingBlobGasUsed
  else if negb (isSome (ExcessBlobGas header)) then Some ErrMissingExcessBlobGas
  else if isSome (ParentBeaconBlockRoot header) then Some ErrHasParentBeaconBlockRoot
  else if wrongWithdrawalsHash header then Some ErrWrongWithdrawalsHash
  else None.

Definition VerifyPresenceOfBohrHeaderFields (header : Header) : option headerError :=
  if negb (isSome (BlobGasUsed header)) then Some ErrMissingBlobGasUsed
  else if negb (isSome (ExcessBlobGas header)) then Some ErrMissingExcessBlobGas
  else if match ParentBeaconBlockRoot header with
          | None => true
          | Some h => negb (bool_decide (h = zeroHash))
          end
  then Some (ErrInvalidParentBeaconRoot (ParentBeaconBlockRoot header))
  else if wrongWithdrawalsHash header then Some ErrWrongWithdrawalsHash
  else None.

End WithEmptyRoot.

End Eip4844.
Import Eip4844.

(** ** Snapshot synchronisation: the download request *)

Module DownloadRequests.

(** [type CaplinMode int]. *)
Definition CaplinMode : Type := Z.
Definition NoCaplin : CaplinMode := 1.
Definition OnlyCaplin : CaplinMode := 2.
Definition AlsoCaplin : CaplinMode := 3.

Record DownloadRequest : Type := {
  Version : Z;
  Path : string;
  TorrentHash : string
}.

Definition NewDownloadRequest (path torrentHash : string) : DownloadRequest :=
  {| Version := 0; Path := path; TorrentHash := torrentHash |}.

(** [proto_downloader.AddItem]; [H] is the type of the hash in the message,
    [None] an item without a hash. *)
Record AddItem (H : Type) : Type := {
  itemTorrentHash : option H;
  itemPath : string
}.
Arguments itemTorrentHash {H} _.
Arguments itemPath {H} _.

Section Proto.

(** [downloadergrpc.String2Proto]. *)
Variable H : Type.
Variable String2Proto : string -> H.

(** [BuildProtoRequest]: the [Items] of the request it returns. *)
Definition BuildProtoRequest (downloadRequest : list DownloadRequest) : list (AddItem H) :=
  fold_left
    (fun items r =>
       if String.eqb (Path r) "" then items
       else if negb (String.eqb (TorrentHash r) "") then
         items ++ [ {| itemTorrentHash := Some (String2Proto (TorrentHash r));
                       itemPath := Path r |} ]
       else
         items ++ [ {| itemTorrentHash := None; itemPath := Path r |} ])
    downloadRequest [].

End Proto.

(** The loop of [getMaxStepRangeInSnapshots]. *)
Fixpoint maxStepLoop (preverified : list PreverifiedItem) (maxTo : Z) : outcome Z :=
  match preverified with
  | [] => Ok maxTo
  | p :: rest =>
      if negb (HasPrefix (Name p) "domain") then maxStepLoop rest maxTo
      else
        (to <-- parseStateTo (Name p) ;;
         if maxTo <? to then maxStepLoop rest to else maxStepLoop rest maxTo)%outcome
  end.

Definition getMaxStepRangeInSnapshots (preverified : list PreverifiedItem) : outcome Z :=
  maxStepLoop preverified 0.

(** The arguments and configuration flags of [WaitForDownloader] that decide
    which files are requested. *)
Record SyncFlags : Type := {
  headerchain : bool;
  blobs : bool;
  caplinState : bool;
  caplin : CaplinMode;
  DisableDownloadE3 : bool;
  KeepExecutionProofs : bool;
  PersistReceiptsCacheV2 : bool
}.

Section WithPackages.

(** From other packages: [snaptype.Erigon2MergeLimit],
    [config3.DefaultStepSize], [snaptype.ParseFileName],
    [snaptype.BlobSidecars.Name()], whether [pruneMode.Blocks] is
    [prune.DefaultBlocksPruneMode], and [cc.IsPreMerge]. *)
Variable Erigon2MergeLimit : Z.
Variable DefaultStepSize : Z.
Variable ParseFileName : string -> string -> FileInfo * bool * bool.
Variable BlobSidecarsName : string.
Variable blocksPruneIsDefault : bool.
Variable IsPreMerge : Z -> bool.

Definition isTransactionsSegmentExpired (p : PreverifiedItem) : bool :=
  if negb blocksPruneIsDefault then false
  else
    let '(s, _, ok) := ParseFileName "" (Name p) in
    if negb ok then false else IsPreMerge (From s).

(** The loop of [WaitForDownloader] that builds all download requests. *)
Fixpoint downloadRequestLoop (flags : SyncFlags) (blackListForPruning : gset string)
  (preverified : list PreverifiedItem) (downloadRequest : list DownloadRequest)
  : list DownloadRequest :=
  match preverified with
  | [] => downloadRequest
  | p :: rest =>
      let skip := downloadRequestLoop flags blackListForPruning rest downloadRequest in
      if (caplin flags =? NoCaplin)
         && (Contains (Name p) "beaconblocks" || Contains (Name p) "blobsidecars"
             || Contains (Name p) "caplin")
         && negb (Contains (Name p) "bscblobsidecars")
      then skip
      else if (caplin flags =? OnlyCaplin)
              && negb (Contains (Name p) "beaconblocks")
              && negb (Contains (Name p) "blobsidecars")
              && negb (Contains (Name p) "caplin")
      then skip
      else if isStateSnapshot (Name p) && DisableDownloadE3 flags then skip
      else if negb (blobs flags) && Contains (Name p) BlobSidecarsName then skip
      else if negb (caplinState flags) && Contains (Name p) "caplin/" then skip
      else if headerchain flags
              && negb (Contains (Name p) "headers" || Contains (Name p) "bodies"
                       || String.eqb (Name p) "salt-blocks.txt")
      then skip
      else if negb (KeepExecutionProofs flags) && isStateHistory (Name p)
              && Contains (Name p) (Domain_String CommitmentDomain)
      then skip
      else if negb (PersistReceiptsCacheV2 flags) && isStateSnapshot (Name p)
              && Contains (Name p) (Domain_String RCacheDomain)
      then skip
      else if bool_decide (Name p ∈ blackListForPruning) then skip
      else if Contains (Name p) "transactions" && isTransactionsSegmentExpired p
      then skip
      else
        downloadRequestLoop flags blackListForPruning rest
          (downloadRequest ++ [NewDownloadRequest (Name p) (Hash p)])
  end.

(** What one pass through the body of that loop decides for a catalog
    entry: whether a request for it is appended. *)
Definition downloadWanted (flags : SyncFlags) (blackListForPruning : gset string)
  (p : PreverifiedItem) : bool :=
  if (caplin flags =? NoCaplin)
     && (Contains (Name p) "beaconblocks" || Contains (Name p) "blobsidecars"
         || Contains (Name p) "caplin")
     && negb (Contains (Name p) "bscblobsidecars")
  then false
  else if (caplin flags =? OnlyCaplin)
          && negb (Contains (Name p) "beaconblocks")
          && negb (Contains (Name p) "blobsidecars")
          && negb (Contains (Name p) "caplin")
  then false
  else if isStateSnapshot (Name p) && DisableDownloadE3 flags then false
  else if negb (blobs flags) && Contains (Name p) BlobSidecarsName then false
  else if negb (caplinState flags) && Contains (Name p) "caplin/" then false
  else if headerchain flags
          && negb (Contains (Name p) "headers" || Contains (Name p) "bodies"
                   || String.eqb (Name p) "salt-blocks.txt")
  then false
  else if negb (KeepExecutionProofs flags) && isStateHistory (Name p)
          && Contains (Name p) (Domain_String CommitmentDomain)
  then false
  else if negb (PersistReceiptsCacheV2 flags) && isStateSnapshot (Name p)
          && Contains (Name p) (Domain_String RCacheDomain)
  then false
  else if bool_decide (Name p ∈ blackListForPruning) then false
  else if Contains (Name p) "transactions" && isTransactionsSegmentExpired p
  then false
  else true.

(** [WaitForDownloader] from the catalog to the download request; the
    catalog [preverified] is [snapcfg.KnownCfg(cc.ChainName).Preverified],
    [(blockPrune, historyPrune)] is what [computeBlocksToPrune] returned and
    [wantToPrune] is [prune.Blocks.Enabled() || prune.History.Enabled()]. *)
Definition planDownloadRequest (flags : SyncFlags) (br : blockReader)
  (blockPrune historyPrune : Z) (wantToPrune : bool)
  (preverified : list PreverifiedItem) : outcome (list DownloadRequest) :=
  (blackListForPruning <--
     (if negb (headerchain flags) && wantToPrune then
        maxStateStep <-- getMaxStepRangeInSnapshots preverified ;;
        match getMinimumBlocksToDownload DefaultStepSize br maxStateStep historyPrune with
        | (_, _, Some err) => Err err
        | (minBlockToDownload, minStepToDownload, None) =>
            buildBlackListForPruning Erigon2MergeLimit ParseFileName wantToPrune
              minStepToDownload minBlockToDownload blockPrune preverified
        end
      else Ok ∅) ;;
   Ok (downloadRequestLoop flags blackListForPruning preverified []))%outcome.

End WithPackages.

End DownloadRequests.
Import DownloadRequests.

(** ** The table configuration ([kv] package, [reinit]) *)

Module TableConfig.

Record TableCfgItem : Type := {
  Flags : Z;
  AutoDupSortKeysConversion : bool;
  IsDeprecated : bool;
  DBI : Z;
  DupFromLen : Z;
  DupToLen : Z
}.

(** [TableCfgItem{}]. *)
Definition zeroItem : TableCfgItem :=
  {| Flags := 0; AutoDupSortKeysConversion := false; IsDeprecated := false;
     DBI := 0; DupFromLen := 0; DupToLen := 0 |}.

(** The package-level table lists and [TableCfg] maps that [reinit] reads and
    writes. *)
Record Registry : Type := {
  ChaindataTables : list string;
  ChaindataDeprecatedTables : list string;
  TxPoolTables : list string;
  SentryTables : list string;
  ConsensusTables : list string;
  DownloaderTables : list string;
  ReconTables : list string;
  DiagnosticsTables : list string;
  HeimdallTables : list string;
  PolygonBridgeTables : list string;
  ChaindataTablesCfg : gmap string TableCfgItem;
  TxpoolTablesCfg : gmap string TableCfgItem;
  SentryTablesCfg : gmap string TableCfgItem;
  ConsensusTablesCfg : gmap string TableCfgItem;
  DownloaderTablesCfg : gmap string TableCfgItem;
  ReconTablesCfg : gmap string TableCfgItem;
  DiagnosticsTablesCfg : gmap string TableCfgItem;
  HeimdallTablesCfg : gmap string TableCfgItem;
  PolygonBridgeTablesCfg : gmap string TableCfgItem
}.

(** [strings.Compare(a, b) < 0 || a == b]: the byte order of strings. *)
Definition bytesLe (a b : string) : Prop := String.leb a b = true.

#[global] Instance bytesLe_dec (a b : string) : Decision (bytesLe a b).
Proof. unfold bytesLe. apply bool_eq_dec. Defined.

(** [sort.SliceStable] by [strings.Compare(..) < 0]; equal strings being the
    same string, every sort returns the same list. *)
Definition sortBuckets (tables : list string) : list string :=
  merge_sort bytesLe tables.

(** [for _, name := range names { if _, ok := cfg[name]; !ok { cfg[name] =
    TableCfgItem{} } }]. *)
Definition ensureOne (cfg : gmap string TableCfgItem) (name : string)
  : gmap string TableCfgItem :=
  match cfg !! name with
  | Some _ => cfg
  | None => <[name := zeroItem]> cfg
  end.

Definition ensureTables (names : list string) (cfg : gmap string TableCfgItem)
  : gmap string TableCfgItem :=
  fold_left ensureOne names cfg.

(** [tmp.IsDeprecated = true]. *)
Definition asDeprecated (tmp : TableCfgItem) : TableCfgItem :=
  {| Flags := Flags tmp;
     AutoDupSortKeysConversion := AutoDupSortKeysConversion tmp;
     IsDeprecated := true;
     DBI := DBI tmp;
     DupFromLen := DupFromLen tmp;
     DupToLen := DupToLen tmp |}.

(** The body of the loop over [ChaindataDeprecatedTables]; a map read of a
    missing key returns the zero item. *)
Definition deprecateOne (cfg : gmap string TableCfgItem) (name : string)
  : gmap string TableCfgItem :=
  let cfg := ensureOne cfg name in
  let tmp := default zeroItem (cfg !! name) in
  <[name := asDeprecated tmp]> cfg.

Definition deprecateTables (names : list string) (cfg : gmap string TableCfgItem)
  : gmap string TableCfgItem :=
  fold_left deprecateOne names cfg.

Definition reinit (g : Registry) : Registry :=
  let chaindataTables := sortBuckets (ChaindataTables g) in
  {| ChaindataTables := chaindataTables;
     ChaindataDeprecatedTables := ChaindataDeprecatedTables g;
     TxPoolTables := TxPoolTables g;
     SentryTables := SentryTables g;
     ConsensusTables := ConsensusTables g;
     DownloaderTables := DownloaderTables g;
     ReconTables := ReconTables g;
     DiagnosticsTables := DiagnosticsTables g;
     HeimdallTables := HeimdallTables g;
     PolygonBridgeTables := PolygonBridgeTables g;
     ChaindataTablesCfg :=
       deprecateTables (ChaindataDeprecatedTables g)
         (ensureTables chaindataTables (ChaindataTablesCfg g));
     TxpoolTablesCfg := ensureTables (TxPoolTables g) (TxpoolTablesCfg g);
     SentryTablesCfg := ensureTables (SentryTables g) (SentryTablesCfg g);
     ConsensusTablesCfg := ensureTables (ConsensusTables g) (ConsensusTablesCfg g);
     DownloaderTablesCfg := ensureTables (DownloaderTables g) (DownloaderTablesCfg g);
     ReconTablesCfg := ensureTables (ReconTables g) (ReconTablesCfg g);
     DiagnosticsTablesCfg := ensureTables (DiagnosticsTables g) (DiagnosticsTablesCfg g);
     HeimdallTablesCfg := ensureTables (HeimdallTables g) (HeimdallTablesCfg g);
     PolygonBridgeTablesCfg :=
       ensureTables (PolygonBridgeTables g) (PolygonBridgeTablesCfg g) |}.

End TableConfig.
Import TableConfig.

(** * Properties *)

(** ** Wrap-around arithmetic *)

Lemma modulus_eq : modulus = 18446744073709551616.
Proof. reflexivity. Qed.

Lemma wrap64_range z : is_u64 (wrap64 z).
Proof. unfold is_u64, wrap64. apply Z.mod_pos_bound. reflexivity. Qed.

Lemma wrap64_small z : is_u64 z -> wrap64 z = z.
Proof. unfold is_u64, wrap64. intros H. now apply Z.mod_small. Qed.

Lemma wrap64_le z : 0 <= z -> wrap64 z <= z.
Proof. unfold wrap64. intros H. apply Z.mod_le; [assumption | reflexivity]. Qed.

Lemma sub64_MaxUint64 a : sub64 a MaxUint64 = wrap64 (a + 1).
Proof.
  unfold sub64, wrap64, MaxUint64.
  replace (a - (modulus - 1)) with (a + 1 + (-1) * modulus) by ring.
  apply Z.mod_add. discriminate.
Qed.

(** ** [adjustBlockPrune] *)

Lemma adjustBlockPrune_unfold L blocks minB :
  adjustBlockPrune L blocks minB =
  sub64 (Z.min blocks (Z.max minB L)) (Z.min blocks (Z.max minB L) mod L).
Proof.
  unfold adjustBlockPrune.
  assert ((if minB <? L then L else minB) = Z.max minB L) as ->
    by (destruct (Z.ltb_spec minB L); lia).
  assert ((if Z.max minB L <? blocks then Z.max minB L else blocks)
          = Z.min blocks (Z.max minB L)) as ->
    by (destruct (Z.ltb_spec (Z.max minB L) blocks); lia).
  reflexivity.
Qed.

(** C9.  For a positive merge limit [L] and every [uint64] value [blocks],
    [adjustBlockPrune blocks minBlocksToDownload] is
    [min blocks (max minBlocksToDownload L)] rounded down to a multiple of
    [L]: it is a multiple of [L], it lies within [L] below that minimum, and
    it exceeds neither the clamped bound [max minBlocksToDownload L] nor
    [blocks]. *)
Theorem adjustBlockPrune_spec (L blocks minBlocksToDownload : Z) :
  0 < L -> is_u64 blocks ->
  let bound := Z.max minBlocksToDownload L in
  let r := adjustBlockPrune L blocks minBlocksToDownload in
  r = L * (Z.min blocks bound / L)
  /\ (L | r)
  /\ Z.min blocks bound - L < r <= Z.min blocks bound
  /\ r <= bound.
Proof.
  intros HL Hb bound r. subst r bound.
  rewrite adjustBlockPrune_unfold.
  set (b := Z.min blocks (Z.max minBlocksToDownload L)).
  assert (0 <= b <= blocks) by (unfold is_u64 in Hb; lia).
  pose proof (Z.mod_pos_bound b L HL) as Hm.
  pose proof (Z.div_mod b L ltac:(lia)) as Hd.
  pose proof (Z.mod_le b L ltac:(lia) HL) as Hle.
  assert (sub64 b (b mod L) = b - b mod L) as ->.
  { apply wrap64_small. unfold is_u64 in *. lia. }
  assert (b - b mod L = L * (b / L)) as Hr by lia.
  repeat split; try lia.
  rewrite Hr. exists (b / L). ring.
Qed.

Lemma adjustBlockPrune_spec_witness :
  0 < 100000 /\ is_u64 1234567
  /\ adjustBlockPrune 100000 1234567 450000 = 400000
  /\ (100000 | adjustBlockPrune 100000 1234567 450000).
Proof.
  assert (H0 : 0 < 100000) by lia.
  assert (H1 : is_u64 1234567) by (unfold is_u64; rewrite modulus_eq; lia).
  destruct (adjustBlockPrune_spec 100000 1234567 450000 H0 H1) as (Hr & Hdiv & _).
  split; [exact H0 | split; [exact H1 | split; [exact Hr | exact Hdiv]]].
Defined.

(** ** [getMinimumBlocksToDownload] *)

Lemma bodyCallback_no_error D frozen stateTxNum pruneTo captured b :
  (bodyCallback D frozen stateTxNum pruneTo captured b).2 = None.
Proof.
  unfold bodyCallback. destruct captured as [m s].
  destruct (stateTxNum <=? baseTxNum b); reflexivity.
Qed.

Lemma bodyCallback_min_kept D frozen stateTxNum pruneTo m s b :
  ~ baseTxNum b < stateTxNum ->
  (bodyCallback D frozen stateTxNum pruneTo (m, s) b).1.1 = m.
Proof.
  intros H. unfold bodyCallback.
  destruct (Z.leb_spec stateTxNum (baseTxNum b)); [reflexivity | lia].
Qed.

Lemma bodyCallback_step_kept D frozen stateTxNum pruneTo m s b :
  blockNum b <> pruneTo ->
  (bodyCallback D frozen stateTxNum pruneTo (m, s) b).1.2 = s.
Proof.
  intros H. unfold bodyCallback.
  destruct (Z.eqb_spec (blockNum b) pruneTo); [contradiction |].
  destruct (stateTxNum <=? baseTxNum b); reflexivity.
Qed.

(** A callback that never fails is run on every body, and the iteration
    ends in the iterator's own error. *)
Lemma iterateBodies_total {S : Type} (f : S -> FrozenBody -> S * option error)
  bodies final s :
  (forall s b, (f s b).2 = None) ->
  iterateBodies f bodies final s = (fold_left (fun s b => (f s b).1) bodies s, final).
Proof.
  intros Hf. revert s. induction bodies as [| b rest IH]; intros s; simpl.
  - reflexivity.
  - specialize (Hf s b). destruct (f s b) as [s' [e |]]; simpl in *.
    + discriminate.
    + apply IH.
Qed.

Lemma fold_callback_min_kept D frozen stateTxNum pruneTo bodies m s :
  Forall (fun b => ~ baseTxNum b < stateTxNum) bodies ->
  (fold_left (fun c b => (bodyCallback D frozen stateTxNum pruneTo c b).1) bodies (m, s)).1 = m.
Proof.
  intros H. revert s. induction H as [| b rest Hb _ IH]; intros s; cbn [fold_left].
  - reflexivity.
  - pose proof (bodyCallback_min_kept D frozen stateTxNum pruneTo m s b Hb) as E.
    destruct (bodyCallback D frozen stateTxNum pruneTo (m, s) b) as [[m' s'] e].
    simpl in E. subst m'. apply IH.
Qed.

Lemma fold_callback_step_kept D frozen stateTxNum pruneTo bodies m s :
  Forall (fun b => blockNum b <> pruneTo) bodies ->
  (fold_left (fun c b => (bodyCallback D frozen stateTxNum pruneTo c b).1) bodies (m, s)).2 = s.
Proof.
  intros H. revert m. induction H as [| b rest Hb _ IH]; intros m; cbn [fold_left].
  - reflexivity.
  - pose proof (bodyCallback_step_kept D frozen stateTxNum pruneTo m s b Hb) as E.
    destruct (bodyCallback D frozen stateTxNum pruneTo (m, s) b) as [[m' s'] e].
    simpl in E. subst s'. apply IH.
Qed.

Lemma getMinimumBlocksToDownload_unfold D br maxStateStep pruneTo :
  let c := fold_left
             (fun c b => (bodyCallback D (SegmentsMax br) (mul64 maxStateStep D) pruneTo c b).1)
             (frozenBodies br) (MaxUint64, MaxUint32) in
  IterateFrozenBodies br (bodyCallback D (SegmentsMax br) (mul64 maxStateStep D) pruneTo)
    (MaxUint64, MaxUint32) = (c, iterateErr br)
  /\ getMinimumBlocksToDownload D br maxStateStep pruneTo =
     match iterateErr br with
     | Some err => (0, 0, Some err)
     | None => (sub64 (SegmentsMax br) c.1, c.2, None)
     end.
Proof.
  intros c.
  assert (E : IterateFrozenBodies br
                (bodyCallback D (SegmentsMax br) (mul64 maxStateStep D) pruneTo)
                (MaxUint64, MaxUint32) = (c, iterateErr br)).
  { unfold IterateFrozenBodies.
    rewrite iterateBodies_total by (intros; apply bodyCallback_no_error). reflexivity. }
  split; [exact E |].
  unfold getMinimumBlocksToDownload. rewrite E.
  destruct c as [m s], (iterateErr br); reflexivity.
Qed.

(** C10.  If the iteration over the frozen bodies visits no body whose
    [baseTxNum] is below [stateTxNum] (the [uint64] product of [maxStateStep]
    and the step size, and all the more if none is below their exact product),
    [minToDownload] is still [MaxUint64] when the iteration ends, and the
    [minBlockToDownload] returned with a [nil] error is
    [frozenBlocks - MaxUint64] with wrap-around, that is
    [(frozenBlocks + 1) mod 2^64]; if it visits no body whose [blockNum] is
    [historyPruneTo], [minStateStepToDownload] is still [MaxUint32] and is
    returned as such.  An error of the iteration is returned next to two
    zeros. *)
Theorem getMinimumBlocksToDownload_untouched
  (DefaultStepSize : Z) (br : blockReader) (maxStateStep historyPruneTo : Z) :
  let frozenBlocks := SegmentsMax br in
  let stateTxNum := mul64 maxStateStep DefaultStepSize in
  let captured :=
    (IterateFrozenBodies br
       (bodyCallback DefaultStepSize frozenBlocks stateTxNum historyPruneTo)
       (MaxUint64, MaxUint32)).1 in
  let r := getMinimumBlocksToDownload DefaultStepSize br maxStateStep historyPruneTo in
  (Forall (fun b => ~ baseTxNum b < stateTxNum) (frozenBodies br) ->
   captured.1 = MaxUint64
   /\ (iterateErr br = None ->
       r.1.1 = sub64 frozenBlocks MaxUint64
       /\ r.1.1 = (frozenBlocks + 1) mod 2 ^ 64
       /\ r.2 = None))
  /\ (0 <= maxStateStep * DefaultStepSize ->
      Forall (fun b => ~ baseTxNum b < maxStateStep * DefaultStepSize) (frozenBodies br) ->
      captured.1 = MaxUint64
      /\ (iterateErr br = None ->
          r.1.1 = (frozenBlocks + 1) mod 2 ^ 64 /\ r.2 = None))
  /\ (Forall (fun b => blockNum b <> historyPruneTo) (frozenBodies br) ->
      captured.2 = MaxUint32
      /\ (iterateErr br = None -> r.1.2 = MaxUint32 /\ r.2 = None))
  /\ (forall err, iterateErr br = Some err -> r = (0, 0, Some err)).
Proof.
  intros frozenBlocks stateTxNum captured r. subst captured r frozenBlocks stateTxNum.
  destruct (getMinimumBlocksToDownload_unfold DefaultStepSize br maxStateStep historyPruneTo)
    as [-> ->].
  set (frozenBlocks := SegmentsMax br).
  set (stateTxNum := mul64 maxStateStep DefaultStepSize).
  cbn [fst snd].
  assert (Hcode :
    Forall (fun b => ~ baseTxNum b < stateTxNum) (frozenBodies br) ->
    (fold_left
       (fun c b => (bodyCallback DefaultStepSize frozenBlocks stateTxNum historyPruneTo c b).1)
       (frozenBodies br) (MaxUint64, MaxUint32)).1 = MaxUint64
    /\ (iterateErr br = None ->
        (match iterateErr br with
         | Some err => (0, 0, Some err)
         | None =>
             (sub64 frozenBlocks
                (fold_left
                   (fun c b => (bodyCallback DefaultStepSize frozenBlocks stateTxNum
                                  historyPruneTo c b).1)
                   (frozenBodies br) (MaxUint64, MaxUint32)).1,
              (fold_left
                 (fun c b => (bodyCallback DefaultStepSize frozenBlocks stateTxNum
                                historyPruneTo c b).1)
                 (frozenBodies br) (MaxUint64, MaxUint32)).2, None)
         end).1.1 = sub64 frozenBlocks MaxUint64)).
  { intros H. rewrite fold_callback_min_kept by exact H.
    split; [reflexivity |]. intros ->. reflexivity. }
  split; [| split; [| split]].
  - intros H. destruct (Hcode H) as [Hm Hr]. split; [exact Hm |].
    intros He. specialize (Hr He). rewrite He in *. cbn [fst snd] in *.
    split; [exact Hr | split; [| reflexivity]].
    rewrite Hr. apply sub64_MaxUint64.
  - intros Hnn H.
    assert (H' : Forall (fun b => ~ baseTxNum b < stateTxNum) (frozenBodies br)).
    { eapply Forall_impl; [exact H |].
      intros b Hb Hlt. apply Hb.
      pose proof (wrap64_le _ Hnn). unfold stateTxNum, mul64 in Hlt. lia. }
    destruct (Hcode H') as [Hm Hr]. split; [exact Hm |].
    intros He. specialize (Hr He). rewrite He in *. cbn [fst snd] in *.
    split; [| reflexivity]. rewrite Hr. apply sub64_MaxUint64.
  - intros H. rewrite fold_callback_step_kept by exact H.
    split; [reflexivity |]. intros ->. split; reflexivity.
  - intros err ->. reflexivity.
Qed.

Lemma getMinimumBlocksToDownload_untouched_witness :
  let br := {| SegmentsMax := 1000;
               frozenBodies := [ {| blockNum := 5; baseTxNum := 2000000; txAmount := 3 |} ];
               iterateErr := None |} in
  iterateErr br = None
  /\ Forall (fun b => ~ baseTxNum b < mul64 1 1562500) (frozenBodies br)
  /\ Forall (fun b => blockNum b <> 7) (frozenBodies br)
  /\ getMinimumBlocksToDownload 1562500 br 1 7 = (1001, 4294967295, None).
Proof.
  intros br.
  assert (He : iterateErr br = None) by reflexivity.
  assert (H1 : Forall (fun b => ~ baseTxNum b < mul64 1 1562500) (frozenBodies br)).
  { repeat constructor. vm_compute. discriminate. }
  assert (H2 : Forall (fun b => blockNum b <> 7) (frozenBodies br)).
  { repeat constructor. simpl. lia. }
  destruct (getMinimumBlocksToDownload_untouched 1562500 br 1 7) as (Ha & _ & Hb & _).
  destruct (Ha H1) as (_ & Hmin). destruct (Hmin He) as (_ & Hmin' & _).
  destruct (Hb H2) as (_ & Hstep). destruct (Hstep He) as (Hstep' & Herr).
  split; [exact He | split; [exact H1 | split; [exact H2 |]]].
  destruct (getMinimumBlocksToDownload 1562500 br 1 7) as [[m s] e].
  cbn [fst snd] in *. subst. reflexivity.
Defined.

(** A body below [stateTxNum] does lower [minToDownload]: the model is not
    stuck at its initial values. *)
Example getMinimumBlocksToDownload_lowered :
  getMinimumBlocksToDownload 1562500
    {| SegmentsMax := 1000;
       frozenBodies := [ {| blockNum := 5; baseTxNum := 100; txAmount := 3 |};
                         {| blockNum := 7; baseTxNum := 4000000; txAmount := 9 |} ];
       iterateErr := None |} 1 7
  = (5, 1, None).
Proof. reflexivity. Qed.

(** ** [buildBlackListForPruning] *)

Lemma isStateHistory_prunable name :
  isStateHistory name = true -> canSnapshotBePruned name = true.
Proof. unfold canSnapshotBePruned. intros ->. reflexivity. Qed.

Lemma isStateHistory_state name :
  isStateHistory name = true -> isStateSnapshot name = true.
Proof. unfold isStateSnapshot. intros ->. reflexivity. Qed.

Lemma blackListLoop_cons P stepPrune blockPrune p rest bl :
  blackListLoop P stepPrune blockPrune (p :: rest) bl =
  (add <-- blackListEntry P stepPrune blockPrune (Name p) ;;
   blackListLoop P stepPrune blockPrune rest
     (if add then {[Name p]} ∪ bl else bl))%outcome.
Proof.
  cbn [blackListLoop]. unfold blackListEntry.
  destruct (canSnapshotBePruned (Name p)); cbn [negb obind]; [| reflexivity].
  destruct (isStateSnapshot (Name p)).
  - destruct (parseStateTo (Name p)) as [to | e |]; cbn [obind]; try reflexivity.
    destruct (stepPrune <? to); reflexivity.
  - destruct (P "" (Name p)) as [[res e] ok].
    destruct ok; cbn [negb obind]; [| reflexivity].
    destruct (blockPrune <? To res); reflexivity.
Qed.

(** The loop returns a blacklist only if every name was decided, and then it
    has added exactly the names decided for the blacklist. *)
Lemma blackListLoop_elem P stepPrune blockPrune l :
  forall bl bl',
  blackListLoop P stepPrune blockPrune l bl = Ok bl' ->
  (forall p, p ∈ l -> exists b, blackListEntry P stepPrune blockPrune (Name p) = Ok b)
  /\ (forall n, n ∈ bl' <->
        n ∈ bl \/ exists p, p ∈ l /\ Name p = n
                            /\ blackListEntry P stepPrune blockPrune n = Ok true).
Proof.
  induction l as [| p rest IH]; intros bl bl' H.
  - cbn in H. injection H as <-. split.
    + intros p Hp. inversion Hp.
    + intros n. split; [auto |]. intros [Hn | (p & Hp & _)]; [exact Hn | inversion Hp].
  - rewrite blackListLoop_cons in H.
    destruct (blackListEntry P stepPrune blockPrune (Name p)) as [add | e |] eqn:Hadd;
      cbn [obind] in H; try discriminate.
    destruct (IH _ _ H) as [IH1 IH2]. split.
    + intros q Hq. apply elem_of_cons in Hq as [-> | Hq]; eauto.
    + intros n. rewrite IH2. split.
      * intros [Hn | (q & Hq & Hname & Hdec)].
        -- destruct add; [| auto].
           apply elem_of_union in Hn as [Hn | Hn]; [| auto].
           apply elem_of_singleton in Hn. subst n. right. exists p.
           split; [apply elem_of_cons; auto | auto].
        -- right. exists q. split; [apply elem_of_cons; auto | auto].
      * intros [Hn | (q & Hq & Hname & Hdec)].
        -- left. destruct add; [apply elem_of_union; auto | exact Hn].
        -- apply elem_of_cons in Hq as [-> | Hq].
           ++ left. subst n. rewrite Hdec in Hadd. injection Hadd as <-.
              apply elem_of_union. left. apply elem_of_singleton. reflexivity.
           ++ right. exists q. auto.
Qed.

(** C1.  With pruning enabled, when [buildBlackListForPruning] returns a
    blacklist, then for every catalog entry whose name is a state artifact:
    if the name can be pruned (it starts with [idx], [history] or [accessor],
    or contains [transactions]) the range end [to] of the name parses and
    the name is in the blacklist exactly when [stepPrune >= to]; otherwise
    (a [domain] name without [transactions]) the name is not in the
    blacklist, whatever [stepPrune] is. *)
Theorem buildBlackListForPruning_state_files
  (Erigon2MergeLimit : Z) (ParseFileName : string -> string -> FileInfo * bool * bool)
  (stepPrune minBlockToDownload blockPrune : Z)
  (preverified : list PreverifiedItem) (blackList : gset string) (p : PreverifiedItem) :
  buildBlackListForPruning Erigon2MergeLimit ParseFileName true
    stepPrune minBlockToDownload blockPrune preverified = Ok blackList ->
  p ∈ preverified ->
  isStateSnapshot (Name p) = true ->
  (canSnapshotBePruned (Name p) = true ->
   exists to, parseStateTo (Name p) = Ok to
              /\ (Name p ∈ blackList <-> stepPrune >= to))
  /\ (isStateHistory (Name p) = true -> canSnapshotBePruned (Name p) = true)
  /\ (canSnapshotBePruned (Name p) = false -> Name p ∉ blackList).
Proof.
  intros H Hp Hs. unfold buildBlackListForPruning in H. cbn [negb] in H.
  apply blackListLoop_elem in H as [Hdec Hin].
  destruct (Hdec p Hp) as [b Hb].
  assert (Hiff : Name p ∈ blackList <-> b = true).
  { rewrite Hin, Hb. split.
    - intros [Hn | (q & _ & _ & E)]; [inversion Hn | congruence].
    - intros ->. right. exists p. auto. }
  unfold blackListEntry in Hb. rewrite Hs in Hb.
  split; [| split].
  - intros Hc. rewrite Hc in Hb. cbn [negb] in Hb.
    destruct (parseStateTo (Name p)) as [to | e |]; cbn [obind] in Hb; try discriminate.
    exists to. split; [reflexivity |]. rewrite Hiff.
    injection Hb as <-. destruct (Z.ltb_spec stepPrune to); cbn [negb]; split; intros; try lia; try discriminate; reflexivity.
  - apply isStateHistory_prunable.
  - intros Hc. rewrite Hc in Hb. cbn [negb] in Hb. injection Hb as <-.
    rewrite Hiff. discriminate.
Qed.

Lemma buildBlackListForPruning_state_files_witness :
  let P : string -> string -> FileInfo * bool * bool :=
    fun _ _ => ({| From := 0; To := 0 |}, false, false) in
  let history := {| Name := "history/v1-accounts.0-100.v"; Hash := "h1" |} in
  let catalog := [ {| Name := "domain.0-100.kv"; Hash := "h0" |}; history;
                   {| Name := "idx/v1-storage.128-192.ef"; Hash := "h2" |} ] in
  let blackList : gset string := {[ "history/v1-accounts.0-100.v" ]} in
  buildBlackListForPruning 100000 P true 150 0 0 catalog = Ok blackList
  /\ history ∈ catalog
  /\ isStateSnapshot (Name history) = true
  /\ (canSnapshotBePruned (Name history) = true ->
      exists to, parseStateTo (Name history) = Ok to
                 /\ (Name history ∈ blackList <-> 150 >= to)).
Proof.
  intros P history catalog blackList.
  assert (H1 : buildBlackListForPruning 100000 P true 150 0 0 catalog = Ok blackList)
    by (vm_compute; reflexivity).
  assert (H2 : history ∈ catalog) by (apply list_elem_of_further, list_elem_of_here).
  assert (H3 : isStateSnapshot (Name history) = true) by reflexivity.
  split; [exact H1 | split; [exact H2 | split; [exact H3 |]]].
  exact (proj1 (buildBlackListForPruning_state_files
                  100000 P 150 0 0 catalog blackList history H1 H2 H3)).
Defined.

(** The catalog entry [domain.0-100.kv] is a state artifact whose range ends
    at 100, and it is kept out of the blacklist at [stepPrune = 150] as it is
    at [stepPrune = 50]: for [domain] names the blacklist does not follow
    [stepPrune >= to]. *)
Lemma buildBlackListForPruning_domain_kept :
  isStateSnapshot "domain.0-100.kv" = true
  /\ canSnapshotBePruned "domain.0-100.kv" = false
  /\ parseStateTo "domain.0-100.kv" = Ok 100
  /\ (forall L P minBlockToDownload blockPrune stepPrune,
        buildBlackListForPruning L P true stepPrune minBlockToDownload blockPrune
          [ {| Name := "domain.0-100.kv"; Hash := "" |} ] = Ok ∅)
  /\ ~ (forall L P stepPrune minBlockToDownload blockPrune preverified blackList p to,
          buildBlackListForPruning L P true stepPrune minBlockToDownload blockPrune
            preverified = Ok blackList ->
          p ∈ preverified ->
          isStateSnapshot (Name p) = true ->
          parseStateTo (Name p) = Ok to ->
          (Name p ∈ blackList <-> stepPrune >= to)).
Proof.
  assert (Hkept : forall L P minBlockToDownload blockPrune stepPrune,
            buildBlackListForPruning L P true stepPrune minBlockToDownload blockPrune
              [ {| Name := "domain.0-100.kv"; Hash := "" |} ] = Ok ∅)
    by reflexivity.
  split; [reflexivity | split; [reflexivity | split; [reflexivity | split; [exact Hkept |]]]].
  intros claim.
  specialize (claim 100000 (fun _ _ => ({| From := 0; To := 0 |}, false, false))
                150 0 0 [ {| Name := "domain.0-100.kv"; Hash := "" |} ] ∅
                {| Name := "domain.0-100.kv"; Hash := "" |} 100
                (Hkept _ _ _ _ _) ltac:(apply list_elem_of_here)
                ltac:(reflexivity) ltac:(reflexivity)).
  cbn [Name] in claim.
  apply (not_elem_of_empty (C:=gset string) "domain.0-100.kv").
  apply claim. lia.
Qed.

(** A state-history name does follow [stepPrune >= to], in both directions. *)
Example buildBlackListForPruning_history_runs :
  forall L P minBlockToDownload blockPrune,
    buildBlackListForPruning L P true 150 minBlockToDownload blockPrune
      [ {| Name := "history/v1-accounts.0-100.v"; Hash := "" |} ]
    = Ok {[ "history/v1-accounts.0-100.v" ]}
    /\ buildBlackListForPruning L P true 50 minBlockToDownload blockPrune
         [ {| Name := "history/v1-accounts.0-100.v"; Hash := "" |} ]
       = Ok ∅
    /\ buildBlackListForPruning L P true 150 minBlockToDownload blockPrune
         [ {| Name := "history/v1-accounts"; Hash := "" |} ]
       = Panic
    /\ buildBlackListForPruning L P true 150 minBlockToDownload blockPrune
         [ {| Name := "history/v1-accounts.0-1x0.v"; Hash := "" |} ]
       = Err (ErrSyntax "ParseUint" "1x0").
Proof. intros. repeat split; vm_compute; reflexivity. Qed.

(** ** The final consistency check of [WaitForDownloader] *)

Lemma finalConsistencyCheck_key chaindata segmentsMax key n :
  BigEndian_Uint64 key = Ok n ->
  finalConsistencyCheck chaindata segmentsMax (Some key, None) =
  if add64 segmentsMax 1 <? n then Err (ErrGap chaindata) else Ok tt.
Proof. intros H. unfold finalConsistencyCheck. rewrite H. reflexivity. Qed.

Lemma BigEndian_Uint64_defined key :
  (8 <= length key)%nat <-> exists n, BigEndian_Uint64 key = Ok n.
Proof.
  split.
  - intros H. do 8 (destruct key as [| ? key]; [simpl in H; lia |]).
    eexists. reflexivity.
  - intros [n H]. do 8 (destruct key as [| ? key]; [discriminate |]).
    simpl. lia.
Qed.

Lemma BigEndian_Uint64_no_error key e : BigEndian_Uint64 key <> Err e.
Proof. do 8 (destruct key as [| ? key]; [discriminate |]). discriminate. Qed.

(** C2.  When [SecondKey] returns without an error, the final check fails
    with the gap error exactly when there is a first non-genesis key, it
    holds a block number, and [SegmentsMax()+1 < firstNonGenesisBlockNumber]
    (in [uint64] arithmetic; short of the largest [uint64] that is the exact
    [SegmentsMax + 1]); the gap error is the only error the check raises
    itself and it is returned at once; without a non-genesis key, or with
    a block number of at most [SegmentsMax()+1], the check returns no error. *)
Theorem finalConsistencyCheck_gap_iff
  (chaindata : string) (segmentsMax : Z) (firstNonGenesis : option bytes) :
  let r := finalConsistencyCheck chaindata segmentsMax (firstNonGenesis, None) in
  (r = Err (ErrGap chaindata) <->
   exists key n, firstNonGenesis = Some key /\ BigEndian_Uint64 key = Ok n
                 /\ add64 segmentsMax 1 < n)
  /\ (forall e, r = Err e -> e = ErrGap chaindata)
  /\ (firstNonGenesis = None -> r = Ok tt)
  /\ (forall key n, firstNonGenesis = Some key -> BigEndian_Uint64 key = Ok n ->
        n <= add64 segmentsMax 1 -> r = Ok tt)
  /\ (forall key n, firstNonGenesis = Some key -> BigEndian_Uint64 key = Ok n ->
        is_u64 segmentsMax -> segmentsMax < MaxUint64 ->
        (r = Err (ErrGap chaindata) <-> segmentsMax + 1 < n)).
Proof.
  intros r. subst r.
  destruct firstNonGenesis as [key |].
  - destruct (BigEndian_Uint64 key) as [n | e |] eqn:Hk.
    + rewrite (finalConsistencyCheck_key _ _ _ _ Hk).
      destruct (Z.ltb_spec (add64 segmentsMax 1) n) as [Hlt | Hge].
      * split; [| split; [| split; [| split]]].
        -- split; [| reflexivity]. intros _. exists key, n. auto.
        -- intros e He. injection He as <-. reflexivity.
        -- discriminate.
        -- intros key' n' [= <-] Hn'. rewrite Hk in Hn'. injection Hn' as <-. lia.
        -- intros key' n' [= <-] Hn' Hu Hmax. rewrite Hk in Hn'. injection Hn' as <-.
           split; [| reflexivity]. intros _.
           unfold add64 in Hlt. rewrite wrap64_small in Hlt; [exact Hlt |].
           unfold is_u64, MaxUint64 in *. lia.
      * split; [| split; [| split; [| split]]].
        -- split; [discriminate |].
           intros (key' & n' & [= <-] & Hn' & Hlt). rewrite Hk in Hn'.
           injection Hn' as <-. lia.
        -- discriminate.
        -- discriminate.
        -- reflexivity.
        -- intros key' n' [= <-] Hn' Hu Hmax. rewrite Hk in Hn'. injection Hn' as <-.
           split; [discriminate |]. intros Hlt.
           unfold add64 in Hge. rewrite wrap64_small in Hge; [lia |].
           unfold is_u64, MaxUint64 in *. lia.
    + exfalso. exact (BigEndian_Uint64_no_error _ _ Hk).
    + unfold finalConsistencyCheck. rewrite Hk. cbn [obind].
      split; [| split; [| split; [| split]]]; try discriminate.
      * split; [discriminate |]. intros (key' & n' & [= <-] & Hn' & _). congruence.
      * intros key' n' [= <-] Hn'. congruence.
      * intros key' n' [= <-] Hn'. congruence.
  - cbn. split; [| split; [| split; [| split]]]; try discriminate; try reflexivity.
    split; [discriminate |]. intros (key' & n' & Hk & _). discriminate.
Qed.

Lemma finalConsistencyCheck_gap_iff_witness :
  let key := [x00; x00; x00; x00; x00; x1e; x84; x80; xaa; xbb] in
  BigEndian_Uint64 key = Ok 2000000
  /\ finalConsistencyCheck "chaindata" 1999998 (Some key, None) = Err (ErrGap "chaindata")
  /\ finalConsistencyCheck "chaindata" 1999999 (Some key, None) = Ok tt
  /\ finalConsistencyCheck "chaindata" 1999998 (None, None) = Ok tt.
Proof.
  intros key.
  assert (Hk : BigEndian_Uint64 key = Ok 2000000) by reflexivity.
  destruct (finalConsistencyCheck_gap_iff "chaindata" 1999998 (Some key))
    as (_ & _ & _ & _ & Hgap).
  destruct (finalConsistencyCheck_gap_iff "chaindata" 1999999 (Some key))
    as (_ & _ & _ & Hok & _).
  destruct (finalConsistencyCheck_gap_iff "chaindata" 1999998 None)
    as (_ & _ & Hnone & _).
  split; [exact Hk | split; [| split]].
  - apply (Hgap key 2000000 eq_refl Hk).
    + unfold is_u64. rewrite modulus_eq. lia.
    + unfold MaxUint64. rewrite modulus_eq. lia.
    + lia.
  - apply (Hok key 2000000 eq_refl Hk). vm_compute. discriminate.
  - apply Hnone. reflexivity.
Defined.

(** An error of [SecondKey] is returned as it is, and a key of fewer than
    eight bytes makes [binary.BigEndian.Uint64] panic. *)
Lemma finalConsistencyCheck_other_ends chaindata segmentsMax k e key :
  finalConsistencyCheck chaindata segmentsMax (k, Some e) = Err e
  /\ ((length key < 8)%nat ->
      finalConsistencyCheck chaindata segmentsMax (Some key, None) = Panic).
Proof.
  split.
  - destruct k; reflexivity.
  - intros H. unfold finalConsistencyCheck.
    destruct (BigEndian_Uint64 key) as [n | e' |] eqn:Hk; [| | reflexivity].
    + assert (8 <= length key)%nat by (apply BigEndian_Uint64_defined; eauto). lia.
    + exfalso. exact (BigEndian_Uint64_no_error _ _ Hk).
Qed.

(** ** The name tables *)

Lemma validDomain_cases d :
  validDomain d ->
  d = AccountsDomain \/ d = StorageDomain \/ d = CodeDomain
  \/ d = CommitmentDomain \/ d = ReceiptDomain \/ d = RCacheDomain.
Proof.
  unfold validDomain, DomainLen, AccountsDomain, StorageDomain, CodeDomain,
    CommitmentDomain, ReceiptDomain, RCacheDomain. lia.
Qed.

Ltac not_this_name H :=
  match goal with
  | |- context [String.eqb ?s ?lit] =>
      destruct (String.eqb_spec s lit) as [-> | _];
      [exfalso; apply H; unfold invertedIdxNames, domainNames;
       repeat (first [apply list_elem_of_here | apply list_elem_of_further]) |]
  end.

(** C8.  [String2Domain (d.String())] is [d] without an error for each of
    the six domains, [String2InvertedIdx (idx.String())] is [idx] without an
    error for each of the ten inverted-index tags, and on every string that
    is not one of the canonical names the two functions return an error
    value ([String2Domain] next to the tag [MaxUint16], [String2InvertedIdx]
    next to the empty tag). *)
Theorem name_tables_round_trip :
  (forall d, validDomain d -> String2Domain (Domain_String d) = (d, None))
  /\ (forall idx, idx ∈ invertedIdxTags ->
        String2InvertedIdx (InvertedIdx_String idx) = (idx, None))
  /\ (forall s, s ∉ domainNames ->
        String2Domain s = (MaxUint16, Some (ErrUnknownHistoryName s)))
  /\ (forall s, s ∉ invertedIdxNames ->
        String2InvertedIdx s = ("", Some (ErrUnknownInvertedIdx s))).
Proof.
  split; [| split; [| split]].
  - intros d Hd.
    destruct (validDomain_cases d Hd) as [-> | [-> | [-> | [-> | [-> | ->]]]]];
      reflexivity.
  - intros idx Hidx. unfold invertedIdxTags in Hidx.
    repeat (apply elem_of_cons in Hidx as [-> | Hidx]; [reflexivity |]).
    inversion Hidx.
  - intros s Hs. unfold String2Domain.
    repeat not_this_name Hs. reflexivity.
  - intros s Hs. unfold String2InvertedIdx.
    repeat not_this_name Hs. reflexivity.
Qed.

Lemma name_tables_round_trip_witness :
  validDomain StorageDomain
  /\ String2Domain (Domain_String StorageDomain) = (StorageDomain, None)
  /\ RCacheHistoryIdx ∈ invertedIdxTags
  /\ String2InvertedIdx (InvertedIdx_String RCacheHistoryIdx) = (RCacheHistoryIdx, None)
  /\ ("logaddrs" ∉ domainNames)
  /\ String2Domain "logaddrs" = (65535, Some (ErrUnknownHistoryName "logaddrs"))
  /\ ("unknown index" ∉ invertedIdxNames)
  /\ String2InvertedIdx "unknown index" = ("", Some (ErrUnknownInvertedIdx "unknown index")).
Proof.
  destruct name_tables_round_trip as (Hd & Hi & Hnd & Hni).
  assert (H1 : validDomain StorageDomain)
    by (unfold validDomain, StorageDomain, DomainLen; lia).
  assert (H2 : RCacheHistoryIdx ∈ invertedIdxTags)
    by (unfold invertedIdxTags;
        repeat (first [apply list_elem_of_here | apply list_elem_of_further])).
  assert (H3 : "logaddrs" ∉ domainNames).
  { unfold domainNames. intros H.
    repeat (apply elem_of_cons in H as [H | H]; [discriminate H |]). inversion H. }
  assert (H4 : "unknown index" ∉ invertedIdxNames).
  { unfold invertedIdxNames, domainNames. cbn [app]. intros H.
    repeat (apply elem_of_cons in H as [H | H]; [discriminate H |]). inversion H. }
  split; [exact H1 | split; [exact (Hd _ H1) | split; [exact H2 | split; [exact (Hi _ H2) |
  split; [exact H3 | split; [exact (Hnd _ H3) | split; [exact H4 | exact (Hni _ H4)]]]]]]].
Defined.

(** The tags outside the enumerations print as a name that does not parse. *)
Example unknown_tags_do_not_round_trip :
  Domain_String DomainLen = "unknown domain"
  /\ String2Domain (Domain_String DomainLen) = (65535, Some (ErrUnknownHistoryName "unknown domain"))
  /\ String2InvertedIdx (InvertedIdx_String "NoSuchIdx")
     = ("", Some (ErrUnknownInvertedIdx "unknown index")).
Proof. repeat split. Qed.

(** ** The history reader *)

Ltac run_rd :=
  unfold result, after, printed, bind, this, ret, traced, Printf, setComposite,
    SetTrace, SetTx, SetTxNum, GetTxNum in *;
  cbn [fst snd txNum trace ttx composite] in *.

(** C4.  For a reader on a handle whose [HistoryStartFrom] values are
    unsigned, [StateHistoryStartFrom] is the maximum of [HistoryStartFrom]
    over the accounts, storage and code domains, hence 0 when all three are
    0. *)
Theorem StateHistoryStartFrom_max (hr : HistoryReaderV3) :
  (forall d, d ∈ stateDomainNames -> 0 <= HistoryStartFrom (ttx hr) d) ->
  StateHistoryStartFrom hr =
    Z.max (HistoryStartFrom (ttx hr) AccountsDomain)
      (Z.max (HistoryStartFrom (ttx hr) StorageDomain)
             (HistoryStartFrom (ttx hr) CodeDomain))
  /\ (HistoryStartFrom (ttx hr) AccountsDomain = 0 ->
      HistoryStartFrom (ttx hr) StorageDomain = 0 ->
      HistoryStartFrom (ttx hr) CodeDomain = 0 ->
      StateHistoryStartFrom hr = 0).
Proof.
  intros H.
  assert (Ha := H AccountsDomain ltac:(apply list_elem_of_here)).
  assert (Hs := H StorageDomain ltac:(apply list_elem_of_further, list_elem_of_here)).
  assert (Hc := H CodeDomain
                  ltac:(apply list_elem_of_further, list_elem_of_further, list_elem_of_here)).
  unfold StateHistoryStartFrom, stateDomainNames. cbn [fold_left].
  set (a := HistoryStartFrom (ttx hr) AccountsDomain) in *.
  set (s := HistoryStartFrom (ttx hr) StorageDomain) in *.
  set (c := HistoryStartFrom (ttx hr) CodeDomain) in *.
  clearbody a s c.
  destruct (Z.ltb_spec 0 a);
    [ destruct (Z.ltb_spec a s); [destruct (Z.ltb_spec s c) | destruct (Z.ltb_spec a c)]
    | destruct (Z.ltb_spec 0 s); [destruct (Z.ltb_spec s c) | destruct (Z.ltb_spec 0 c)] ];
    split; lia.
Qed.

Lemma StateHistoryStartFrom_max_witness :
  let tx := {| GetAsOf := fun _ _ _ => ([], false, None);
               HistoryStartFrom := fun d =>
                 if d =? AccountsDomain then 100
                 else if d =? StorageDomain then 50
                 else if d =? CodeDomain then 80 else 0 |} in
  let hr := {| txNum := 0; trace := false; ttx := tx; composite := [] |} in
  (forall d, d ∈ stateDomainNames -> 0 <= HistoryStartFrom (ttx hr) d)
  /\ StateHistoryStartFrom hr = 100.
Proof.
  intros tx hr.
  assert (H : forall d, d ∈ stateDomainNames -> 0 <= HistoryStartFrom (ttx hr) d).
  { intros d Hd. unfold stateDomainNames in Hd.
    repeat (apply elem_of_cons in Hd as [-> | Hd]; [cbn; lia |]). inversion Hd. }
  split; [exact H |].
  exact (proj1 (StateHistoryStartFrom_max hr H)).
Defined.

(** C5.  [ReadAccountIncarnation] returns 0 (next to the error of [GetAsOf])
    when the lookup at the reader's [txNum] fails, finds nothing or finds
    empty bytes; when the stored bytes decode to an account it returns 0 for
    a stored incarnation 0 and the stored incarnation minus 1 otherwise,
    without an error. *)
Theorem ReadAccountIncarnation_spec
  (DecodeForStorage : bytes -> Account * option error)
  (hr : HistoryReaderV3) (address enc : bytes) (ok : bool) (err : option error) :
  GetAsOf (ttx hr) AccountsDomain address (txNum hr) = (enc, ok, err) ->
  let r := result (ReadAccountIncarnation DecodeForStorage address hr) in
  (err <> None \/ ok = false \/ enc = [] -> r = (0, err))
  /\ (forall a, err = None -> ok = true -> enc <> [] ->
        DecodeForStorage enc = (a, None) -> is_u64 (Incarnation a) ->
        r = ((if Incarnation a =? 0 then 0 else Incarnation a - 1), None)
        /\ (Incarnation a = 0 -> r = (0, None))
        /\ (Incarnation a <> 0 -> r = (Incarnation a - 1, None))).
Proof.
  intros Hget r. subst r. unfold ReadAccountIncarnation. run_rd. rewrite Hget.
  split.
  - intros H.
    assert (negb (isNil err) || negb ok || (length enc =? 0)%nat = true) as ->.
    { destruct H as [H | [-> | ->]].
      - destruct err; [reflexivity | contradiction].
      - destruct (isNil err); reflexivity.
      - destruct (isNil err), ok; reflexivity. }
    destruct (trace hr); reflexivity.
  - intros a -> -> Henc Hdec Hu.
    destruct enc as [| b enc]; [contradiction |]. cbn [isNil negb orb length Nat.eqb].
    rewrite Hdec.
    assert (Hsub : Incarnation a <> 0 -> sub64 (Incarnation a) 1 = Incarnation a - 1).
    { intros Hnz. apply wrap64_small. unfold is_u64 in *. lia. }
    destruct (Z.eqb_spec (Incarnation a) 0) as [Hz | Hnz].
    + destruct (trace hr); cbn; repeat split; try reflexivity; intros; contradiction.
    + rewrite (Hsub Hnz).
      destruct (trace hr); cbn; repeat split; try reflexivity; intros; contradiction.
Qed.

Lemma ReadAccountIncarnation_spec_witness :
  let decode : bytes -> Account * option error :=
    fun enc => ({| Nonce := 0; Balance := 0; CodeHash := [];
                   Incarnation := Z.of_nat (length enc) |}, None) in
  let tx := {| GetAsOf := fun d k t =>
                 if (d =? AccountsDomain) && (10 <=? t) then ([x01; x01; x01], true, None)
                 else ([], false, None);
               HistoryStartFrom := fun _ => 0 |} in
  let hr := {| txNum := 50; trace := true; ttx := tx; composite := [] |} in
  GetAsOf (ttx hr) AccountsDomain [xaa] (txNum hr) = ([x01; x01; x01], true, None)
  /\ decode [x01; x01; x01]
     = ({| Nonce := 0; Balance := 0; CodeHash := []; Incarnation := 3 |}, None)
  /\ is_u64 3
  /\ result (ReadAccountIncarnation decode [xaa] hr) = (2, None).
Proof.
  intros decode tx hr.
  assert (H1 : GetAsOf (ttx hr) AccountsDomain [xaa] (txNum hr)
               = ([x01; x01; x01], true, None)) by reflexivity.
  assert (H2 : decode [x01; x01; x01]
               = ({| Nonce := 0; Balance := 0; CodeHash := []; Incarnation := 3 |}, None))
    by reflexivity.
  assert (H3 : is_u64 3) by (unfold is_u64; rewrite modulus_eq; lia).
  split; [exact H1 | split; [exact H2 | split; [exact H3 |]]].
  destruct (ReadAccountIncarnation_spec decode hr [xaa] _ _ _ H1) as [_ H].
  exact (proj1 (H _ eq_refl eq_refl ltac:(discriminate) H2 H3)).
Defined.

(** An account stored with incarnation 1 reads back as 0, an absent one as 0,
    and a decoder error comes back wrapped, with 0. *)
Example ReadAccountIncarnation_runs :
  let decode : bytes -> Account * option error :=
    fun enc => match enc with
               | [x01] => ({| Nonce := 7; Balance := 9; CodeHash := []; Incarnation := 1 |}, None)
               | _ => ({| Nonce := 0; Balance := 0; CodeHash := []; Incarnation := 0 |},
                       Some (ErrExternal "malformed"))
               end in
  let tx := {| GetAsOf := fun d k t =>
                 if bool_decide (k = [xaa]) then ([x01], true, None)
                 else if bool_decide (k = [xbb]) then ([x02], true, None)
                 else ([], false, None);
               HistoryStartFrom := fun _ => 0 |} in
  let hr := {| txNum := 50; trace := true; ttx := tx; composite := [] |} in
  ReadAccountIncarnation decode [xaa] hr = ((0, None), hr, [TrAccountIncarnation [xaa] 0])
  /\ ReadAccountIncarnation decode [xcc] hr = ((0, None), hr, [TrAccountIncarnation [xcc] 0])
  /\ ReadAccountIncarnation decode [xbb] hr
     = ((0, Some (ErrWrapped "ReadAccountIncarnation" [xbb] (ErrExternal "malformed"))), hr, []).
Proof. repeat split. Qed.

(** [append(append(hr.composite[:0], address[:]...), key.Bytes()...)] starts
    from the empty prefix of the buffer: the read in closed form. *)
Lemma ReadAccountStorage_unfold hr address incarnation key :
  ReadAccountStorage address incarnation key hr =
  let g := GetAsOf (ttx hr) StorageDomain (address ++ key) (txNum hr) in
  ((g.1.1, g.2),
   {| txNum := txNum hr; trace := trace hr; ttx := ttx hr; composite := address ++ key |},
   if trace hr then [TrAccountStorage address key g.1.1] else []).
Proof.
  unfold ReadAccountStorage. run_rd.
  change (take 0 (composite hr) ++ address) with address.
  destruct (GetAsOf (ttx hr) StorageDomain (address ++ key) (txNum hr)) as [[enc ok] err].
  destruct (trace hr); reflexivity.
Qed.

(** C6.  [ReadAccountStorage] returns the value and the error of
    [GetAsOf(Storage, address ‖ key, txNum)]; the key it passes is the address
    followed by the slot key, 52 bytes for a 20-byte address and a 32-byte
    slot key; that key is what the scratch buffer holds afterwards, whatever
    it held before; and neither the incarnation argument nor the earlier
    content of the buffer changes the result. *)
Theorem ReadAccountStorage_spec
  (hr : HistoryReaderV3) (address : bytes) (incarnation : Z) (key : bytes) :
  let r := ReadAccountStorage address incarnation key hr in
  let g := GetAsOf (ttx hr) StorageDomain (address ++ key) (txNum hr) in
  result r = (g.1.1, g.2)
  /\ composite (after r) = address ++ key
  /\ (length address = 20%nat -> length key = 32%nat ->
      length (composite (after r)) = 52%nat)
  /\ (forall incarnation',
        result (ReadAccountStorage address incarnation' key hr) = result r)
  /\ (forall scratch,
        result (ReadAccountStorage address incarnation key
                  {| txNum := txNum hr; trace := trace hr; ttx := ttx hr;
                     composite := scratch |}) = result r)
  /\ txNum (after r) = txNum hr /\ ttx (after r) = ttx hr /\ trace (after r) = trace hr.
Proof.
  intros r g. subst r g.
  repeat split; intros; rewrite ?ReadAccountStorage_unfold; try reflexivity.
  unfold after. cbn [fst snd composite]. rewrite length_app. lia.
Qed.

Lemma ReadAccountStorage_spec_witness :
  let address := replicate 20 xaa in
  let key := replicate 32 x01 in
  let tx := {| GetAsOf := fun d k t =>
                 if (d =? StorageDomain) && bool_decide (k = address ++ key)
                 then ([x2a], true, None) else ([], false, None);
               HistoryStartFrom := fun _ => 0 |} in
  let hr := {| txNum := 7; trace := false; ttx := tx; composite := replicate 52 x00 |} in
  length address = 20%nat /\ length key = 32%nat
  /\ length (composite (after (ReadAccountStorage address 3 key hr))) = 52%nat
  /\ result (ReadAccountStorage address 3 key hr) = ([x2a], None).
Proof.
  intros address key tx hr.
  assert (Ha : length address = 20%nat) by reflexivity.
  assert (Hk : length key = 32%nat) by reflexivity.
  destruct (ReadAccountStorage_spec hr address 3 key) as (Hr & _ & Hlen & _).
  split; [exact Ha | split; [exact Hk | split; [exact (Hlen Ha Hk) | exact Hr]]].
Defined.

(** C7.  For each of the five read operations and every input, the value and
    the error returned are the same with the trace flag set and with it
    cleared, and so are the transaction number, the handle and the scratch
    buffer of the reader afterwards; only the printed lines differ. *)
Theorem trace_flag_does_not_change_results
  (DeserialiseV3 DecodeForStorage : bytes -> Account * option error)
  (op : ReadOp) (hr : HistoryReaderV3) (t1 t2 : bool) :
  let r1 := runOp DeserialiseV3 DecodeForStorage op (after (SetTrace t1 hr)) in
  let r2 := runOp DeserialiseV3 DecodeForStorage op (after (SetTrace t2 hr)) in
  result r1 = result r2
  /\ txNum (after r1) = txNum (after r2)
  /\ ttx (after r1) = ttx (after r2)
  /\ composite (after r1) = composite (after r2)
  /\ trace (after r1) = t1 /\ trace (after r2) = t2.
Proof.
  intros r1 r2. subst r1 r2.
  destruct op as [address | address incarnation key | address incarnation
                 | address incarnation | address]; unfold runOp.
  - unfold ReadAccountData. run_rd.
    destruct (GetAsOf (ttx hr) AccountsDomain address (txNum hr)) as [[enc ok] err].
    destruct (negb (isNil err) || negb ok || (length enc =? 0)%nat).
    + destruct t1, t2; cbn; repeat split; reflexivity.
    + destruct (DeserialiseV3 enc) as [a [e |]].
      * cbn. repeat split; reflexivity.
      * destruct t1, t2; cbn; repeat split; reflexivity.
  - run_rd. rewrite !ReadAccountStorage_unfold. cbn.
    repeat split; reflexivity.
  - unfold ReadAccountCode. run_rd.
    destruct (GetAsOf (ttx hr) CodeDomain address (txNum hr)) as [[enc ok] err].
    destruct t1, t2; cbn; repeat split; reflexivity.
  - unfold ReadAccountCodeSize. run_rd.
    destruct (GetAsOf (ttx hr) CodeDomain address (txNum hr)) as [[enc ok] err].
    cbn. repeat split; reflexivity.
  - unfold ReadAccountIncarnation. run_rd.
    destruct (GetAsOf (ttx hr) AccountsDomain address (txNum hr)) as [[enc ok] err].
    destruct (negb (isNil err) || negb ok || (length enc =? 0)%nat).
    + destruct t1, t2; cbn; repeat split; reflexivity.
    + destruct (DecodeForStorage enc) as [a [e |]].
      * cbn. repeat split; reflexivity.
      * destruct (Incarnation a =? 0); destruct t1, t2; cbn; repeat split; reflexivity.
Qed.

(** The flag is not inert: with it set a read prints, with it cleared it
    does not. *)
Example trace_flag_prints :
  let tx := {| GetAsOf := fun _ _ _ => ([x60; x00], true, None);
               HistoryStartFrom := fun _ => 0 |} in
  let hr := {| txNum := 1; trace := false; ttx := tx; composite := [] |} in
  printed (ReadAccountCode [xaa] 0 (after (SetTrace true hr)))
    = [TrAccountCode [xaa] [x60; x00]]
  /\ printed (ReadAccountCode [xaa] 0 (after (SetTrace false hr))) = []
  /\ result (ReadAccountCodeSize [xaa] 0 hr) = (2, None).
Proof. repeat split. Qed.

(** ** Reads below the pruning boundary *)

(** C3.  On the temporal store, for every domain, key and transaction number
    below [HistoryStartFrom] of the domain, [GetAsOf] through the handle
    returns [PrunedError]: no value, not found, and an error that is not
    [nil], so the answer is neither a value nor a plain "not found"; the
    reader hands that error on. *)
Theorem GetAsOf_below_history_start_is_pruned
  (st : Store) (d : Domain) (key : bytes) (t : Z) :
  t < HistoryStartFrom (handle st) d ->
  GetAsOf (handle st) d key t = ([], false, Some PrunedError)
  /\ (forall v ok, GetAsOf (handle st) d key t <> (v, ok, None))
  /\ (forall hr address incarnation slot,
        ttx hr = handle st -> txNum hr = t -> d = StorageDomain ->
        result (ReadAccountStorage address incarnation slot hr) = ([], Some PrunedError)).
Proof.
  intros H. cbn [handle GetAsOf HistoryStartFrom] in *.
  assert (E : StoreGetAsOf st d key t = ([], false, Some PrunedError)).
  { unfold StoreGetAsOf. destruct (Z.ltb_spec t (StoreHistoryStartFrom st d)); [reflexivity | lia]. }
  split; [exact E | split].
  - intros v ok. rewrite E. discriminate.
  - intros hr address incarnation slot Htx Hnum ->.
    rewrite ReadAccountStorage_unfold. unfold result. cbn [fst snd].
    rewrite Htx, Hnum. cbn [handle GetAsOf].
    unfold StoreGetAsOf.
    destruct (Z.ltb_spec t (StoreHistoryStartFrom st StorageDomain)); [reflexivity | lia].
Qed.

Lemma GetAsOf_below_history_start_is_pruned_witness :
  let st := {| writes := [ {| wDomain := StorageDomain; wKey := [xaa]; wTxNum := 400;
                              wValue := Some [x01] |};
                           {| wDomain := StorageDomain; wKey := [xaa]; wTxNum := 1200;
                              wValue := Some [x02] |};
                           {| wDomain := StorageDomain; wKey := [xaa]; wTxNum := 1500;
                              wValue := None |} ];
               historyStart := fun d => if d =? StorageDomain then 1000 else 0 |} in
  500 < HistoryStartFrom (handle st) StorageDomain
  /\ GetAsOf (handle st) StorageDomain [xaa] 500 = ([], false, Some PrunedError)
  /\ GetAsOf (handle st) StorageDomain [xaa] 1000 = ([x01], true, None)
  /\ GetAsOf (handle st) StorageDomain [xaa] 1300 = ([x02], true, None)
  /\ GetAsOf (handle st) StorageDomain [xaa] 1500 = ([], false, None).
Proof.
  intros st.
  assert (H : 500 < HistoryStartFrom (handle st) StorageDomain) by (cbn; lia).
  split; [exact H |].
  split; [exact (proj1 (GetAsOf_below_history_start_is_pruned st StorageDomain [xaa] 500 H)) |].
  repeat split.
Defined.

(** * Further properties of the code *)

(** ** Integer helpers *)

Lemma modulus_pos : 0 < modulus.
Proof. reflexivity. Qed.

(** X1.  For [uint64] arguments [SafeAdd x y] returns [x + y] modulo [2^64]
    and reports an overflow exactly when [x + y] does not fit in 64 bits;
    without the flag the sum is exact. *)
Theorem SafeAdd_spec (x y : Z) :
  is_u64 x -> is_u64 y ->
  (SafeAdd x y).1 = (x + y) mod 2 ^ 64
  /\ ((SafeAdd x y).2 = true <-> MaxUint64 < x + y)
  /\ ((SafeAdd x y).2 = false -> (SafeAdd x y).1 = x + y).
Proof.
  unfold is_u64, SafeAdd, Add64, MaxUint64. intros Hx Hy. cbn [fst snd].
  rewrite Z.add_0_r. pose proof modulus_pos as Hm.
  assert (Hq : (x + y) / modulus = 0 <-> x + y < modulus).
  { split; intros H.
    - pose proof (Z.div_mod (x + y) modulus ltac:(lia)) as E.
      pose proof (Z.mod_pos_bound (x + y) modulus Hm). rewrite H in E. lia.
    - apply Z.div_small. lia. }
  split; [reflexivity | split].
  - destruct (Z.eqb_spec ((x + y) / modulus) 0) as [E | E]; cbn [negb].
    + split; [discriminate |]. intros. apply Hq in E. lia.
    + split; [| reflexivity]. intros _.
      destruct (Z_lt_le_dec (x + y) modulus) as [Hlt | Hge]; [| lia].
      apply Hq in Hlt. contradiction.
  - destruct (Z.eqb_spec ((x + y) / modulus) 0) as [E | E]; cbn [negb]; [| discriminate].
    intros _. apply Hq in E. apply Z.mod_small. lia.
Qed.

Lemma SafeAdd_spec_witness :
  is_u64 MaxUint64 /\ is_u64 1
  /\ SafeAdd MaxUint64 1 = (0, true) /\ SafeAdd 40 2 = (42, false).
Proof.
  assert (H1 : is_u64 MaxUint64) by (unfold is_u64, MaxUint64; rewrite modulus_eq; lia).
  assert (H2 : is_u64 1) by (unfold is_u64; rewrite modulus_eq; lia).
  destruct (SafeAdd_spec MaxUint64 1 H1 H2) as (Hs & _ & _).
  split; [exact H1 | split; [exact H2 | split; reflexivity]].
Defined.

(** X2.  For [uint64] arguments [SafeMul x y] returns [x * y] modulo [2^64]
    and reports an overflow exactly when [x * y] does not fit in 64 bits;
    without the flag the product is exact. *)
Theorem SafeMul_spec (x y : Z) :
  is_u64 x -> is_u64 y ->
  (SafeMul x y).1 = (x * y) mod 2 ^ 64
  /\ ((SafeMul x y).2 = true <-> MaxUint64 < x * y)
  /\ ((SafeMul x y).2 = false -> (SafeMul x y).1 = x * y).
Proof.
  unfold is_u64, SafeMul, Mul64, MaxUint64. intros Hx Hy. cbn [fst snd].
  pose proof modulus_pos as Hm.
  assert (Hnn : 0 <= x * y) by nia.
  assert (Hq : (x * y) / modulus = 0 <-> x * y < modulus).
  { split; intros H.
    - pose proof (Z.div_mod (x * y) modulus ltac:(lia)) as E.
      pose proof (Z.mod_pos_bound (x * y) modulus Hm). rewrite H in E. lia.
    - apply Z.div_small. lia. }
  split; [reflexivity | split].
  - destruct (Z.eqb_spec ((x * y) / modulus) 0) as [E | E]; cbn [negb].
    + split; [discriminate |]. intros. apply Hq in E. lia.
    + split; [| reflexivity]. intros _.
      destruct (Z_lt_le_dec (x * y) modulus) as [Hlt | Hge]; [| lia].
      apply Hq in Hlt. contradiction.
  - destruct (Z.eqb_spec ((x * y) / modulus) 0) as [E | E]; cbn [negb]; [| discriminate].
    intros _. apply Hq in E. apply Z.mod_small. lia.
Qed.

Lemma SafeMul_spec_witness :
  is_u64 4294967296 /\ SafeMul 4294967296 4294967296 = (0, true)
  /\ SafeMul 4294967296 3 = (12884901888, false).
Proof.
  assert (H1 : is_u64 4294967296) by (unfold is_u64; rewrite modulus_eq; lia).
  destruct (SafeMul_spec 4294967296 4294967296 H1 H1) as (Hs & _ & _).
  split; [exact H1 | split; reflexivity].
Defined.

(** X3.  For [uint64] arguments [AbsoluteDifference x y] is [|x - y|]: the
    subtraction never wraps, the result is a [uint64], it does not depend on
    the order of the arguments and it is 0 only for equal arguments. *)
Theorem AbsoluteDifference_spec (x y : Z) :
  is_u64 x -> is_u64 y ->
  AbsoluteDifference x y = Z.abs (x - y)
  /\ is_u64 (AbsoluteDifference x y)
  /\ AbsoluteDifference x y = AbsoluteDifference y x
  /\ (AbsoluteDifference x y = 0 <-> x = y).
Proof.
  intros Hx Hy.
  assert (E : forall a b, is_u64 a -> is_u64 b -> AbsoluteDifference a b = Z.abs (a - b)).
  { intros a b Ha Hb. unfold AbsoluteDifference, sub64.
    destruct (Z.ltb_spec b a); rewrite wrap64_small; unfold is_u64 in *; lia. }
  rewrite (E x y Hx Hy), (E y x Hy Hx). unfold is_u64 in *. repeat split; lia.
Qed.

Lemma AbsoluteDifference_spec_witness :
  is_u64 3 /\ is_u64 10 /\ AbsoluteDifference 3 10 = 7 /\ AbsoluteDifference 10 3 = 7.
Proof.
  assert (H1 : is_u64 3) by (unfold is_u64; rewrite modulus_eq; lia).
  assert (H2 : is_u64 10) by (unfold is_u64; rewrite modulus_eq; lia).
  destruct (AbsoluteDifference_spec 3 10 H1 H2) as (H & _ & Hsym & _).
  split; [exact H1 | split; [exact H2 | split; [exact H |]]].
  rewrite <- Hsym. exact H.
Defined.

Lemma wrapInt_small z : is_int z -> wrapInt z = z.
Proof.
  unfold is_int, wrapInt, MinInt64, MaxInt64. rewrite modulus_eq. intros H.
  rewrite Z.mod_small; lia.
Qed.

Lemma wrapInt_sub_l a b : wrapInt (wrapInt a - b) = wrapInt (a - b).
Proof.
  unfold wrapInt. f_equal.
  replace ((a + 2 ^ 63) mod modulus - 2 ^ 63 - b + 2 ^ 63)
    with ((a + 2 ^ 63) mod modulus + - b) by ring.
  rewrite Zplus_mod_idemp_l. f_equal. ring.
Qed.

(** X4.  [CeilDiv x 0] is 0, and for [x >= 0] and [y > 0] whose sum
    [x + y - 1] fits in an [int], [CeilDiv x y] is the quotient rounded up:
    the least [q] with [x <= y * q]. *)
Theorem CeilDiv_spec (x y : Z) :
  CeilDiv x 0 = 0
  /\ (0 <= x -> 0 < y -> x + y - 1 <= MaxInt64 ->
      CeilDiv x y = (x + y - 1) / y
      /\ y * (CeilDiv x y - 1) < x <= y * CeilDiv x y).
Proof.
  split; [reflexivity |]. intros Hx Hy Hmax.
  assert (Hr : CeilDiv x y = (x + y - 1) / y).
  { unfold CeilDiv. destruct (Z.eqb_spec y 0); [lia |].
    assert (Hq : 0 <= (x + y - 1) / y <= x + y - 1).
    { split; [apply Z.div_pos; lia |]. apply Z.div_le_upper_bound; nia. }
    unfold MaxInt64 in Hmax.
    rewrite wrapInt_sub_l.
    rewrite (wrapInt_small (x + y - 1)) by (unfold is_int, MinInt64, MaxInt64; lia).
    rewrite Z.quot_div_nonneg by lia.
    apply wrapInt_small. unfold is_int, MinInt64, MaxInt64. lia. }
  split; [exact Hr |]. rewrite Hr.
  pose proof (Z.div_mod (x + y - 1) y ltac:(lia)) as E.
  pose proof (Z.mod_pos_bound (x + y - 1) y Hy) as B.
  nia.
Qed.

Lemma CeilDiv_spec_witness :
  0 <= 7 /\ 0 < 2 /\ 7 + 2 - 1 <= MaxInt64 /\ CeilDiv 7 2 = 4 /\ CeilDiv 8 2 = 4.
Proof.
  assert (H1 : 0 <= 7) by lia. assert (H2 : 0 < 2) by lia.
  assert (H3 : 7 + 2 - 1 <= MaxInt64) by (unfold MaxInt64; lia).
  destruct (CeilDiv_spec 7 2) as [_ H]. destruct (H H1 H2 H3) as [Hr _].
  split; [exact H1 | split; [exact H2 | split; [exact H3 | split; [exact Hr | reflexivity]]]].
Defined.

(** Outside that range the sum wraps and the result is not the quotient. *)
Example CeilDiv_wraps : CeilDiv MaxInt64 2 = - 2 ^ 62.
Proof. reflexivity. Qed.

(** ** Hexadecimal and decimal text of a [uint64] *)

Lemma hexDigit_digitOf d : 0 <= d < 16 -> digitOf (hexDigit d) = Some d.
Proof.
  intros H.
  assert (d = 0 \/ d = 1 \/ d = 2 \/ d = 3 \/ d = 4 \/ d = 5 \/ d = 6 \/ d = 7
          \/ d = 8 \/ d = 9 \/ d = 10 \/ d = 11 \/ d = 12 \/ d = 13 \/ d = 14 \/ d = 15)
    as Hd by lia.
  repeat (destruct Hd as [-> | Hd]; [reflexivity |]). subst d. reflexivity.
Qed.

Lemma parseDigitsBase16_step s0 c s n d :
  digitOf c = Some d -> 0 <= d < 16 -> 0 <= n -> n * 16 + d < modulus ->
  parseDigitsBase 16 s0 (String c s) n = parseDigitsBase 16 s0 s (n * 16 + d).
Proof.
  intros Hc Hd Hn Hlt. cbn [parseDigitsBase]. rewrite Hc.
  destruct (Z.leb_spec 16 d); [lia |].
  change (MaxUint64 / 16 + 1) with 1152921504606846976.
  rewrite modulus_eq in Hlt.
  destruct (Z.leb_spec 1152921504606846976 n); [lia |].
  unfold mul64, add64.
  rewrite (wrap64_small (n * 16)) by (unfold is_u64; rewrite modulus_eq; lia).
  rewrite (wrap64_small (n * 16 + d)) by (unfold is_u64; rewrite modulus_eq; lia).
  destruct (Z.ltb_spec (n * 16 + d) (n * 16)); [lia |].
  unfold MaxUint64. rewrite modulus_eq.
  destruct (Z.ltb_spec (18446744073709551616 - 1) (n * 16 + d)); [lia |].
  reflexivity.
Qed.

Lemma parseDigitsBase16_fmtHex s0 width :
  forall u buf,
  0 <= u < 16 ^ Z.of_nat width -> u < modulus ->
  parseDigitsBase 16 s0 (fmtHex width u buf) 0 = parseDigitsBase 16 s0 buf u.
Proof.
  induction width as [| w IH]; intros u buf Hu Hm.
  - change (16 ^ Z.of_nat 0) with 1 in Hu. assert (u = 0) as -> by lia. reflexivity.
  - cbn [fmtHex]. destruct (Z.ltb_spec u 16) as [Hlt | Hge].
    + rewrite (parseDigitsBase16_step s0 _ buf 0 u); try lia.
      * reflexivity.
      * apply hexDigit_digitOf. lia.
    + rewrite Nat2Z.inj_succ, Z.pow_succ_r in Hu by lia.
      pose proof (Z.div_mod u 16 ltac:(lia)) as E.
      pose proof (Z.mod_pos_bound u 16 ltac:(lia)) as B.
      rewrite IH.
      * rewrite (parseDigitsBase16_step s0 _ buf (u / 16) (u mod 16)); try lia.
        -- f_equal. lia.
        -- apply hexDigit_digitOf. lia.
      * split; [apply Z.div_pos; lia |].
        apply Z.div_lt_upper_bound; lia.
      * pose proof modulus_pos. assert (u / 16 <= u) by (apply Z.div_le_upper_bound; lia). lia.
Qed.

Lemma fmtHex_cons width u buf :
  exists c s, fmtHex (S width) u buf = String c s.
Proof.
  revert u buf. induction width as [| w IH]; intros u buf; cbn [fmtHex].
  - destruct (u <? 16); eauto.
  - destruct (u <? 16); [eauto |]. apply IH.
Qed.

Lemma substring_full s : substring 0 (String.length s) s = s.
Proof. induction s as [| c s IH]; simpl; [reflexivity | now rewrite IH]. Qed.

Lemma substring_front s c : substring 0 (String.length s) (s ++ String c "")%string = s.
Proof. induction s as [| a s IH]; simpl; [reflexivity | now rewrite IH]. Qed.

Lemma string_length_app_one s c :
  String.length (s ++ String c "")%string = S (String.length s).
Proof. induction s as [| a s IH]; simpl; [reflexivity | now rewrite IH]. Qed.

Lemma ParseUint64_0x h :
  ParseUint64 ("0x" ++ h)%string = let '(v, err) := ParseUintBase h 16 in (v, isNil err).
Proof.
  change ("0x" ++ h)%string with (String "0" (String "x" h)).
  unfold ParseUint64. simpl.
  assert (substring 0 0 h = "") as -> by (destruct h; reflexivity).
  rewrite Nat.sub_0_r, substring_full. reflexivity.
Qed.

Lemma ParseUint64_Sprintf n : is_u64 n -> ParseUint64 (Sprintf_sharp_x n) = (n, true).
Proof.
  intros Hn. unfold Sprintf_sharp_x. rewrite ParseUint64_0x.
  destruct (fmtHex_cons 15 n "") as (c & s & E).
  unfold ParseUintBase. rewrite E. rewrite <- E.
  rewrite parseDigitsBase16_fmtHex.
  - reflexivity.
  - unfold is_u64 in Hn. rewrite modulus_eq in Hn.
    change (16 ^ Z.of_nat 16) with 18446744073709551616. lia.
  - apply Hn.
Qed.

(** X5.  Text round trip of [HexOrDecimal64]: for every [uint64] value [n],
    [MarshalText] returns no error and [UnmarshalText] of the text it returns
    gives [n] back, whatever the receiver held; so does [UnmarshalJSON] of
    that text between double quotes. *)
Theorem HexOrDecimal64_round_trip (n i : Z) :
  is_u64 n ->
  (MarshalText n).2 = None
  /\ UnmarshalText i (MarshalText n).1 = (n, None)
  /\ UnmarshalJSON i (String quote ((MarshalText n).1 ++ String quote ""))%string = (n, None).
Proof.
  intros Hn. cbn [MarshalText fst snd].
  assert (E : UnmarshalText i (Sprintf_sharp_x n) = (n, None)).
  { unfold UnmarshalText. rewrite (ParseUint64_Sprintf n Hn). reflexivity. }
  split; [reflexivity | split; [exact E |]].
  unfold UnmarshalJSON.
  cbn [String.length String.get Nat.ltb Nat.leb].
  rewrite string_length_app_one.
  replace (Ascii.eqb quote quote) with true by reflexivity.
  cbn [Nat.leb andb substring Nat.sub].
  rewrite Nat.sub_0_r, substring_front. exact E.
Qed.

Lemma HexOrDecimal64_round_trip_witness :
  is_u64 255 /\ MarshalText 255 = ("0xff", None)
  /\ UnmarshalText 0 "0xff" = (255, None).
Proof.
  assert (H : is_u64 255) by (unfold is_u64; rewrite modulus_eq; lia).
  destruct (HexOrDecimal64_round_trip 255 0 H) as (_ & Hu & _).
  split; [exact H | split; [reflexivity | exact Hu]].
Defined.

(** X6.  [UnmarshalJSON] on an input of at least two bytes that starts with
    a double quote is [UnmarshalText] on the input without its first and its
    last byte, whatever the last byte is; on any other input it is
    [UnmarshalText] on the input itself.  So a quoted text and the bare text
    unmarshal alike. *)
Theorem UnmarshalJSON_strips_quotes (i : Z) (s : string) (last : ascii) :
  UnmarshalJSON i (String quote (s ++ String last ""))%string = UnmarshalText i s
  /\ UnmarshalJSON i (String quote (s ++ String quote ""))%string = UnmarshalText i s
  /\ (forall input,
        (String.length input <= 1)%nat \/
        (forall rest, input <> String quote rest) ->
        UnmarshalJSON i input = UnmarshalText i input).
Proof.
  assert (E : forall c, UnmarshalJSON i (String quote (s ++ String c ""))%string
                        = UnmarshalText i s).
  { intros c. unfold UnmarshalJSON.
    cbn [String.length String.get Nat.ltb Nat.leb].
    rewrite string_length_app_one.
    replace (Ascii.eqb quote quote) with true by reflexivity.
    cbn [Nat.leb andb substring Nat.sub].
    rewrite Nat.sub_0_r, substring_front. reflexivity. }
  split; [apply E | split; [apply E |]].
  intros input H. unfold UnmarshalJSON.
  destruct input as [| c rest]; [reflexivity |].
  destruct H as [H | H].
  - destruct rest; [reflexivity | cbn in H; lia].
  - cbn [String.get]. destruct (Ascii.eqb_spec c quote) as [-> | Hc].
    + exfalso. apply (H rest). reflexivity.
    + rewrite andb_false_r. reflexivity.
Qed.

Lemma UnmarshalJSON_strips_quotes_witness :
  ((String.length "12" <= 1)%nat \/ (forall rest, "12" <> String quote rest))
  /\ UnmarshalJSON 0 "12" = (12, None)
  /\ UnmarshalJSON 0 (String quote ("12" ++ String quote ""))%string = (12, None)
  /\ UnmarshalJSON 0 (String quote ("12" ++ String "x"%char ""))%string = (12, None).
Proof.
  assert (H : (String.length "12" <= 1)%nat \/ (forall rest, "12" <> String quote rest))
    by (right; intros rest; discriminate).
  destruct (UnmarshalJSON_strips_quotes 0 "12" "x"%char) as (H1 & H2 & H3).
  split; [exact H | split; [| split]].
  - rewrite (H3 "12" H). reflexivity.
  - rewrite H2. reflexivity.
  - rewrite H1. reflexivity.
Defined.

Lemma is_digit_val c : is_digit c = true -> 0 <= digit_val c <= 9.
Proof.
  unfold is_digit, digit_val. intros H. apply andb_true_iff in H as [H1 H2].
  apply Z.leb_le in H1, H2. lia.
Qed.

Lemma decimal_value_ge l :
  forall n, 0 <= n -> Forall (fun c => is_digit c = true) l ->
  n <= fold_left (fun acc c => acc * 10 + digit_val c) l n.
Proof.
  induction l as [| c l IH]; intros n Hn Hl; cbn [fold_left]; [lia |].
  inversion Hl as [| ? ? Hc Hl']; subst.
  pose proof (is_digit_val c Hc).
  specialize (IH (n * 10 + digit_val c) ltac:(lia) Hl'). lia.
Qed.

Lemma parseDigits_decimal s0 s :
  forall n, is_u64 n ->
  Forall (fun c => is_digit c = true) (list_ascii_of_string s) ->
  let v := fold_left (fun acc c => acc * 10 + digit_val c) (list_ascii_of_string s) n in
  (v < modulus -> parseDigits s0 s n = (v, None))
  /\ (modulus <= v -> parseDigits s0 s n = (MaxUint64, Some (ErrRange "ParseUint" s0))).
Proof.
  induction s as [| c s IH]; intros n Hn Hs; cbn [list_ascii_of_string fold_left parseDigits].
  - unfold is_u64 in Hn. split; [reflexivity | lia].
  - inversion Hs as [| ? ? Hc Hs']; subst. rewrite Hc. cbn [negb].
    pose proof (is_digit_val c Hc) as Hd.
    change (MaxUint64 / 10 + 1) with 1844674407370955162.
    unfold is_u64 in Hn. rewrite modulus_eq in *.
    assert (Hge := decimal_value_ge (list_ascii_of_string s) (n * 10 + digit_val c)
                     ltac:(lia) Hs').
    destruct (Z.leb_spec 1844674407370955162 n) as [Hcut | Hcut].
    { split; [lia | reflexivity]. }
    unfold mul64, add64.
    rewrite (wrap64_small (n * 10)) by (unfold is_u64; rewrite modulus_eq; lia).
    destruct (Z_lt_le_dec (n * 10 + digit_val c) 18446744073709551616) as [Hfit | Hover].
    + rewrite (wrap64_small (n * 10 + digit_val c))
        by (unfold is_u64; rewrite modulus_eq; lia).
      destruct (Z.ltb_spec (n * 10 + digit_val c) (n * 10)); [lia |].
      assert ((MaxUint64 <? n * 10 + digit_val c) = false) as ->
        by (apply Z.ltb_ge; unfold MaxUint64; rewrite modulus_eq; lia).
      cbn [orb]. apply IH; [unfold is_u64; rewrite modulus_eq; lia | exact Hs'].
    + assert (wrap64 (n * 10 + digit_val c) = n * 10 + digit_val c - 18446744073709551616)
        as ->.
      { unfold wrap64. rewrite modulus_eq.
        symmetry. apply Z.mod_unique with (q := 1); lia. }
      destruct (Z.ltb_spec (n * 10 + digit_val c - 18446744073709551616) (n * 10)); [| lia].
      cbn [orb]. split; [lia | reflexivity].
Qed.

Lemma is_digit_not_x c :
  is_digit c = true -> Ascii.eqb c "x" = false /\ Ascii.eqb c "X" = false.
Proof.
  intros H. split.
  - destruct (Ascii.eqb_spec c "x"); [subst; discriminate | reflexivity].
  - destruct (Ascii.eqb_spec c "X"); [subst; discriminate | reflexivity].
Qed.

Lemma ParseUint64_digits s :
  s <> "" -> Forall (fun c => is_digit c = true) (list_ascii_of_string s) ->
  ParseUint64 s = let '(v, err) := ParseUint s in (v, isNil err).
Proof.
  intros Hne Hs. unfold ParseUint64.
  destruct s as [| c [| c2 r]]; [contradiction | reflexivity |].
  cbn [list_ascii_of_string] in Hs.
  inversion Hs as [| ? ? _ Hs']; subst. inversion Hs' as [| ? ? Hc2 _]; subst.
  destruct (is_digit_not_x c2 Hc2) as [Ex EX].
  assert (substring 0 2 (String c (String c2 r)) = String c (String c2 ""))
    as -> by (destruct r; reflexivity).
  cbn [String.eqb]. rewrite Ex, EX.
  destruct (Ascii.eqb c "0"); cbn [orb]; rewrite andb_false_r; reflexivity.
Qed.

(** X7.  [ParseUint64] on decimal text: the empty string parses as 0, and a
    non-empty string of decimal digits parses as the number it denotes, with
    [ok = true], when that number fits in 64 bits, and as [(MaxUint64,
    false)] when it does not; so leading zeros are accepted and change
    nothing. *)
Theorem ParseUint64_decimal (s : string) :
  ParseUint64 "" = (0, true)
  /\ (s <> "" ->
      Forall (fun c => is_digit c = true) (list_ascii_of_string s) ->
      let v := fold_left (fun acc c => acc * 10 + digit_val c) (list_ascii_of_string s) 0 in
      (v < 2 ^ 64 -> ParseUint64 s = (v, true))
      /\ (2 ^ 64 <= v -> ParseUint64 s = (MaxUint64, false))
      /\ ParseUint64 (String "0" s) = ParseUint64 s).
Proof.
  split; [reflexivity |]. intros Hne Hs v.
  assert (H0 : is_u64 0) by (unfold is_u64; rewrite modulus_eq; lia).
  assert (Hval : forall t, t <> "" ->
            Forall (fun c => is_digit c = true) (list_ascii_of_string t) ->
            let w := fold_left (fun acc c => acc * 10 + digit_val c)
                       (list_ascii_of_string t) 0 in
            (w < modulus -> ParseUint64 t = (w, true))
            /\ (modulus <= w -> ParseUint64 t = (MaxUint64, false))).
  { intros t Hnt Ht w. rewrite (ParseUint64_digits t Hnt Ht).
    destruct (parseDigits_decimal t t 0 H0 Ht) as [Hfit Hover]. fold w in Hfit, Hover.
    unfold ParseUint. destruct t as [| c t']; [contradiction |].
    split; intros Hw; [rewrite (Hfit Hw) | rewrite (Hover Hw)]; reflexivity. }
  destruct (Hval s Hne Hs) as [Hfit Hover]. fold v in Hfit, Hover.
  change (2 ^ 64) with modulus.
  split; [exact Hfit | split; [exact Hover |]].
  assert (Hs0 : Forall (fun c => is_digit c = true) (list_ascii_of_string (String "0" s)))
    by (constructor; [reflexivity | exact Hs]).
  destruct (Hval (String "0" s) ltac:(discriminate) Hs0) as [Hfit0 Hover0].
  cbn [list_ascii_of_string fold_left] in Hfit0, Hover0.
  change (0 * 10 + digit_val "0") with 0 in Hfit0, Hover0. fold v in Hfit0, Hover0.
  destruct (Z_lt_le_dec v modulus) as [Hlt | Hge].
  - rewrite (Hfit0 Hlt), (Hfit Hlt). reflexivity.
  - rewrite (Hover0 Hge), (Hover Hge). reflexivity.
Qed.

Lemma ParseUint64_decimal_witness :
  "0042" <> ""
  /\ Forall (fun c => is_digit c = true) (list_ascii_of_string "0042")
  /\ ParseUint64 "0042" = (42, true)
  /\ ParseUint64 "18446744073709551616" = (MaxUint64, false).
Proof.
  assert (H1 : "0042" <> "") by discriminate.
  assert (H2 : Forall (fun c => is_digit c = true) (list_ascii_of_string "0042"))
    by (repeat constructor).
  destruct (ParseUint64_decimal "0042") as [_ H]. destruct (H H1 H2) as (Hfit & _ & _).
  split; [exact H1 | split; [exact H2 | split; [| reflexivity]]].
  apply Hfit. reflexivity.
Defined.

(** ** Blob gas *)

(** X8.  For [uint64] header fields and target, [CalcExcessBlobGas] is 0
    when the parent's excess plus used blob gas (a missing field counting as
    0) is below the target and their difference otherwise; when the sum fits
    in 64 bits that is [max 0 (excess + used - target)], a [uint64] that is
    at most the sum. *)
Theorem CalcExcessBlobGas_spec (config : ChainConfig) (parent : Header) (time : Z) :
  let excess := default 0 (ExcessBlobGas parent) in
  let used := default 0 (BlobGasUsed parent) in
  let target := GetTargetBlobGasPerBlock config time in
  is_u64 excess -> is_u64 used -> is_u64 target ->
  is_u64 (CalcExcessBlobGas config parent time)
  /\ (excess + used < modulus ->
      CalcExcessBlobGas config parent time = Z.max 0 (excess + used - target)
      /\ CalcExcessBlobGas config parent time <= excess + used)
  /\ (add64 excess used < target -> CalcExcessBlobGas config parent time = 0).
Proof.
  intros excess used target He Hu Ht.
  assert (E : CalcExcessBlobGas config parent time =
              if add64 excess used <? target then 0
              else sub64 (add64 excess used) target).
  { unfold CalcExcessBlobGas, excess, used, target.
    destruct (ExcessBlobGas parent), (BlobGasUsed parent); reflexivity. }
  rewrite E. clear E.
  pose proof (wrap64_range (excess + used)) as Hs. fold (add64 excess used) in Hs.
  unfold is_u64 in *. split; [| split].
  - destruct (Z.ltb_spec (add64 excess used) target); [pose proof modulus_pos; lia |].
    apply wrap64_range.
  - intros Hfit. unfold add64 in *.
    rewrite (wrap64_small (excess + used)) in * by (unfold is_u64; lia).
    destruct (Z.ltb_spec (excess + used) target); [lia |].
    unfold sub64. rewrite wrap64_small by (unfold is_u64; lia). lia.
  - intros Hlt. destruct (Z.ltb_spec (add64 excess used) target); [reflexivity | lia].
Qed.

Lemma CalcExcessBlobGas_spec_witness :
  let config := {| GetTargetBlobGasPerBlock := fun _ => 393216;
                   GetMinBlobGasPrice := 1;
                   GetBlobGasPriceUpdateFraction := fun _ => 3338477 |} in
  let parent := {| BlobGasUsed := Some 786432; ExcessBlobGas := Some 131072;
                   ParentBeaconBlockRoot := None; WithdrawalsHash := None |} in
  is_u64 131072 /\ is_u64 786432 /\ is_u64 393216
  /\ CalcExcessBlobGas config parent 0 = 524288
  /\ CalcExcessBlobGas config
       {| BlobGasUsed := None; ExcessBlobGas := None;
          ParentBeaconBlockRoot := None; WithdrawalsHash := None |} 0 = 0.
Proof.
  intros config parent.
  assert (H1 : is_u64 131072) by (unfold is_u64; rewrite modulus_eq; lia).
  assert (H2 : is_u64 786432) by (unfold is_u64; rewrite modulus_eq; lia).
  assert (H3 : is_u64 393216) by (unfold is_u64; rewrite modulus_eq; lia).
  destruct (CalcExcessBlobGas_spec config parent 0 H1 H2 H3) as (_ & H & _).
  split; [exact H1 | split; [exact H2 | split; [exact H3 | split; [| reflexivity]]]].
  apply H. rewrite modulus_eq. cbn. lia.
Defined.

Lemma wrap64_wrapInt_add a b : wrap64 (wrapInt a + b) = wrap64 (a + b).
Proof.
  unfold wrap64, wrapInt.
  replace ((a + 2 ^ 63) mod modulus - 2 ^ 63 + b)
    with ((a + 2 ^ 63) mod modulus + (b - 2 ^ 63)) by ring.
  rewrite Zplus_mod_idemp_l. f_equal. ring.
Qed.

Lemma fakeExponentialLoop_more_fuel fuel :
  forall denom numerator i output accum r,
  fakeExponentialLoop fuel denom numerator i output accum = Some r ->
  fakeExponentialLoop (S fuel) denom numerator i output accum = Some r.
Proof.
  induction fuel as [| fuel IH]; intros denom numerator i output accum r H.
  - discriminate.
  - cbn [fakeExponentialLoop] in H |- *.
    destruct (0 <? Sign accum); [| exact H].
    destruct (AddOverflow output accum) as [o [|]]; [exact H |].
    destruct (MulOverflow denom (NewInt (wrap64 i))) as [d [|]]; [exact H |].
    destruct (MulDivOverflow accum numerator d) as [a [|]]; [exact H |].
    apply IH in H. exact H.
Qed.

Lemma fakeExponentialLoop_fuel_le fuel fuel' denom numerator i output accum r :
  (fuel <= fuel')%nat ->
  fakeExponentialLoop fuel denom numerator i output accum = Some r ->
  fakeExponentialLoop fuel' denom numerator i output accum = Some r.
Proof.
  induction 1 as [| m _ IH]; intros H; [exact H |].
  apply fakeExponentialLoop_more_fuel, IH, H.
Qed.

(** When [uint64(i)] has come round to 0 the divisor is 0 and the next
    accumulator is 0: the loop ends at the latest there. *)
Lemma fakeExponentialLoop_terminates k :
  forall denom numerator i output accum,
  wrap64 (i + Z.of_nat k) = 0 ->
  exists fuel r, fakeExponentialLoop fuel denom numerator i output accum = Some r.
Proof.
  induction k as [| k IH]; intros denom numerator i output accum Hi.
  - rewrite Z.add_0_r in Hi. exists 2%nat. cbn [fakeExponentialLoop].
    destruct (0 <? Sign accum); [| eauto].
    destruct (AddOverflow output accum) as [o [|]]; [eauto |].
    unfold NewInt. rewrite Hi. unfold MulOverflow. rewrite Z.mul_0_r.
    change (0 mod modulus256) with 0. change (modulus256 <=? 0) with false.
    unfold MulDivOverflow. rewrite Z.eqb_refl, orb_true_r.
    change (0 <? Sign 0) with false. eauto.
  - destruct (0 <? Sign accum) eqn:Hs;
      [| exists 1%nat; cbn [fakeExponentialLoop]; rewrite Hs; eauto].
    destruct (AddOverflow output accum) as [o ov] eqn:Ha.
    destruct ov; [exists 1%nat; cbn [fakeExponentialLoop]; rewrite Hs, Ha; eauto |].
    destruct (MulOverflow denom (NewInt (wrap64 i))) as [d ov] eqn:Hd.
    destruct ov; [exists 1%nat; cbn [fakeExponentialLoop]; rewrite Hs, Ha, Hd; eauto |].
    destruct (MulDivOverflow accum numerator d) as [a ov] eqn:Hm.
    destruct ov; [exists 1%nat; cbn [fakeExponentialLoop]; rewrite Hs, Ha, Hd, Hm; eauto |].
    destruct (IH denom numerator (wrapInt (i + 1)) o a) as (fuel & r & Hr).
    { rewrite wrap64_wrapInt_add. rewrite <- Hi. f_equal. lia. }
    exists (S fuel), r. cbn [fakeExponentialLoop]. rewrite Hs, Ha, Hd, Hm. exact Hr.
Qed.

(** X9.  [FakeExponential] terminates on every input: some number of passes
    through its loop is enough, and with that many or more the call returns
    one and the same value or error. *)
Theorem FakeExponential_terminates (factor denom excessBlobGas : Z) :
  exists fuel r,
    forall fuel', (fuel <= fuel')%nat ->
      FakeExponential fuel' factor denom excessBlobGas = Some r.
Proof.
  unfold FakeExponential.
  destruct (MulOverflow factor denom) as [accum [|]].
  - exists 0%nat. eexists. intros fuel' _. reflexivity.
  - destruct (fakeExponentialLoop_terminates (Z.to_nat (modulus - 1))
                denom (NewInt excessBlobGas) 1 (NewInt 0) accum) as (fuel & r & Hr).
    { rewrite Z2Nat.id by (rewrite modulus_eq; lia).
      replace (1 + (modulus - 1)) with modulus by ring.
      unfold wrap64. apply Z_mod_same_full. }
    exists fuel, r. intros fuel' Hle.
    eapply fakeExponentialLoop_fuel_le; eauto.
Qed.

Lemma FakeExponential_terminates_witness :
  exists fuel r,
    forall fuel', (fuel <= fuel')%nat -> FakeExponential fuel' 10 2 8 = Some r.
Proof. exact (FakeExponential_terminates 10 2 8). Defined.

Lemma fakeExponentialLoop_output_ge fuel :
  forall denom numerator i output accum v,
  0 < denom -> 0 <= output -> 0 <= accum ->
  fakeExponentialLoop fuel denom numerator i output accum = Some (inl v) ->
  output / denom <= v.
Proof.
  induction fuel as [| fuel IH]; intros denom numerator i output accum v Hd Ho Ha H.
  - discriminate.
  - cbn [fakeExponentialLoop] in H.
    destruct (0 <? Sign accum).
    + unfold AddOverflow in H.
      destruct (Z.leb_spec modulus256 (output + accum)) as [| Hfit]; [discriminate |].
      rewrite Z.mod_small in H by lia.
      destruct (MulOverflow denom (NewInt (wrap64 i))) as [d [|]]; [discriminate |].
      destruct (MulDivOverflow accum numerator d) as [a ov] eqn:Hm.
      destruct ov; [discriminate |].
      assert (0 <= a).
      { unfold MulDivOverflow in Hm.
        destruct ((accum =? 0) || (numerator =? 0) || (d =? 0)).
        - injection Hm as <-. lia.
        - injection Hm as <-. apply Z.mod_pos_bound. reflexivity. }
      apply IH in H; try lia.
      etransitivity; [| exact H]. apply Z.div_le_mono; lia.
    + injection H as <-. unfold Div. destruct (Z.eqb_spec denom 0); [lia | reflexivity].
Qed.

Lemma Sign_positive a : 0 < a < 2 ^ 255 -> (0 <? Sign a) = true.
Proof.
  intros Ha. unfold Sign. destruct (Z.eqb_spec a 0); [lia |].
  destruct (Z.ltb_spec a (2 ^ 255)); [reflexivity | lia].
Qed.

Lemma fakeExponentialLoop_sum_ge fuel denom numerator i output accum v :
  0 < denom -> 0 <= output -> 0 <= accum < 2 ^ 255 ->
  fakeExponentialLoop fuel denom numerator i output accum = Some (inl v) ->
  (output + accum) / denom <= v.
Proof.
  intros Hd Ho Ha H.
  destruct (Z.eq_dec accum 0) as [-> | Hnz].
  - rewrite Z.add_0_r.
    exact (fakeExponentialLoop_output_ge fuel denom numerator i output 0 v
             Hd Ho ltac:(lia) H).
  - destruct fuel as [| fuel]; [discriminate |].
    cbn [fakeExponentialLoop] in H. rewrite Sign_positive in H by lia.
    unfold AddOverflow in H.
    destruct (Z.leb_spec modulus256 (output + accum)) as [| Hfit]; [discriminate |].
    rewrite Z.mod_small in H by lia.
    destruct (MulOverflow denom (NewInt (wrap64 i))) as [d [|]]; [discriminate |].
    destruct (MulDivOverflow accum numerator d) as [a ov] eqn:Hm.
    destruct ov; [discriminate |].
    assert (0 <= a).
    { unfold MulDivOverflow in Hm.
      destruct ((accum =? 0) || (numerator =? 0) || (d =? 0)).
      - injection Hm as <-. lia.
      - injection Hm as <-. apply Z.mod_pos_bound. reflexivity. }
    exact (fakeExponentialLoop_output_ge fuel denom numerator (wrapInt (i + 1))
             (output + accum) a v Hd ltac:(lia) ltac:(lia) H).
Qed.

Lemma MulOverflow_fits x y :
  0 <= x * y < modulus256 -> MulOverflow x y = (x * y, false).
Proof.
  intros H. unfold MulOverflow. rewrite Z.mod_small by lia.
  destruct (Z.leb_spec modulus256 (x * y)); [lia | reflexivity].
Qed.

Lemma FakeExponential_ge fuel factor denom excessBlobGas v :
  0 <= factor -> 0 < denom -> factor * denom < 2 ^ 255 ->
  FakeExponential fuel factor denom excessBlobGas = Some (inl v) -> factor <= v.
Proof.
  intros Hf Hd Hlt Hv. assert (2 ^ 255 < modulus256) by reflexivity.
  unfold FakeExponential in Hv. rewrite MulOverflow_fits in Hv by nia.
  unfold NewInt in Hv. apply fakeExponentialLoop_sum_ge in Hv; try nia.
  rewrite Z.add_0_l, Z.div_mul in Hv by lia. exact Hv.
Qed.

Lemma FakeExponential_zero_excess fuel factor denom :
  0 <= factor -> 0 < denom -> factor * denom < 2 ^ 255 -> (2 <= fuel)%nat ->
  FakeExponential fuel factor denom 0 = Some (inl factor).
Proof.
  intros Hf Hd Hlt Hfuel. assert (2 ^ 255 < modulus256) by reflexivity.
  unfold FakeExponential. rewrite MulOverflow_fits by nia. unfold NewInt.
  destruct fuel as [| [| fuel]]; [lia | lia |].
  destruct (Z.eq_dec factor 0) as [-> | Hnz].
  - cbn [fakeExponentialLoop]. rewrite Z.mul_0_l.
    change (0 <? Sign 0) with false. cbv beta iota.
    unfold Div. destruct (Z.eqb_spec denom 0); [lia | reflexivity].
  - assert (Hdn : denom <= factor * denom) by nia.
    cbn [fakeExponentialLoop]. unfold NewInt. rewrite Sign_positive by nia.
    unfold AddOverflow. rewrite Z.add_0_l, Z.mod_small by lia.
    destruct (Z.leb_spec modulus256 (factor * denom)); [lia |].
    change (wrap64 1) with 1. rewrite MulOverflow_fits by lia. rewrite Z.mul_1_r.
    unfold MulDivOverflow. rewrite Z.eqb_refl, orb_true_r. cbn [orb].
    change (0 <? Sign 0) with false. cbv beta iota.
    unfold Div. destruct (Z.eqb_spec denom 0); [lia |].
    rewrite Z.div_mul by lia. reflexivity.
Qed.

(** X10.  For [factor >= 0], [denom > 0] and [factor * denom < 2^255], a
    value returned by [FakeExponential] is never below [factor], and with
    zero excess blob gas the call returns [factor] itself after two passes.
    From [2^255] up to [2^256] the product has its top bit set, [Sign] is
    not positive, the loop is not entered and the call returns 0. *)
Theorem FakeExponential_at_least_factor (fuel : nat) (factor denom excessBlobGas : Z) :
  0 <= factor -> 0 < denom ->
  (factor * denom < 2 ^ 255 ->
   (forall v, FakeExponential fuel factor denom excessBlobGas = Some (inl v) ->
              factor <= v)
   /\ ((2 <= fuel)%nat -> FakeExponential fuel factor denom 0 = Some (inl factor)))
  /\ (2 ^ 255 <= factor * denom < 2 ^ 256 -> (1 <= fuel)%nat ->
      FakeExponential fuel factor denom excessBlobGas = Some (inl 0)).
Proof.
  intros Hf Hd. split.
  - intros Hlt. split.
    + intros v Hv. eapply FakeExponential_ge; eauto.
    + intros Hfuel. apply FakeExponential_zero_excess; assumption.
  - intros Hrange Hfuel. unfold FakeExponential.
    change (2 ^ 256) with modulus256 in Hrange. rewrite MulOverflow_fits by lia.
    destruct fuel as [| fuel]; [lia |]. cbn [fakeExponentialLoop].
    assert ((0 <? Sign (factor * denom)) = false) as ->.
    { unfold Sign. destruct (Z.eqb_spec (factor * denom) 0); [lia |].
      destruct (Z.ltb_spec (factor * denom) (2 ^ 255)); [lia | reflexivity]. }
    unfold NewInt, Div. destruct (Z.eqb_spec denom 0); [lia | reflexivity].
Qed.

Lemma FakeExponential_at_least_factor_witness :
  0 <= 10 /\ 0 < 2 /\ 10 * 2 < 2 ^ 255
  /\ FakeExponential 100 10 2 8 = Some (inl 542)
  /\ 10 <= 542
  /\ FakeExponential 100 10 2 0 = Some (inl 10).
Proof.
  assert (H1 : 0 <= 10) by lia. assert (H2 : 0 < 2) by lia.
  assert (H3 : 10 * 2 < 2 ^ 255) by reflexivity.
  assert (H4 : FakeExponential 100 10 2 8 = Some (inl 542)) by reflexivity.
  destruct (FakeExponential_at_least_factor 100 10 2 8 H1 H2) as [H _].
  destruct (H H3) as [Hge Hzero].
  split; [exact H1 | split; [exact H2 | split; [exact H3 | split; [exact H4 | split]]]].
  - exact (Hge 542 H4).
  - apply Hzero. repeat constructor.
Defined.

(** The values of the EIP-4844 test table, and the early exit at [2^255]. *)
Example FakeExponential_runs :
  FakeExponential 100 1 1 2 = Some (inl 6)
  /\ FakeExponential 100 1 2 4 = Some (inl 6)
  /\ FakeExponential 100 1 1 4 = Some (inl 49)
  /\ FakeExponential 100 1 2 8 = Some (inl 50)
  /\ FakeExponential 3 1 1 4 = None
  /\ FakeExponential 100 (2 ^ 200) (2 ^ 55) 1 = Some (inl 0).
Proof. repeat split; reflexivity. Qed.

(** X11.  For a chain configuration whose minimal blob gas price and update
    fraction are [uint64] values, with a positive fraction, a price returned
    by [GetBlobGasPrice] is never below the minimal price, and with zero
    excess blob gas it is the minimal price. *)
Theorem GetBlobGasPrice_at_least_min (fuel : nat) (config : ChainConfig)
  (excessBlobGas headerTime : Z) :
  is_u64 (GetMinBlobGasPrice config) ->
  is_u64 (GetBlobGasPriceUpdateFraction config headerTime) ->
  0 < GetBlobGasPriceUpdateFraction config headerTime ->
  (forall price, GetBlobGasPrice fuel config excessBlobGas headerTime = Some (inl price) ->
                 GetMinBlobGasPrice config <= price)
  /\ ((2 <= fuel)%nat ->
      GetBlobGasPrice fuel config 0 headerTime = Some (inl (GetMinBlobGasPrice config))).
Proof.
  intros Hm Hfr Hpos. unfold GetBlobGasPrice, NewInt.
  unfold is_u64 in *. rewrite modulus_eq in *.
  assert (Hlt : GetMinBlobGasPrice config * GetBlobGasPriceUpdateFraction config headerTime
                < 2 ^ 255).
  { assert (2 ^ 128 < 2 ^ 255) by reflexivity.
    assert (GetMinBlobGasPrice config * GetBlobGasPriceUpdateFraction config headerTime
            <= 18446744073709551615 * 18446744073709551615) by nia.
    assert (18446744073709551615 * 18446744073709551615 < 2 ^ 128) by reflexivity.
    lia. }
  split.
  - intros price Hp.
    exact (FakeExponential_ge fuel _ _ excessBlobGas price (proj1 Hm) Hpos Hlt Hp).
  - intros Hfuel.
    exact (FakeExponential_zero_excess fuel _ _ (proj1 Hm) Hpos Hlt Hfuel).
Qed.

Lemma GetBlobGasPrice_at_least_min_witness :
  let config := {| GetTargetBlobGasPerBlock := fun _ => 393216;
                   GetMinBlobGasPrice := 1;
                   GetBlobGasPriceUpdateFraction := fun _ => 3338477 |} in
  is_u64 (GetMinBlobGasPrice config)
  /\ is_u64 (GetBlobGasPriceUpdateFraction config 0)
  /\ 0 < GetBlobGasPriceUpdateFraction config 0
  /\ GetBlobGasPrice 400 config 7864320 0 = Some (inl 10)
  /\ 1 <= 10
  /\ GetBlobGasPrice 400 config 0 0 = Some (inl 1).
Proof.
  intros config.
  assert (H1 : is_u64 (GetMinBlobGasPrice config))
    by (unfold is_u64; rewrite modulus_eq; cbn; lia).
  assert (H2 : is_u64 (GetBlobGasPriceUpdateFraction config 0))
    by (unfold is_u64; rewrite modulus_eq; cbn; lia).
  assert (H3 : 0 < GetBlobGasPriceUpdateFraction config 0) by (cbn; lia).
  assert (H4 : GetBlobGasPrice 400 config 7864320 0 = Some (inl 10))
    by (vm_compute; reflexivity).
  destruct (GetBlobGasPrice_at_least_min 400 config 7864320 0 H1 H2 H3) as [Hge Hz].
  split; [exact H1 | split; [exact H2 | split; [exact H3 | split; [exact H4 | split]]]].
  - exact (Hge 10 H4).
  - apply Hz. repeat constructor.
Defined.

(** ** The Cancun header checks *)

(** X12.  [VerifyPresenceOfCancunHeaderFields] accepts a header exactly when
    [BlobGasUsed], [ExcessBlobGas] and [ParentBeaconBlockRoot] are all
    present, and [VerifyAbsenceOfCancunHeaderFields] exactly when all three
    are absent; no header passes both checks, and the first missing (or
    first present) field in that order decides the error. *)
Theorem Cancun_header_checks (header : Header) :
  (VerifyPresenceOfCancunHeaderFields header = None <->
   isSome (BlobGasUsed header) = true /\ isSome (ExcessBlobGas header) = true
   /\ isSome (ParentBeaconBlockRoot header) = true)
  /\ (VerifyAbsenceOfCancunHeaderFields header = None <->
      BlobGasUsed header = None /\ ExcessBlobGas header = None
      /\ ParentBeaconBlockRoot header = None)
  /\ ~ (VerifyPresenceOfCancunHeaderFields header = None
        /\ VerifyAbsenceOfCancunHeaderFields header = None)
  /\ (BlobGasUsed header = None ->
      VerifyPresenceOfCancunHeaderFields header = Some ErrMissingBlobGasUsed)
  /\ (forall v, BlobGasUsed header = Some v ->
        VerifyAbsenceOfCancunHeaderFields header = Some (ErrBlobGasUsedBeforeFork v)).
Proof.
  unfold VerifyPresenceOfCancunHeaderFields, VerifyAbsenceOfCancunHeaderFields.
  destruct (BlobGasUsed header) as [b |], (ExcessBlobGas header) as [e |],
    (ParentBeaconBlockRoot header) as [r |]; cbn [isSome negb];
    repeat split; try discriminate; try tauto; try congruence;
    try (intros [? [? ?]]; discriminate); try (intros [? ?]; discriminate).
Qed.

Lemma wrongWithdrawalsHash_false EmptyRootHash header :
  wrongWithdrawalsHash EmptyRootHash header = false <->
  WithdrawalsHash header = Some EmptyRootHash.
Proof.
  unfold wrongWithdrawalsHash. destruct (WithdrawalsHash header) as [h |].
  - destruct (bool_decide_reflect (h = EmptyRootHash)) as [-> | Hne]; cbn [negb].
    + tauto.
    + split; [discriminate | congruence].
  - split; discriminate.
Qed.

(** X13.  The BSC checks.  [VerifyBscPresenceOfCancunHeaderFields] accepts
    exactly the headers with [BlobGasUsed] and [ExcessBlobGas] present, no
    [ParentBeaconBlockRoot] and [WithdrawalsHash] equal to the empty root;
    [VerifyPresenceOfBohrHeaderFields] exactly those with the two gas fields
    present, [ParentBeaconBlockRoot] equal to the zero hash and
    [WithdrawalsHash] equal to the empty root;
    [VerifyBscAbsenceOfCancunHeaderFields] exactly those with all four
    fields absent.  No header passes two of the three; a header that passes
    the Bohr check passes [VerifyPresenceOfCancunHeaderFields], one that
    passes the BSC Cancun check does not. *)
Theorem Bsc_header_checks (EmptyRootHash : bytes) (header : Header) :
  let cancun := VerifyBscPresenceOfCancunHeaderFields EmptyRootHash header in
  let bohr := VerifyPresenceOfBohrHeaderFields EmptyRootHash header in
  let absent := VerifyBscAbsenceOfCancunHeaderFields header in
  (cancun = None <->
   isSome (BlobGasUsed header) = true /\ isSome (ExcessBlobGas header) = true
   /\ ParentBeaconBlockRoot header = None
   /\ WithdrawalsHash header = Some EmptyRootHash)
  /\ (bohr = None <->
      isSome (BlobGasUsed header) = true /\ isSome (ExcessBlobGas header) = true
      /\ ParentBeaconBlockRoot header = Some zeroHash
      /\ WithdrawalsHash header = Some EmptyRootHash)
  /\ (absent = None <->
      BlobGasUsed header = None /\ ExcessBlobGas header = None
      /\ ParentBeaconBlockRoot header = None /\ WithdrawalsHash header = None)
  /\ ~ (cancun = None /\ bohr = None)
  /\ ~ (cancun = None /\ absent = None)
  /\ ~ (bohr = None /\ absent = None)
  /\ (bohr = None -> VerifyPresenceOfCancunHeaderFields header = None)
  /\ (cancun = None ->
      VerifyPresenceOfCancunHeaderFields header = Some ErrMissingParentBeaconBlockRoot).
Proof.
  intros cancun bohr absent.
  assert (Hc : cancun = None <->
               isSome (BlobGasUsed header) = true /\ isSome (ExcessBlobGas header) = true
               /\ ParentBeaconBlockRoot header = None
               /\ WithdrawalsHash header = Some EmptyRootHash).
  { subst cancun. unfold VerifyBscPresenceOfCancunHeaderFields.
    rewrite <- wrongWithdrawalsHash_false.
    destruct (BlobGasUsed header), (ExcessBlobGas header), (ParentBeaconBlockRoot header),
      (wrongWithdrawalsHash EmptyRootHash header); cbn [isSome negb];
      split; try discriminate; try tauto; try (intros (? & ? & ? & ?); discriminate). }
  assert (Hb : bohr = None <->
               isSome (BlobGasUsed header) = true /\ isSome (ExcessBlobGas header) = true
               /\ ParentBeaconBlockRoot header = Some zeroHash
               /\ WithdrawalsHash header = Some EmptyRootHash).
  { subst bohr. unfold VerifyPresenceOfBohrHeaderFields.
    rewrite <- wrongWithdrawalsHash_false.
    destruct (BlobGasUsed header), (ExcessBlobGas header);
      cbn [isSome negb]; try (split; [discriminate | intros (? & ? & ? & ?); discriminate]).
    destruct (ParentBeaconBlockRoot header) as [r |].
    - destruct (bool_decide_reflect (r = zeroHash)) as [-> | Hne]; cbn [negb].
      + destruct (wrongWithdrawalsHash EmptyRootHash header);
          split; try discriminate; try tauto; intros (? & ? & ? & ?); discriminate.
      + split; [discriminate | intros (? & ? & ? & ?); congruence].
    - split; [discriminate | intros (? & ? & ? & ?); discriminate]. }
  assert (Ha : absent = None <->
               BlobGasUsed header = None /\ ExcessBlobGas header = None
               /\ ParentBeaconBlockRoot header = None /\ WithdrawalsHash header = None).
  { subst absent. unfold VerifyBscAbsenceOfCancunHeaderFields.
    destruct (BlobGasUsed header), (ExcessBlobGas header), (ParentBeaconBlockRoot header),
      (WithdrawalsHash header);
      split; try discriminate; try tauto; intros (? & ? & ? & ?); discriminate. }
  split; [exact Hc | split; [exact Hb | split; [exact Ha |]]].
  rewrite Hc, Hb, Ha. unfold VerifyPresenceOfCancunHeaderFields.
  repeat split.
  - intros [(_ & _ & H1 & _) (_ & _ & H2 & _)]. congruence.
  - intros [(H1 & _) (H2 & _)]. rewrite H2 in H1. discriminate.
  - intros [(H1 & _) (H2 & _)]. rewrite H2 in H1. discriminate.
  - intros (H1 & H2 & H3 & _). rewrite H1, H2, H3. reflexivity.
  - intros (H1 & H2 & H3 & _). rewrite H1, H2, H3. reflexivity.
Qed.

Lemma Bsc_header_checks_witness :
  let empty := replicate 32 x56 in
  let header := {| BlobGasUsed := Some 0; ExcessBlobGas := Some 0;
                   ParentBeaconBlockRoot := Some zeroHash;
                   WithdrawalsHash := Some empty |} in
  VerifyPresenceOfBohrHeaderFields empty header = None
  /\ VerifyPresenceOfCancunHeaderFields header = None
  /\ VerifyBscPresenceOfCancunHeaderFields empty header = Some ErrHasParentBeaconBlockRoot.
Proof.
  intros empty header.
  assert (H : VerifyPresenceOfBohrHeaderFields empty header = None) by reflexivity.
  destruct (Bsc_header_checks empty header) as (_ & _ & _ & _ & _ & _ & Hb & _).
  split; [exact H | split; [exact (Hb H) | reflexivity]].
Defined.

Lemma Cancun_header_checks_witness :
  let header := {| BlobGasUsed := None; ExcessBlobGas := Some 7;
                   ParentBeaconBlockRoot := None; WithdrawalsHash := None |} in
  BlobGasUsed header = None
  /\ VerifyPresenceOfCancunHeaderFields header = Some ErrMissingBlobGasUsed
  /\ VerifyAbsenceOfCancunHeaderFields header = Some (ErrExcessBlobGasBeforeFork 7).
Proof.
  intros header.
  assert (H : BlobGasUsed header = None) by reflexivity.
  destruct (Cancun_header_checks header) as (_ & _ & _ & Hm & _).
  split; [exact H | split; [exact (Hm H) | reflexivity]].
Defined.

(** ** The snapshot catalog: step range, blacklist *)

Lemma maxStepLoop_spec l :
  forall m r,
  maxStepLoop l m = Ok r ->
  m <= r
  /\ (forall p, p ∈ l -> HasPrefix (Name p) "domain" = true ->
        exists to, parseStateTo (Name p) = Ok to /\ to <= r)
  /\ (r = m \/ exists p, p ∈ l /\ HasPrefix (Name p) "domain" = true
                         /\ parseStateTo (Name p) = Ok r).
Proof.
  induction l as [| p rest IH]; intros m r H; cbn [maxStepLoop] in H.
  - injection H as <-. split; [lia | split; [| auto]].
    intros p Hp. inversion Hp.
  - destruct (HasPrefix (Name p) "domain") eqn:Hd; cbn [negb] in H.
    + destruct (parseStateTo (Name p)) as [to | e |] eqn:Hto; cbn [obind] in H;
        try discriminate.
      destruct (Z.ltb_spec m to) as [Hlt | Hge]; apply IH in H as (Hle & Hall & Hatt).
      * split; [lia | split].
        -- intros q Hq Hqd. apply elem_of_cons in Hq as [-> | Hq]; [| auto].
           exists to. split; [exact Hto | exact Hle].
        -- right. destruct Hatt as [-> | (q & Hq & Hqd & Hqr)].
           ++ exists p. split; [apply list_elem_of_here | auto].
           ++ exists q. split; [apply list_elem_of_further, Hq | auto].
      * split; [lia | split].
        -- intros q Hq Hqd. apply elem_of_cons in Hq as [-> | Hq]; [| auto].
           exists to. split; [exact Hto | lia].
        -- destruct Hatt as [-> | (q & Hq & Hqd & Hqr)]; [auto |].
           right. exists q. split; [apply list_elem_of_further, Hq | auto].
    + apply IH in H as (Hle & Hall & Hatt). split; [exact Hle | split].
      * intros q Hq Hqd. apply elem_of_cons in Hq as [-> | Hq]; [congruence | auto].
      * destruct Hatt as [-> | (q & Hq & Hqd & Hqr)]; [auto |].
        right. exists q. split; [apply list_elem_of_further, Hq | auto].
Qed.

(** X14.  When [getMaxStepRangeInSnapshots] returns a value, the range end
    of every [domain] entry of the catalog parses and is at most that value,
    and the value is the range end of some [domain] entry, or 0; it is 0
    for a catalog without [domain] entries. *)
Theorem getMaxStepRangeInSnapshots_is_max (preverified : list PreverifiedItem) (maxTo : Z) :
  getMaxStepRangeInSnapshots preverified = Ok maxTo ->
  0 <= maxTo
  /\ (forall p, p ∈ preverified -> HasPrefix (Name p) "domain" = true ->
        exists to, parseStateTo (Name p) = Ok to /\ to <= maxTo)
  /\ (maxTo = 0
      \/ exists p, p ∈ preverified /\ HasPrefix (Name p) "domain" = true
                   /\ parseStateTo (Name p) = Ok maxTo)
  /\ ((forall p, p ∈ preverified -> HasPrefix (Name p) "domain" = false) -> maxTo = 0).
Proof.
  intros H. apply maxStepLoop_spec in H as (Hle & Hall & Hatt).
  split; [exact Hle | split; [exact Hall | split; [exact Hatt |]]].
  intros Hno. destruct Hatt as [-> | (p & Hp & Hd & _)]; [reflexivity |].
  rewrite (Hno p Hp) in Hd. discriminate.
Qed.

Lemma getMaxStepRangeInSnapshots_is_max_witness :
  let catalog := [ {| Name := "domain/v1-accounts.0-64.kv"; Hash := "a" |};
                   {| Name := "idx/v1-accounts.0-512.ef"; Hash := "b" |};
                   {| Name := "domain/v1-code.64-128.kv"; Hash := "c" |};
                   {| Name := "v1-000000-000500-headers.seg"; Hash := "d" |} ] in
  getMaxStepRangeInSnapshots catalog = Ok 128
  /\ (forall p, p ∈ catalog -> HasPrefix (Name p) "domain" = true ->
        exists to, parseStateTo (Name p) = Ok to /\ to <= 128).
Proof.
  intros catalog.
  assert (H : getMaxStepRangeInSnapshots catalog = Ok 128) by reflexivity.
  split; [exact H |].
  exact (proj1 (proj2 (getMaxStepRangeInSnapshots_is_max catalog 128 H))).
Defined.

(** A [domain] name without a range makes the function panic, one with a
    range end that is no number makes it return the error of the parser. *)
Example getMaxStepRangeInSnapshots_fails :
  getMaxStepRangeInSnapshots [ {| Name := "domain"; Hash := "" |} ] = Panic
  /\ getMaxStepRangeInSnapshots [ {| Name := "domain/v1-code.64-.kv"; Hash := "" |} ]
     = Err (ErrSyntax "ParseUint" "").
Proof. split; reflexivity. Qed.

Lemma blackListEntry_true_prunable P stepPrune blockPrune n :
  blackListEntry P stepPrune blockPrune n = Ok true -> canSnapshotBePruned n = true.
Proof.
  unfold blackListEntry. destruct (canSnapshotBePruned n); [reflexivity | discriminate].
Qed.

(** X15.  [buildBlackListForPruning] returns the empty blacklist when
    pruning is off, whatever the catalog holds; and every name of a
    blacklist it returns is the name of a catalog entry that can be pruned
    (a state-history file or a transactions file): no other file is ever
    blacklisted. *)
Theorem buildBlackListForPruning_only_prunable
  (Erigon2MergeLimit : Z) (ParseFileName : string -> string -> FileInfo * bool * bool)
  (pruneMode : bool) (stepPrune minBlockToDownload blockPrune : Z)
  (preverified : list PreverifiedItem) :
  buildBlackListForPruning Erigon2MergeLimit ParseFileName false
    stepPrune minBlockToDownload blockPrune preverified = Ok ∅
  /\ (forall blackList name,
        buildBlackListForPruning Erigon2MergeLimit ParseFileName pruneMode
          stepPrune minBlockToDownload blockPrune preverified = Ok blackList ->
        name ∈ blackList ->
        canSnapshotBePruned name = true
        /\ exists p, p ∈ preverified /\ Name p = name).
Proof.
  split; [reflexivity |]. intros blackList name H Hin.
  unfold buildBlackListForPruning in H. destruct pruneMode; cbn [negb] in H.
  - apply blackListLoop_elem in H as [_ Hiff]. apply Hiff in Hin.
    destruct Hin as [Hin | (p & Hp & Hname & Hdec)]; [inversion Hin |].
    split; [eapply blackListEntry_true_prunable; eauto | eauto].
  - injection H as <-. inversion Hin.
Qed.

Lemma buildBlackListForPruning_only_prunable_witness :
  let P : string -> string -> FileInfo * bool * bool :=
    fun _ name => ({| From := 0; To := 500 |}, false,
                   String.eqb name "v1-000000-000500-transactions.seg") in
  let catalog := [ {| Name := "domain/v1-accounts.0-64.kv"; Hash := "a" |};
                   {| Name := "idx/v1-accounts.0-64.ef"; Hash := "b" |};
                   {| Name := "v1-000000-000500-transactions.seg"; Hash := "c" |};
                   {| Name := "v1-000000-000500-headers.seg"; Hash := "d" |} ] in
  let blackList : gset string :=
    {[ "idx/v1-accounts.0-64.ef"; "v1-000000-000500-transactions.seg" ]} in
  buildBlackListForPruning 100 P true 64 1000 700 catalog = Ok blackList
  /\ "idx/v1-accounts.0-64.ef" ∈ blackList
  /\ canSnapshotBePruned "idx/v1-accounts.0-64.ef" = true.
Proof.
  intros P catalog blackList.
  assert (H1 : buildBlackListForPruning 100 P true 64 1000 700 catalog = Ok blackList)
    by (vm_compute; reflexivity).
  assert (H2 : "idx/v1-accounts.0-64.ef" ∈ blackList)
    by (apply elem_of_union; left; apply elem_of_singleton; reflexivity).
  destruct (buildBlackListForPruning_only_prunable 100 P true 64 1000 700 catalog)
    as [_ H].
  split; [exact H1 | split; [exact H2 |]].
  exact (proj1 (H blackList _ H1 H2)).
Defined.

Lemma blackListLoop_ok P stepPrune blockPrune l :
  forall bl,
  (forall p, p ∈ l -> exists b, blackListEntry P stepPrune blockPrune (Name p) = Ok b) ->
  exists bl', blackListLoop P stepPrune blockPrune l bl = Ok bl'.
Proof.
  induction l as [| p rest IH]; intros bl H.
  - eexists. reflexivity.
  - rewrite blackListLoop_cons.
    destruct (H p ltac:(apply list_elem_of_here)) as [b ->]. cbn [obind].
    apply IH. intros q Hq. apply H. apply list_elem_of_further, Hq.
Qed.

Lemma blackListEntry_mono P s1 b1 s2 b2 n :
  s1 <= s2 -> b1 <= b2 ->
  forall d, blackListEntry P s1 b1 n = Ok d ->
  exists d', blackListEntry P s2 b2 n = Ok d' /\ (d = true -> d' = true).
Proof.
  intros Hs Hb d. unfold blackListEntry.
  destruct (canSnapshotBePruned n); cbn [negb]; [| eauto].
  destruct (isStateSnapshot n).
  - destruct (parseStateTo n) as [to | e |]; cbn [obind]; try discriminate.
    intros [= <-]. eexists. split; [reflexivity |].
    destruct (Z.ltb_spec s1 to), (Z.ltb_spec s2 to); cbn [negb]; try lia; auto.
  - destruct (P "" n) as [[res e] ok]. destruct ok; cbn [negb]; [| eauto].
    intros [= <-]. eexists. split; [reflexivity |].
    destruct (Z.ltb_spec b1 (To res)), (Z.ltb_spec b2 (To res)); cbn [negb]; try lia; auto.
Qed.

Lemma adjustBlockPrune_mono L blocks blocks' minB :
  0 < L -> 0 <= blocks <= blocks' -> is_u64 blocks' ->
  adjustBlockPrune L blocks minB <= adjustBlockPrune L blocks' minB.
Proof.
  intros HL Hb Hu. rewrite !adjustBlockPrune_unfold.
  set (m := Z.max minB L).
  assert (forall b, 0 <= b -> is_u64 b ->
            sub64 (Z.min b m) (Z.min b m mod L) = L * (Z.min b m / L)) as E.
  { intros b Hb0 Hbu.
    pose proof (Z.mod_pos_bound (Z.min b m) L HL).
    pose proof (Z.div_mod (Z.min b m) L ltac:(lia)).
    pose proof (Z.mod_le (Z.min b m) L ltac:(lia) HL).
    unfold sub64. rewrite wrap64_small; [lia |]. unfold is_u64 in *. lia. }
  rewrite (E blocks), (E blocks') by (unfold is_u64 in *; lia).
  apply Z.mul_le_mono_nonneg_l; [lia |].
  apply Z.div_le_mono; lia.
Qed.

(** X16.  The blacklist grows with the retention thresholds: if
    [buildBlackListForPruning] returns a blacklist for [stepPrune] and
    [blockPrune], it also returns one for any larger [stepPrune'] and
    [blockPrune'] (a [uint64], with a positive merge limit), and that one
    contains the first. *)
Theorem buildBlackListForPruning_monotone
  (Erigon2MergeLimit : Z) (ParseFileName : string -> string -> FileInfo * bool * bool)
  (stepPrune stepPrune' minBlockToDownload blockPrune blockPrune' : Z)
  (preverified : list PreverifiedItem) (blackList : gset string) :
  0 < Erigon2MergeLimit ->
  stepPrune <= stepPrune' -> 0 <= blockPrune <= blockPrune' -> is_u64 blockPrune' ->
  buildBlackListForPruning Erigon2MergeLimit ParseFileName true
    stepPrune minBlockToDownload blockPrune preverified = Ok blackList ->
  exists blackList',
    buildBlackListForPruning Erigon2MergeLimit ParseFileName true
      stepPrune' minBlockToDownload blockPrune' preverified = Ok blackList'
    /\ blackList ⊆ blackList'.
Proof.
  intros HL Hs Hb Hu H. unfold buildBlackListForPruning in *. cbn [negb] in *.
  pose proof (adjustBlockPrune_mono Erigon2MergeLimit blockPrune blockPrune'
                minBlockToDownload HL Hb Hu) as Hadj.
  set (b1 := adjustBlockPrune Erigon2MergeLimit blockPrune minBlockToDownload) in *.
  set (b2 := adjustBlockPrune Erigon2MergeLimit blockPrune' minBlockToDownload) in *.
  apply blackListLoop_elem in H as [Hdec Hin].
  destruct (blackListLoop_ok ParseFileName stepPrune' b2 preverified ∅) as [bl' Hbl'].
  { intros p Hp. destruct (Hdec p Hp) as [d Hd].
    destruct (blackListEntry_mono ParseFileName _ _ _ _ _ Hs Hadj d Hd) as (d' & Hd' & _).
    eauto. }
  exists bl'. split; [exact Hbl' |].
  apply blackListLoop_elem in Hbl' as [_ Hin'].
  intros n Hn. apply Hin in Hn. apply Hin'.
  destruct Hn as [Hn | (p & Hp & Hname & Hd)]; [auto |].
  right. exists p. split; [exact Hp | split; [exact Hname |]].
  destruct (blackListEntry_mono ParseFileName _ _ _ _ _ Hs Hadj true Hd) as (d' & Hd' & Ht).
  rewrite Hd', (Ht eq_refl). reflexivity.
Qed.

Lemma buildBlackListForPruning_monotone_witness :
  let P : string -> string -> FileInfo * bool * bool :=
    fun _ _ => ({| From := 0; To := 0 |}, false, false) in
  let catalog := [ {| Name := "idx/v1-accounts.0-64.ef"; Hash := "a" |};
                   {| Name := "idx/v1-accounts.64-128.ef"; Hash := "b" |} ] in
  0 < 100 /\ 64 <= 128 /\ 0 <= 0 <= 0 /\ is_u64 0
  /\ buildBlackListForPruning 100 P true 64 0 0 catalog
     = Ok {[ "idx/v1-accounts.0-64.ef" ]}
  /\ exists blackList',
       buildBlackListForPruning 100 P true 128 0 0 catalog = Ok blackList'
       /\ ({[ "idx/v1-accounts.0-64.ef" ]} : gset string) ⊆ blackList'.
Proof.
  intros P catalog.
  assert (H1 : 0 < 100) by lia. assert (H2 : 64 <= 128) by lia.
  assert (H3 : 0 <= 0 <= 0) by lia.
  assert (H4 : is_u64 0) by (unfold is_u64; rewrite modulus_eq; lia).
  assert (H5 : buildBlackListForPruning 100 P true 64 0 0 catalog
               = Ok {[ "idx/v1-accounts.0-64.ef" ]}) by (vm_compute; reflexivity).
  split; [exact H1 | split; [exact H2 | split; [exact H3 | split; [exact H4 |
  split; [exact H5 |]]]]].
  exact (buildBlackListForPruning_monotone 100 P 64 128 0 0 0 catalog _ H1 H2 H3 H4 H5).
Defined.

(** X17.  With pruning enabled, when [buildBlackListForPruning] returns a
    blacklist, a catalog entry that can be pruned and is not a state file
    (a block-range file whose name contains [transactions]) is in the
    blacklist exactly when [ParseFileName] accepts its name and the range
    end it reports is at most [adjustBlockPrune blockPrune
    minBlockToDownload]; a name that [ParseFileName] rejects is kept. *)
Theorem buildBlackListForPruning_block_files
  (Erigon2MergeLimit : Z) (ParseFileName : string -> string -> FileInfo * bool * bool)
  (stepPrune minBlockToDownload blockPrune : Z)
  (preverified : list PreverifiedItem) (blackList : gset string) (p : PreverifiedItem) :
  buildBlackListForPruning Erigon2MergeLimit ParseFileName true
    stepPrune minBlockToDownload blockPrune preverified = Ok blackList ->
  p ∈ preverified ->
  canSnapshotBePruned (Name p) = true ->
  isStateSnapshot (Name p) = false ->
  (Name p ∈ blackList <->
   (ParseFileName "" (Name p)).2 = true
   /\ To (ParseFileName "" (Name p)).1.1
      <= adjustBlockPrune Erigon2MergeLimit blockPrune minBlockToDownload)
  /\ Contains (Name p) "transactions" = true.
Proof.
  intros H Hp Hc Hs. unfold buildBlackListForPruning in H. cbn [negb] in H.
  apply blackListLoop_elem in H as [Hdec Hin].
  destruct (Hdec p Hp) as [b Hb].
  assert (Hiff : Name p ∈ blackList <-> b = true).
  { rewrite Hin, Hb. split.
    - intros [Hn | (q & _ & _ & E)]; [inversion Hn | congruence].
    - intros ->. right. exists p. auto. }
  split.
  - rewrite Hiff. unfold blackListEntry in Hb. rewrite Hc, Hs in Hb. cbn [negb] in Hb.
    destruct (ParseFileName "" (Name p)) as [[res e] ok]. cbn [fst snd].
    destruct ok; cbn [negb] in Hb; injection Hb as <-.
    + destruct (Z.ltb_spec (adjustBlockPrune Erigon2MergeLimit blockPrune minBlockToDownload)
                  (To res)); cbn [negb].
      * split; [discriminate | intros [_ ?]; lia].
      * split; [intros _; split; [reflexivity | lia] | reflexivity].
    + split; [discriminate | intros [? _]; discriminate].
  - unfold canSnapshotBePruned, isStateSnapshot in *.
    destruct (isStateHistory (Name p)); [discriminate | exact Hc].
Qed.

Lemma buildBlackListForPruning_block_files_witness :
  let P : string -> string -> FileInfo * bool * bool :=
    fun _ name => ({| From := 0; To := 500 |}, false,
                   String.eqb name "v1-000000-000500-transactions.seg") in
  let tx := {| Name := "v1-000000-000500-transactions.seg"; Hash := "c" |} in
  let catalog := [ {| Name := "idx/v1-accounts.0-64.ef"; Hash := "b" |}; tx ] in
  let blackList : gset string :=
    {[ "idx/v1-accounts.0-64.ef"; "v1-000000-000500-transactions.seg" ]} in
  buildBlackListForPruning 100 P true 64 1000 700 catalog = Ok blackList
  /\ tx ∈ catalog
  /\ canSnapshotBePruned (Name tx) = true
  /\ isStateSnapshot (Name tx) = false
  /\ adjustBlockPrune 100 700 1000 = 700
  /\ Name tx ∈ blackList.
Proof.
  intros P tx catalog blackList.
  assert (H1 : buildBlackListForPruning 100 P true 64 1000 700 catalog = Ok blackList)
    by (vm_compute; reflexivity).
  assert (H2 : tx ∈ catalog) by (apply list_elem_of_further, list_elem_of_here).
  assert (H3 : canSnapshotBePruned (Name tx) = true) by reflexivity.
  assert (H4 : isStateSnapshot (Name tx) = false) by reflexivity.
  destruct (buildBlackListForPruning_block_files 100 P 64 1000 700 catalog blackList tx
              H1 H2 H3 H4) as [Hiff _].
  split; [exact H1 | split; [exact H2 | split; [exact H3 | split; [exact H4 |
  split; [reflexivity |]]]]].
  apply Hiff. split; [reflexivity | vm_compute; discriminate].
Defined.

(** ** The download request *)

Section ProtoRequest.

Variable H : Type.
Variable String2Proto : string -> H.

Lemma BuildProtoRequest_acc (f := fun (items : list (AddItem H)) r =>
       if String.eqb (Path r) "" then items
       else if negb (String.eqb (TorrentHash r) "") then
         items ++ [ {| itemTorrentHash := Some (String2Proto (TorrentHash r));
                       itemPath := Path r |} ]
       else
         items ++ [ {| itemTorrentHash := None; itemPath := Path r |} ]) l :
  forall acc, fold_left f l acc = acc ++ fold_left f l [].
Proof.
  induction l as [| r rest IH]; intros acc; cbn [fold_left].
  - now rewrite app_nil_r.
  - rewrite IH. rewrite (IH (f [] r)). subst f. cbv beta.
    destruct (String.eqb (Path r) ""); [reflexivity |].
    destruct (negb (String.eqb (TorrentHash r) "")); now rewrite <- app_assoc.
Qed.

Lemma BuildProtoRequest_cons r rest :
  BuildProtoRequest H String2Proto (r :: rest) =
  (if String.eqb (Path r) "" then []
   else [ {| itemTorrentHash :=
               if String.eqb (TorrentHash r) "" then None
               else Some (String2Proto (TorrentHash r));
             itemPath := Path r |} ])
  ++ BuildProtoRequest H String2Proto rest.
Proof.
  unfold BuildProtoRequest. cbn [fold_left]. rewrite BuildProtoRequest_acc.
  destruct (String.eqb (Path r) ""); [reflexivity |].
  destruct (String.eqb (TorrentHash r) ""); reflexivity.
Qed.

(** X18.  [BuildProtoRequest] turns the requests with a non-empty path into
    items, one each and in the same order, and drops the others: the paths
    of the items are the non-empty paths of the requests; every item has the
    path of a request and carries a hash exactly when that request has a
    non-empty torrent hash; and the items of a concatenation are the
    concatenation of the items. *)
Theorem BuildProtoRequest_spec (downloadRequest : list DownloadRequest) :
  map itemPath (BuildProtoRequest H String2Proto downloadRequest)
  = filter (fun path => path <> "") (map Path downloadRequest)
  /\ (length (BuildProtoRequest H String2Proto downloadRequest)
      <= length downloadRequest)%nat
  /\ (forall item, item ∈ BuildProtoRequest H String2Proto downloadRequest ->
        itemPath item <> ""
        /\ exists r, r ∈ downloadRequest /\ Path r = itemPath item
             /\ itemTorrentHash item =
                if String.eqb (TorrentHash r) "" then None
                else Some (String2Proto (TorrentHash r)))
  /\ (forall more,
        BuildProtoRequest H String2Proto (downloadRequest ++ more)
        = BuildProtoRequest H String2Proto downloadRequest
          ++ BuildProtoRequest H String2Proto more).
Proof.
  induction downloadRequest as [| r rest (IH1 & IH2 & IH3 & IH4)].
  - split; [reflexivity | split; [reflexivity | split; [| reflexivity]]].
    intros item Hi. inversion Hi.
  - rewrite BuildProtoRequest_cons. cbn [map].
    destruct (String.eqb_spec (Path r) "") as [He | Hne].
    + cbn [app]. split; [| split; [| split]].
      * rewrite filter_cons_False by (intros Hc; apply Hc; exact He). exact IH1.
      * cbn [length]. lia.
      * intros item Hi. destruct (IH3 item Hi) as (Hp & q & Hq & Hrest).
        split; [exact Hp |]. exists q. split; [apply list_elem_of_further, Hq | exact Hrest].
      * intros more. cbn [app]. rewrite BuildProtoRequest_cons.
        destruct (String.eqb_spec (Path r) ""); [| contradiction]. cbn [app]. apply IH4.
    + split; [| split; [| split]].
      * rewrite filter_cons_True by exact Hne. cbn [app map itemPath]. now rewrite IH1.
      * cbn [app length]. lia.
      * intros item Hi. cbn [app] in Hi. apply elem_of_cons in Hi as [-> | Hi].
        -- cbn [itemPath itemTorrentHash]. split; [exact Hne |].
           exists r. split; [apply list_elem_of_here | auto].
        -- destruct (IH3 item Hi) as (Hp & q & Hq & Hrest).
           split; [exact Hp |]. exists q.
           split; [apply list_elem_of_further, Hq | exact Hrest].
      * intros more. cbn [app]. rewrite BuildProtoRequest_cons.
        destruct (String.eqb_spec (Path r) ""); [contradiction |].
        cbn [app]. now rewrite IH4.
Qed.

End ProtoRequest.

Lemma BuildProtoRequest_spec_witness :
  let reqs := [ NewDownloadRequest "v1-000000-000500-headers.seg" "aa";
                NewDownloadRequest "" "bb";
                NewDownloadRequest "salt-blocks.txt" "" ] in
  BuildProtoRequest string (fun s => s) reqs
  = [ {| itemTorrentHash := Some "aa"; itemPath := "v1-000000-000500-headers.seg" |};
      {| itemTorrentHash := None; itemPath := "salt-blocks.txt" |} ]
  /\ map itemPath (BuildProtoRequest string (fun s => s) reqs)
     = filter (fun path => path <> "") (map Path reqs).
Proof.
  intros reqs. split; [reflexivity |].
  exact (proj1 (BuildProtoRequest_spec string (fun s => s) reqs)).
Defined.

Section DownloadLoop.

Variable Erigon2MergeLimit : Z.
Variable DefaultStepSize : Z.
Variable ParseFileName : string -> string -> FileInfo * bool * bool.
Variable BlobSidecarsName : string.
Variable blocksPruneIsDefault : bool.
Variable IsPreMerge : Z -> bool.

Local Abbreviation loop := (downloadRequestLoop ParseFileName BlobSidecarsName
                    blocksPruneIsDefault IsPreMerge).
Local Abbreviation wanted := (downloadWanted ParseFileName BlobSidecarsName
                      blocksPruneIsDefault IsPreMerge).

Lemma downloadRequestLoop_cons flags bl p rest acc :
  loop flags bl (p :: rest) acc =
  loop flags bl rest
    (if wanted flags bl p then acc ++ [NewDownloadRequest (Name p) (Hash p)] else acc).
Proof.
  cbn [downloadRequestLoop]. unfold downloadWanted.
  repeat match goal with
         | |- context [if ?c then _ else _] => destruct c; try reflexivity
         end.
Qed.

Lemma downloadRequestLoop_closed flags bl l :
  forall acc,
  loop flags bl l acc =
  acc ++ map (fun p => NewDownloadRequest (Name p) (Hash p))
           (filter (fun p => wanted flags bl p = true) l).
Proof.
  induction l as [| p rest IH]; intros acc.
  - cbn. now rewrite app_nil_r.
  - rewrite downloadRequestLoop_cons, IH.
    destruct (wanted flags bl p) eqn:Hw.
    + rewrite filter_cons_True by exact Hw. cbn [map]. now rewrite <- app_assoc.
    + rewrite filter_cons_False by (rewrite Hw; discriminate). reflexivity.
Qed.

Lemma downloadWanted_true flags bl p :
  wanted flags bl p = true ->
  (Name p ∉ bl)
  /\ (headerchain flags = true ->
      Contains (Name p) "headers" = true \/ Contains (Name p) "bodies" = true
      \/ Name p = "salt-blocks.txt")
  /\ (DisableDownloadE3 flags = true -> isStateSnapshot (Name p) = false)
  /\ (blobs flags = false -> Contains (Name p) BlobSidecarsName = false)
  /\ (caplin flags = NoCaplin ->
      Contains (Name p) "bscblobsidecars" = true
      \/ (Contains (Name p) "beaconblocks" = false
          /\ Contains (Name p) "blobsidecars" = false
          /\ Contains (Name p) "caplin" = false)).
Proof.
  unfold downloadWanted. intros Hw.
  destruct ((caplin flags =? NoCaplin)
            && (Contains (Name p) "beaconblocks" || Contains (Name p) "blobsidecars"
                || Contains (Name p) "caplin")
            && negb (Contains (Name p) "bscblobsidecars")) eqn:C1; [discriminate |].
  destruct ((caplin flags =? OnlyCaplin) && negb (Contains (Name p) "beaconblocks")
            && negb (Contains (Name p) "blobsidecars")
            && negb (Contains (Name p) "caplin")); [discriminate |].
  destruct (isStateSnapshot (Name p) && DisableDownloadE3 flags) eqn:C3; [discriminate |].
  destruct (negb (blobs flags) && Contains (Name p) BlobSidecarsName) eqn:C4;
    [discriminate |].
  destruct (negb (caplinState flags) && Contains (Name p) "caplin/"); [discriminate |].
  destruct (headerchain flags
            && negb (Contains (Name p) "headers" || Contains (Name p) "bodies"
                     || String.eqb (Name p) "salt-blocks.txt")) eqn:C6; [discriminate |].
  destruct (negb (KeepExecutionProofs flags) && isStateHistory (Name p)
            && Contains (Name p) (Domain_String CommitmentDomain)); [discriminate |].
  destruct (negb (PersistReceiptsCacheV2 flags) && isStateSnapshot (Name p)
            && Contains (Name p) (Domain_String RCacheDomain)); [discriminate |].
  destruct (bool_decide_reflect (Name p ∈ bl)) as [| Hbl]; [discriminate |].
  split; [exact Hbl | split; [| split; [| split]]].
  - intros Hh. rewrite Hh in C6. cbn [andb] in C6. apply negb_false_iff in C6.
    apply orb_true_iff in C6 as [C6 | C6]; [apply orb_true_iff in C6 as [C6 | C6]; auto |].
    right. right. apply String.eqb_eq, C6.
  - intros Hd. rewrite Hd, andb_true_r in C3. exact C3.
  - intros Hb. rewrite Hb in C4. exact C4.
  - intros Hc. rewrite Hc in C1. change (NoCaplin =? NoCaplin) with true in C1.
    cbn [andb] in C1.
    destruct (Contains (Name p) "bscblobsidecars"); [auto |]. right.
    rewrite andb_true_r in C1.
    apply orb_false_iff in C1 as [C1 C1c]. apply orb_false_iff in C1 as [C1a C1b]. auto.
Qed.

(** X19.  The download requests that [WaitForDownloader] builds follow the
    catalog in order, each with the name and hash of its entry.  A requested
    entry is never in the blacklist; in header-chain mode its name contains
    [headers] or [bodies] or is [salt-blocks.txt]; with [DisableDownloadE3]
    it is no state file; without [blobs] its name does not contain the
    blob-sidecar kind; without Caplin its name contains none of
    [beaconblocks], [blobsidecars], [caplin], unless it contains
    [bscblobsidecars].  And every entry that no filter excludes is
    requested. *)
Theorem downloadRequestLoop_spec (flags : SyncFlags) (blackList : gset string)
  (preverified : list PreverifiedItem) :
  let reqs := loop flags blackList preverified [] in
  map Path reqs `sublist_of` map Name preverified
  /\ (forall r, r ∈ reqs ->
        exists p, p ∈ preverified /\ r = NewDownloadRequest (Name p) (Hash p)
          /\ (Name p ∉ blackList)
          /\ (headerchain flags = true ->
              Contains (Name p) "headers" = true \/ Contains (Name p) "bodies" = true
              \/ Name p = "salt-blocks.txt")
          /\ (DisableDownloadE3 flags = true -> isStateSnapshot (Name p) = false)
          /\ (blobs flags = false -> Contains (Name p) BlobSidecarsName = false)
          /\ (caplin flags = NoCaplin ->
              Contains (Name p) "bscblobsidecars" = true
              \/ (Contains (Name p) "beaconblocks" = false
                  /\ Contains (Name p) "blobsidecars" = false
                  /\ Contains (Name p) "caplin" = false)))
  /\ (forall p, p ∈ preverified -> wanted flags blackList p = true ->
        NewDownloadRequest (Name p) (Hash p) ∈ reqs).
Proof.
  intros reqs. subst reqs. rewrite downloadRequestLoop_closed. cbn [app].
  split; [| split].
  - induction preverified as [| p rest IH]; [constructor |].
    destruct (wanted flags blackList p) eqn:Hw.
    + rewrite filter_cons_True by exact Hw. cbn [map Path NewDownloadRequest].
      apply sublist_skip. exact IH.
    + rewrite filter_cons_False by (rewrite Hw; discriminate). cbn [map].
      apply sublist_cons. exact IH.
  - intros r Hr. apply list_elem_of_fmap in Hr as (p & -> & Hp).
    apply list_elem_of_filter in Hp as [Hw Hp].
    exists p. split; [exact Hp | split; [reflexivity |]].
    apply downloadWanted_true, Hw.
  - intros p Hp Hw. apply list_elem_of_fmap. exists p. split; [reflexivity |].
    apply list_elem_of_filter. split; assumption.
Qed.

Lemma blackListEntry_history ParseFileName' stepPrune blockPrune name to :
  isStateHistory name = true -> parseStateTo name = Ok to -> to <= stepPrune ->
  blackListEntry ParseFileName' stepPrune blockPrune name = Ok true.
Proof.
  intros Hh Hto Hle. unfold blackListEntry.
  rewrite (isStateHistory_prunable _ Hh), (isStateHistory_state _ Hh), Hto.
  cbn [negb obind]. destruct (Z.ltb_spec stepPrune to); [lia | reflexivity].
Qed.

(** X20.  From the catalog to the request in [WaitForDownloader]: in
    header-chain mode, or when no pruning is wanted, no blacklist is
    computed and the request is the filtered catalog.  Otherwise, when the
    request is built, the largest [domain] step of the catalog and the
    minimal step to download were computed without error, and no
    state-history file whose range ends at or below that minimal step is
    requested. *)
Theorem planDownloadRequest_spec (flags : SyncFlags) (br : blockReader)
  (blockPrune historyPrune : Z) (wantToPrune : bool)
  (preverified : list PreverifiedItem) :
  let plan := planDownloadRequest Erigon2MergeLimit DefaultStepSize ParseFileName
                BlobSidecarsName blocksPruneIsDefault IsPreMerge
                flags br blockPrune historyPrune wantToPrune preverified in
  (headerchain flags = true \/ wantToPrune = false ->
   plan = Ok (loop flags ∅ preverified []))
  /\ (forall reqs, headerchain flags = false -> wantToPrune = true -> plan = Ok reqs ->
      exists maxStateStep minBlockToDownload minStepToDownload,
        getMaxStepRangeInSnapshots preverified = Ok maxStateStep
        /\ getMinimumBlocksToDownload DefaultStepSize br maxStateStep historyPrune
           = (minBlockToDownload, minStepToDownload, None)
        /\ forall p to r,
             p ∈ preverified -> isStateHistory (Name p) = true ->
             parseStateTo (Name p) = Ok to -> to <= minStepToDownload ->
             r ∈ reqs -> Path r <> Name p).
Proof.
  intros plan. subst plan. unfold planDownloadRequest. split.
  - intros [-> | ->]; [| rewrite andb_false_r]; reflexivity.
  - intros reqs -> -> Hplan. cbn [negb andb] in Hplan.
    destruct (getMaxStepRangeInSnapshots preverified) as [maxStep | e |];
      cbn [obind] in Hplan; try discriminate.
    destruct (getMinimumBlocksToDownload DefaultStepSize br maxStep historyPrune)
      as [[minB minStep] [e |]] eqn:Hmin; cbn [obind] in Hplan; try discriminate.
    destruct (buildBlackListForPruning Erigon2MergeLimit ParseFileName true
                minStep minB blockPrune preverified) as [bl | e |] eqn:Hbl;
      cbn [obind] in Hplan; try discriminate.
    injection Hplan as <-.
    exists maxStep, minB, minStep. split; [reflexivity | split; [exact Hmin |]].
    intros p to r Hp Hh Hto Hle Hr Heq.
    unfold buildBlackListForPruning in Hbl. cbn [negb] in Hbl.
    apply blackListLoop_elem in Hbl as [_ Hin].
    assert (Hpbl : Name p ∈ bl).
    { apply Hin. right. exists p. split; [exact Hp | split; [reflexivity |]].
      eapply blackListEntry_history; eauto. }
    rewrite downloadRequestLoop_closed in Hr. cbn [app] in Hr.
    apply list_elem_of_fmap in Hr as (q & -> & Hq).
    apply list_elem_of_filter in Hq as [Hw _].
    apply downloadWanted_true in Hw as [Hnot _].
    cbn [Path NewDownloadRequest] in Heq. rewrite Heq in Hnot. contradiction.
Qed.

End DownloadLoop.

Lemma planDownloadRequest_spec_witness :
  let P : string -> string -> FileInfo * bool * bool :=
    fun _ name => ({| From := 0; To := 500 |}, false,
                   String.eqb name "v1-000000-000500-transactions.seg"
                   || String.eqb name "v1-000000-000500-headers.seg") in
  let pruned := {| Name := "idx/v1-accounts.0-32.ef"; Hash := "b" |} in
  let catalog := [ {| Name := "domain/v1-accounts.0-64.kv"; Hash := "a" |}; pruned;
                   {| Name := "idx/v1-accounts.32-64.ef"; Hash := "c" |};
                   {| Name := "v1-000000-000500-transactions.seg"; Hash := "d" |};
                   {| Name := "v1-000000-000500-headers.seg"; Hash := "e" |};
                   {| Name := "v1-000000-000500-beaconblocks.seg"; Hash := "f" |} ] in
  let flags := {| headerchain := false; blobs := true; caplinState := true;
                  caplin := NoCaplin; DisableDownloadE3 := false;
                  KeepExecutionProofs := true; PersistReceiptsCacheV2 := true |} in
  let br := {| SegmentsMax := 1000;
               frozenBodies := [ {| blockNum := 5; baseTxNum := 400; txAmount := 3 |} ];
               iterateErr := None |} in
  let reqs := [ NewDownloadRequest "domain/v1-accounts.0-64.kv" "a";
                NewDownloadRequest "idx/v1-accounts.32-64.ef" "c";
                NewDownloadRequest "v1-000000-000500-transactions.seg" "d";
                NewDownloadRequest "v1-000000-000500-headers.seg" "e" ] in
  headerchain flags = false
  /\ planDownloadRequest 100 10 P "blobsidecars" false (fun _ => false)
       flags br 700 5 true catalog = Ok reqs
  /\ getMinimumBlocksToDownload 10 br 64 5 = (5, 39, None)
  /\ forall r, r ∈ reqs -> Path r <> Name pruned.
Proof.
  intros P pruned catalog flags br reqs.
  assert (H1 : headerchain flags = false) by reflexivity.
  assert (H2 : planDownloadRequest 100 10 P "blobsidecars" false (fun _ => false)
                 flags br 700 5 true catalog = Ok reqs) by (vm_compute; reflexivity).
  destruct (planDownloadRequest_spec 100 10 P "blobsidecars" false (fun _ => false)
              flags br 700 5 true catalog) as [_ H].
  destruct (H reqs H1 eq_refl H2) as (maxStep & minB & minStep & Hmax & Hmin & Hno).
  split; [exact H1 | split; [exact H2 | split; [reflexivity |]]].
  assert (Hm : maxStep = 64) by (vm_compute in Hmax; congruence). subst maxStep.
  assert (Hs : minStep = 39) by (vm_compute in Hmin; congruence). subst minStep.
  intros r Hr.
  apply (Hno pruned 32 r); [apply list_elem_of_further, list_elem_of_here | reflexivity
                           | reflexivity | lia | exact Hr].
Defined.

Lemma downloadRequestLoop_spec_witness :
  let P : string -> string -> FileInfo * bool * bool :=
    fun _ _ => ({| From := 0; To := 0 |}, false, false) in
  let headers := {| Name := "v1-000000-000500-headers.seg"; Hash := "e" |} in
  let catalog := [ {| Name := "domain/v1-accounts.0-64.kv"; Hash := "a" |}; headers;
                   {| Name := "v1-000000-000500-transactions.seg"; Hash := "d" |} ] in
  let flags := {| headerchain := true; blobs := true; caplinState := true;
                  caplin := AlsoCaplin; DisableDownloadE3 := false;
                  KeepExecutionProofs := true; PersistReceiptsCacheV2 := true |} in
  headers ∈ catalog
  /\ downloadWanted P "blobsidecars" false (fun _ => false) flags ∅ headers = true
  /\ downloadRequestLoop P "blobsidecars" false (fun _ => false) flags ∅ catalog []
     = [ NewDownloadRequest "v1-000000-000500-headers.seg" "e" ]
  /\ NewDownloadRequest (Name headers) (Hash headers)
     ∈ downloadRequestLoop P "blobsidecars" false (fun _ => false) flags ∅ catalog [].
Proof.
  intros P headers catalog flags.
  assert (H1 : headers ∈ catalog) by (apply list_elem_of_further, list_elem_of_here).
  assert (H2 : downloadWanted P "blobsidecars" false (fun _ => false) flags ∅ headers
               = true) by reflexivity.
  destruct (downloadRequestLoop_spec P "blobsidecars" false (fun _ => false)
              flags ∅ catalog) as (_ & _ & H).
  split; [exact H1 | split; [exact H2 | split; [reflexivity | exact (H headers H1 H2)]]].
Defined.

(** ** [getMinimumBlocksToDownload], when bodies match *)

Lemma fold_callback_min_spec D frozen stateTxNum pruneTo bodies :
  is_u64 frozen ->
  Forall (fun b => is_u64 (blockNum b)) bodies ->
  forall m s,
  let m' := (fold_left (fun c b => (bodyCallback D frozen stateTxNum pruneTo c b).1)
               bodies (m, s)).1 in
  m' <= m
  /\ (forall b, b ∈ bodies -> baseTxNum b < stateTxNum ->
        m' <= frozen - Z.min frozen (blockNum b))
  /\ (m' = m \/ exists b, b ∈ bodies /\ baseTxNum b < stateTxNum
                          /\ m' = frozen - Z.min frozen (blockNum b)).
Proof.
  intros Hf Hall. induction Hall as [| b rest Hb _ IH]; intros m s; cbn [fold_left].
  - cbn. split; [lia | split; [| auto]]. intros b Hb. inversion Hb.
  - assert (E : bodyCallback D frozen stateTxNum pruneTo (m, s) b =
                (if stateTxNum <=? baseTxNum b then m
                 else Z.min m (frozen - Z.min frozen (blockNum b)),
                 (bodyCallback D frozen stateTxNum pruneTo (m, s) b).1.2, None)).
    { unfold bodyCallback. destruct (stateTxNum <=? baseTxNum b); [reflexivity |].
      cbn [fst snd]. f_equal. f_equal.
      unfold is_u64 in *.
      destruct (Z.ltb_spec (blockNum b) frozen).
      - unfold sub64. rewrite wrap64_small by (unfold is_u64; lia).
        destruct (Z.ltb_spec (frozen - blockNum b) m); lia.
      - destruct (Z.ltb_spec 0 m); lia. }
    rewrite E. cbn [fst]. clear E.
    set (s' := (bodyCallback D frozen stateTxNum pruneTo (m, s) b).1.2). clearbody s'.
    destruct (Z.leb_spec stateTxNum (baseTxNum b)) as [Hno | Hyes].
    + specialize (IH m s'). cbv zeta in IH. destruct IH as (Hle & Hbound & Hatt).
      split; [exact Hle | split].
      * intros q Hq Hqlt. apply elem_of_cons in Hq as [-> | Hq]; [lia | auto].
      * destruct Hatt as [Hatt | (q & Hq & Hqlt & Hqm)]; [auto |].
        right. exists q. split; [apply list_elem_of_further, Hq | auto].
    + specialize (IH (Z.min m (frozen - Z.min frozen (blockNum b))) s').
      cbv zeta in IH. destruct IH as (Hle & Hbound & Hatt).
      split; [lia | split].
      * intros q Hq Hqlt. apply elem_of_cons in Hq as [-> | Hq]; [lia | auto].
      * destruct Hatt as [Hatt | (q & Hq & Hqlt & Hqm)].
        -- destruct (Z_le_dec m (frozen - Z.min frozen (blockNum b))).
           ++ left. lia.
           ++ right. exists b. split; [apply list_elem_of_here | split; [exact Hyes | lia]].
        -- right. exists q. split; [apply list_elem_of_further, Hq | auto].
Qed.

(** X21.  When the iteration ends without an error and visits at least one
    body whose [baseTxNum] is below [stateTxNum] (all block numbers and
    [SegmentsMax] being [uint64] values), the returned [minBlockToDownload]
    is the largest [min(frozenBlocks, blockNum)] over those bodies: it is
    attained by one of them, bounds all of them, and never exceeds
    [frozenBlocks]. *)
Theorem getMinimumBlocksToDownload_matched
  (DefaultStepSize : Z) (br : blockReader) (maxStateStep historyPruneTo : Z) :
  let frozenBlocks := SegmentsMax br in
  let stateTxNum := mul64 maxStateStep DefaultStepSize in
  let r := getMinimumBlocksToDownload DefaultStepSize br maxStateStep historyPruneTo in
  iterateErr br = None ->
  is_u64 frozenBlocks ->
  Forall (fun b => is_u64 (blockNum b)) (frozenBodies br) ->
  (exists b, b ∈ frozenBodies br /\ baseTxNum b < stateTxNum) ->
  r.2 = None
  /\ r.1.1 <= frozenBlocks
  /\ (exists b, b ∈ frozenBodies br /\ baseTxNum b < stateTxNum
                /\ r.1.1 = Z.min frozenBlocks (blockNum b))
  /\ (forall b, b ∈ frozenBodies br -> baseTxNum b < stateTxNum ->
        Z.min frozenBlocks (blockNum b) <= r.1.1).
Proof.
  intros frozenBlocks stateTxNum r He Hf Hall (b0 & Hb0 & Hlt0).
  subst r frozenBlocks stateTxNum.
  destruct (getMinimumBlocksToDownload_unfold DefaultStepSize br maxStateStep historyPruneTo)
    as [_ ->].
  rewrite He. cbn [fst snd].
  destruct (fold_callback_min_spec DefaultStepSize (SegmentsMax br)
              (mul64 maxStateStep DefaultStepSize) historyPruneTo (frozenBodies br)
              Hf Hall MaxUint64 MaxUint32) as (Hle & Hbound & Hatt).
  cbv zeta in Hle, Hbound, Hatt.
  set (m := (fold_left _ (frozenBodies br) (MaxUint64, MaxUint32)).1) in *.
  clearbody m.
  rewrite Forall_forall in Hall.
  assert (Hb0u : is_u64 (blockNum b0)) by (apply Hall, Hb0).
  pose proof (Hbound b0 Hb0 Hlt0) as Hm0.
  assert (Hex : exists b, b ∈ frozenBodies br
                 /\ baseTxNum b < mul64 maxStateStep DefaultStepSize
                 /\ m = SegmentsMax br - Z.min (SegmentsMax br) (blockNum b)).
  { destruct Hatt as [Hatt | Hatt]; [| exact Hatt].
    exists b0. split; [exact Hb0 | split; [exact Hlt0 |]].
    unfold is_u64, MaxUint64 in *. lia. }
  destruct Hex as (b & Hb & Hblt & Hmb).
  assert (Hbu : is_u64 (blockNum b)).
  { apply Hall, Hb. }
  assert (Hsub : sub64 (SegmentsMax br) m = Z.min (SegmentsMax br) (blockNum b)).
  { unfold sub64. rewrite wrap64_small; unfold is_u64 in *; lia. }
  rewrite Hsub. split; [reflexivity | split; [lia | split]].
  - exists b. auto.
  - intros q Hq Hqlt. specialize (Hbound q Hq Hqlt). lia.
Qed.

Lemma getMinimumBlocksToDownload_matched_witness :
  let br := {| SegmentsMax := 1000;
               frozenBodies := [ {| blockNum := 5; baseTxNum := 100; txAmount := 3 |};
                                 {| blockNum := 7; baseTxNum := 400; txAmount := 9 |};
                                 {| blockNum := 9; baseTxNum := 900; txAmount := 1 |} ];
               iterateErr := None |} in
  iterateErr br = None /\ is_u64 (SegmentsMax br)
  /\ Forall (fun b => is_u64 (blockNum b)) (frozenBodies br)
  /\ (exists b, b ∈ frozenBodies br /\ baseTxNum b < mul64 64 10)
  /\ (getMinimumBlocksToDownload 10 br 64 7).1.1 <= SegmentsMax br
  /\ getMinimumBlocksToDownload 10 br 64 7 = (7, 39, None).
Proof.
  intros br.
  assert (Hu : forall z, 0 <= z < 2000 -> is_u64 z)
    by (intros z Hz; unfold is_u64; rewrite modulus_eq; lia).
  assert (H1 : iterateErr br = None) by reflexivity.
  assert (H2 : is_u64 (SegmentsMax br)) by (apply Hu; cbn; lia).
  assert (H3 : Forall (fun b => is_u64 (blockNum b)) (frozenBodies br))
    by (repeat constructor; apply Hu; cbn; lia).
  assert (H4 : exists b, b ∈ frozenBodies br /\ baseTxNum b < mul64 64 10).
  { exists {| blockNum := 5; baseTxNum := 100; txAmount := 3 |}.
    split; [apply list_elem_of_here | reflexivity]. }
  destruct (getMinimumBlocksToDownload_matched 10 br 64 7 H1 H2 H3 H4) as (_ & Hle & _).
  split; [exact H1 | split; [exact H2 | split; [exact H3 | split; [exact H4 |
  split; [exact Hle | reflexivity]]]]].
Defined.

Lemma fold_callback_step_spec D frozen stateTxNum pruneTo bodies :
  forall m s,
  let s' := (fold_left (fun c b => (bodyCallback D frozen stateTxNum pruneTo c b).1)
               bodies (m, s)).2 in
  (s' = s /\ Forall (fun b => blockNum b <> pruneTo) bodies)
  \/ (exists b, b ∈ bodies /\ blockNum b = pruneTo
        /\ s' = if baseTxNum b <? D - 1 then 0
                else sub64 (baseTxNum b) (D - 1) / D).
Proof.
  induction bodies as [| b rest IH]; intros m s; cbn [fold_left].
  - left. split; [reflexivity | constructor].
  - destruct (bodyCallback D frozen stateTxNum pruneTo (m, s) b) as [[m1 s1] e] eqn:E.
    cbn [fst]. specialize (IH m1 s1). cbv zeta in IH.
    assert (Es : s1 = if blockNum b =? pruneTo
                      then if baseTxNum b <? D - 1 then 0
                           else sub64 (baseTxNum b) (D - 1) / D
                      else s).
    { unfold bodyCallback in E. destruct (stateTxNum <=? baseTxNum b);
        injection E as _ <- _; reflexivity. }
    destruct IH as [[Hs Hno] | (q & Hq & Hqb & Hqs)].
    + destruct (Z.eqb_spec (blockNum b) pruneTo) as [Hb | Hb].
      * right. exists b. split; [apply list_elem_of_here | split; [exact Hb |]].
        rewrite Hs, Es. reflexivity.
      * left. split; [rewrite Hs, Es; reflexivity | constructor; assumption].
    + right. exists q. split; [apply list_elem_of_further, Hq | auto].
Qed.

(** X22.  When the iteration ends without an error and visits a body whose
    [blockNum] is [historyPruneTo], the returned [minStateStepToDownload] is
    computed from the [baseTxNum] of such a body: 0 when it is below
    [DefaultStepSize - 1], and [(baseTxNum - (DefaultStepSize - 1)) /
    DefaultStepSize] otherwise; for a positive step size and a [uint64]
    [baseTxNum] the step is not negative and begins at or before that
    transaction number. *)
Theorem getMinimumBlocksToDownload_step
  (DefaultStepSize : Z) (br : blockReader) (maxStateStep historyPruneTo : Z) :
  let r := getMinimumBlocksToDownload DefaultStepSize br maxStateStep historyPruneTo in
  iterateErr br = None ->
  0 < DefaultStepSize ->
  Forall (fun b => is_u64 (baseTxNum b)) (frozenBodies br) ->
  (exists b, b ∈ frozenBodies br /\ blockNum b = historyPruneTo) ->
  exists b, b ∈ frozenBodies br /\ blockNum b = historyPruneTo
    /\ r.1.2 = (if baseTxNum b <? DefaultStepSize - 1 then 0
                else (baseTxNum b - (DefaultStepSize - 1)) / DefaultStepSize)
    /\ 0 <= r.1.2
    /\ r.1.2 * DefaultStepSize <= baseTxNum b.
Proof.
  intros r He HD Hall (b0 & Hb0 & Hp0). subst r.
  destruct (getMinimumBlocksToDownload_unfold DefaultStepSize br maxStateStep historyPruneTo)
    as [_ ->].
  rewrite He. cbn [fst snd].
  destruct (fold_callback_step_spec DefaultStepSize (SegmentsMax br)
              (mul64 maxStateStep DefaultStepSize) historyPruneTo (frozenBodies br)
              MaxUint64 MaxUint32) as [[_ Hno] | (b & Hb & Hbp & Hs)].
  - rewrite Forall_forall in Hno. exfalso. exact (Hno b0 Hb0 Hp0).
  - exists b. split; [exact Hb | split; [exact Hbp |]].
    rewrite Hs. rewrite Forall_forall in Hall. pose proof (Hall b Hb) as Hu.
    unfold is_u64 in Hu.
    destruct (Z.ltb_spec (baseTxNum b) (DefaultStepSize - 1)) as [Hlt | Hge].
    + split; [reflexivity | lia].
    + unfold sub64. rewrite wrap64_small by (unfold is_u64; lia).
      split; [reflexivity |].
      pose proof (Z.div_mod (baseTxNum b - (DefaultStepSize - 1)) DefaultStepSize
                    ltac:(lia)) as E.
      pose proof (Z.mod_pos_bound (baseTxNum b - (DefaultStepSize - 1)) DefaultStepSize HD).
      assert (0 <= (baseTxNum b - (DefaultStepSize - 1)) / DefaultStepSize)
        by (apply Z.div_pos; lia).
      split; [assumption | nia].
Qed.

Lemma getMinimumBlocksToDownload_step_witness :
  let br := {| SegmentsMax := 1000;
               frozenBodies := [ {| blockNum := 5; baseTxNum := 100; txAmount := 3 |};
                                 {| blockNum := 7; baseTxNum := 400; txAmount := 9 |} ];
               iterateErr := None |} in
  iterateErr br = None /\ 0 < 10
  /\ Forall (fun b => is_u64 (baseTxNum b)) (frozenBodies br)
  /\ (exists b, b ∈ frozenBodies br /\ blockNum b = 7)
  /\ (exists b, b ∈ frozenBodies br /\ blockNum b = 7
        /\ (getMinimumBlocksToDownload 10 br 64 7).1.2 * 10 <= baseTxNum b)
  /\ (getMinimumBlocksToDownload 10 br 64 7).1.2 = 39.
Proof.
  intros br.
  assert (Hu : forall z, 0 <= z < 2000 -> is_u64 z)
    by (intros z Hz; unfold is_u64; rewrite modulus_eq; lia).
  assert (H1 : iterateErr br = None) by reflexivity.
  assert (H2 : 0 < 10) by lia.
  assert (H3 : Forall (fun b => is_u64 (baseTxNum b)) (frozenBodies br))
    by (repeat constructor; apply Hu; cbn; lia).
  assert (H4 : exists b, b ∈ frozenBodies br /\ blockNum b = 7).
  { exists {| blockNum := 7; baseTxNum := 400; txAmount := 9 |}.
    split; [apply list_elem_of_further, list_elem_of_here | reflexivity]. }
  destruct (getMinimumBlocksToDownload_step 10 br 64 7 H1 H2 H3 H4)
    as (b & Hb & Hbp & _ & _ & Hle).
  split; [exact H1 | split; [exact H2 | split; [exact H3 | split; [exact H4 | split]]]].
  - exists b. auto.
  - reflexivity.
Defined.

(** ** More on the history reader *)

(** X23.  [ReadAccountData] returns no account, next to the error of
    [GetAsOf], when the lookup at the reader's [txNum] fails, finds nothing
    or finds empty bytes; otherwise it returns the account that
    [DeserialiseV3] decodes, or, when decoding fails, no account and the
    decoder's error wrapped with the operation and the address.
    [ReadAccountDataForDebug] returns the same. *)
Theorem ReadAccountData_spec
  (DeserialiseV3 : bytes -> Account * option error)
  (hr : HistoryReaderV3) (address enc : bytes) (ok : bool) (err : option error) :
  GetAsOf (ttx hr) AccountsDomain address (txNum hr) = (enc, ok, err) ->
  let r := result (ReadAccountData DeserialiseV3 address hr) in
  (err <> None \/ ok = false \/ enc = [] -> r = (None, err))
  /\ (forall a, err = None -> ok = true -> enc <> [] ->
        DeserialiseV3 enc = (a, None) -> r = (Some a, None))
  /\ (forall a e, err = None -> ok = true -> enc <> [] ->
        DeserialiseV3 enc = (a, Some e) ->
        r = (None, Some (ErrWrapped "ReadAccountData" address e)))
  /\ ReadAccountDataForDebug DeserialiseV3 address hr
     = ReadAccountData DeserialiseV3 address hr.
Proof.
  intros Hget r. subst r. unfold ReadAccountDataForDebug, ReadAccountData. run_rd.
  rewrite Hget. split; [| split; [| split; [| reflexivity]]].
  - intros H.
    assert (negb (isNil err) || negb ok || (length enc =? 0)%nat = true) as ->.
    { destruct H as [H | [-> | ->]].
      - destruct err; [reflexivity | contradiction].
      - destruct (isNil err); reflexivity.
      - destruct (isNil err), ok; reflexivity. }
    destruct (trace hr); reflexivity.
  - intros a -> -> Henc Hdec.
    destruct enc as [| b enc]; [contradiction |]. cbn [isNil negb orb length Nat.eqb].
    rewrite Hdec. destruct (trace hr); reflexivity.
  - intros a e -> -> Henc Hdec.
    destruct enc as [| b enc]; [contradiction |]. cbn [isNil negb orb length Nat.eqb].
    rewrite Hdec. reflexivity.
Qed.

Lemma ReadAccountData_spec_witness :
  let decode : bytes -> Account * option error :=
    fun enc => match enc with
               | [x01] => ({| Nonce := 7; Balance := 9; CodeHash := []; Incarnation := 1 |}, None)
               | _ => ({| Nonce := 0; Balance := 0; CodeHash := []; Incarnation := 0 |},
                       Some (ErrExternal "malformed"))
               end in
  let tx := {| GetAsOf := fun d k t =>
                 if bool_decide (k = [xaa]) then ([x01], true, None)
                 else if bool_decide (k = [xbb]) then ([x02], true, None)
                 else ([], false, None);
               HistoryStartFrom := fun _ => 0 |} in
  let hr := {| txNum := 50; trace := true; ttx := tx; composite := [] |} in
  GetAsOf (ttx hr) AccountsDomain [xcc] (txNum hr) = ([], false, None)
  /\ result (ReadAccountData decode [xcc] hr) = (None, None)
  /\ result (ReadAccountData decode [xaa] hr)
     = (Some {| Nonce := 7; Balance := 9; CodeHash := []; Incarnation := 1 |}, None)
  /\ result (ReadAccountData decode [xbb] hr)
     = (None, Some (ErrWrapped "ReadAccountData" [xbb] (ErrExternal "malformed"))).
Proof.
  intros decode tx hr.
  assert (H : GetAsOf (ttx hr) AccountsDomain [xcc] (txNum hr) = ([], false, None))
    by reflexivity.
  destruct (ReadAccountData_spec decode hr [xcc] _ _ _ H) as [Habs _].
  split; [exact H | split; [| split; reflexivity]].
  apply Habs. right. left. reflexivity.
Defined.

(** X24.  [ReadAccountCodeSize] returns the length of the code that
    [ReadAccountCode] returns, with the same error, whatever incarnations
    are passed; unlike [ReadAccountCode] it never prints, also with the
    trace flag set, and it leaves the reader as it was. *)
Theorem ReadAccountCodeSize_agrees
  (hr : HistoryReaderV3) (address : bytes) (incarnation incarnation' : Z) :
  let size := ReadAccountCodeSize address incarnation hr in
  let code := ReadAccountCode address incarnation' hr in
  result size = (Z.of_nat (length (result code).1), (result code).2)
  /\ 0 <= (result size).1
  /\ printed size = []
  /\ after size = hr
  /\ after code = hr.
Proof.
  intros size code. subst size code. unfold ReadAccountCodeSize, ReadAccountCode. run_rd.
  destruct (GetAsOf (ttx hr) CodeDomain address (txNum hr)) as [[enc ok] err].
  destruct (trace hr); cbn; repeat split; lia.
Qed.

(** X25.  Every read of the reader leaves its transaction number, its
    handle and its trace flag as they were; only [ReadAccountStorage]
    changes the scratch buffer (to the composite key); a read prints at most
    one line and, with the trace flag cleared, none.  A transaction number
    set by [SetTxNum] is what [GetTxNum] returns and what the next read
    queries [GetAsOf] at. *)
Theorem reads_keep_the_reader
  (DeserialiseV3 DecodeForStorage : bytes -> Account * option error)
  (op : ReadOp) (hr : HistoryReaderV3) (n : Z) :
  let r := runOp DeserialiseV3 DecodeForStorage op hr in
  txNum (after r) = txNum hr /\ ttx (after r) = ttx hr /\ trace (after r) = trace hr
  /\ composite (after r)
     = match op with
       | OpReadAccountStorage address _ key => address ++ key
       | _ => composite hr
       end
  /\ (length (printed r) <= 1)%nat
  /\ (trace hr = false -> printed r = [])
  /\ result (GetTxNum (after (SetTxNum n hr))) = n
  /\ (forall address incarnation,
        result (ReadAccountCode address incarnation (after (SetTxNum n hr)))
        = ((GetAsOf (ttx hr) CodeDomain address n).1.1,
           (GetAsOf (ttx hr) CodeDomain address n).2)).
Proof.
  intros r. subst r.
  assert (Hcode : forall address incarnation,
            result (ReadAccountCode address incarnation (after (SetTxNum n hr)))
            = ((GetAsOf (ttx hr) CodeDomain address n).1.1,
               (GetAsOf (ttx hr) CodeDomain address n).2)).
  { intros address incarnation. unfold ReadAccountCode. run_rd.
    destruct (GetAsOf (ttx hr) CodeDomain address n) as [[enc ok] err].
    destruct (trace hr); reflexivity. }
  destruct op as [address | address incarnation key | address incarnation
                 | address incarnation | address]; unfold runOp.
  - unfold ReadAccountData. run_rd.
    destruct (GetAsOf (ttx hr) AccountsDomain address (txNum hr)) as [[enc ok] err].
    destruct (negb (isNil err) || negb ok || (length enc =? 0)%nat).
    + destruct (trace hr) eqn:Ht; cbn; repeat split; try lia; try congruence; auto.
    + destruct (DeserialiseV3 enc) as [a [e |]].
      * cbn. repeat split; try lia; auto.
      * destruct (trace hr) eqn:Ht; cbn; repeat split; try lia; try congruence; auto.
  - run_rd. rewrite ReadAccountStorage_unfold.
    destruct (trace hr) eqn:Ht; cbn; repeat split; try lia; try congruence; auto.
  - unfold ReadAccountCode. run_rd.
    destruct (GetAsOf (ttx hr) CodeDomain address (txNum hr)) as [[enc ok] err].
    destruct (trace hr) eqn:Ht; cbn; repeat split; try lia; try congruence; auto.
  - unfold ReadAccountCodeSize. run_rd.
    destruct (GetAsOf (ttx hr) CodeDomain address (txNum hr)) as [[enc ok] err].
    cbn. repeat split; try lia; auto.
  - unfold ReadAccountIncarnation. run_rd.
    destruct (GetAsOf (ttx hr) AccountsDomain address (txNum hr)) as [[enc ok] err].
    destruct (negb (isNil err) || negb ok || (length enc =? 0)%nat).
    + destruct (trace hr) eqn:Ht; cbn; repeat split; try lia; try congruence; auto.
    + destruct (DecodeForStorage enc) as [a [e |]].
      * cbn. repeat split; try lia; auto.
      * destruct (Incarnation a =? 0); destruct (trace hr) eqn:Ht; cbn; repeat split;
          try lia; try congruence; auto.
Qed.

Lemma reads_keep_the_reader_witness :
  let decode : bytes -> Account * option error :=
    fun _ => ({| Nonce := 0; Balance := 0; CodeHash := []; Incarnation := 0 |}, None) in
  let tx := {| GetAsOf := fun d k t => if 10 <=? t then ([x60], true, None)
                                        else ([], false, None);
               HistoryStartFrom := fun _ => 0 |} in
  let hr := {| txNum := 1; trace := false; ttx := tx; composite := [] |} in
  trace hr = false
  /\ printed (runOp decode decode (OpReadAccountCode [xaa] 0) hr) = []
  /\ result (ReadAccountCode [xaa] 0 hr) = ([], None)
  /\ result (ReadAccountCode [xaa] 0 (after (SetTxNum 12 hr))) = ([x60], None).
Proof.
  intros decode tx hr.
  assert (H : trace hr = false) by reflexivity.
  destruct (reads_keep_the_reader decode decode (OpReadAccountCode [xaa] 0) hr 12)
    as (_ & _ & _ & _ & _ & Hp & _ & Hc).
  split; [exact H | split; [exact (Hp H) | split; [reflexivity |]]].
  rewrite Hc. reflexivity.
Defined.

(** ** The table configuration *)

Lemma ensureTables_lookup names :
  forall cfg name,
  ensureTables names cfg !! name =
  match cfg !! name with
  | Some item => Some item
  | None => if decide (name ∈ names) then Some zeroItem else None
  end.
Proof.
  unfold ensureTables.
  induction names as [| n rest IH]; intros cfg name; cbn [fold_left].
  - destruct (cfg !! name); [reflexivity |].
    destruct (decide (name ∈ [])) as [H | _]; [inversion H | reflexivity].
  - rewrite IH. unfold ensureOne.
    destruct (decide (n = name)) as [-> | Hne].
    + destruct (cfg !! name) as [item |] eqn:E.
      * rewrite E. reflexivity.
      * rewrite lookup_insert_eq.
        destruct (decide (name ∈ name :: rest)) as [_ | H]; [reflexivity |].
        exfalso. apply H, list_elem_of_here.
    + assert (Hl : (match cfg !! n with
                    | Some _ => cfg
                    | None => <[n:=zeroItem]> cfg
                    end) !! name = cfg !! name).
      { destruct (cfg !! n); [reflexivity | now rewrite lookup_insert_ne]. }
      rewrite Hl. destruct (cfg !! name); [reflexivity |].
      destruct (decide (name ∈ rest)) as [H | H],
               (decide (name ∈ n :: rest)) as [H' | H']; try reflexivity.
      * exfalso. apply H', list_elem_of_further, H.
      * exfalso. apply elem_of_cons in H' as [-> | H']; [apply Hne; reflexivity | auto].
Qed.

Lemma asDeprecated_idem item : asDeprecated (asDeprecated item) = asDeprecated item.
Proof. reflexivity. Qed.

Lemma deprecateTables_lookup names :
  forall cfg name,
  deprecateTables names cfg !! name =
  if decide (name ∈ names)
  then Some (asDeprecated (default zeroItem (cfg !! name)))
  else cfg !! name.
Proof.
  unfold deprecateTables.
  induction names as [| n rest IH]; intros cfg name; cbn [fold_left].
  - destruct (decide (name ∈ [])) as [H | _]; [inversion H | reflexivity].
  - rewrite IH. unfold deprecateOne, ensureOne.
    destruct (decide (n = name)) as [-> | Hne].
    + rewrite lookup_insert_eq.
      destruct (decide (name ∈ name :: rest)) as [_ | H];
        [| exfalso; apply H, list_elem_of_here].
      destruct (cfg !! name) as [item |] eqn:E; rewrite ?lookup_insert_eq, ?E;
        destruct (decide (name ∈ rest)); reflexivity.
    + rewrite lookup_insert_ne by exact Hne.
      assert (Hl : (match cfg !! n with
                    | Some _ => cfg
                    | None => <[n:=zeroItem]> cfg
                    end) !! name = cfg !! name).
      { destruct (cfg !! n); [reflexivity | now rewrite lookup_insert_ne]. }
      rewrite Hl.
      destruct (decide (name ∈ rest)) as [H | H],
               (decide (name ∈ n :: rest)) as [H' | H']; try reflexivity.
      * exfalso. apply H', list_elem_of_further, H.
      * exfalso. apply elem_of_cons in H' as [-> | H']; [apply Hne; reflexivity | auto].
Qed.

#[local] Instance bytesLe_total : Total bytesLe.
Proof. intros a b. unfold bytesLe. apply String.leb_total. Qed.

(** X26.  [reinit] leaves [ChaindataTables] with the same names in byte
    order.  Afterwards the configuration of a name in
    [ChaindataDeprecatedTables] is what it was (the zero item if it had
    none) with [IsDeprecated] set; any other name keeps the configuration it
    had, gets the zero item if it had none and is listed in
    [ChaindataTables], and has none otherwise.  So every listed table is
    configured and no configured flag is lost; the same holds, without the
    deprecation, for the other table lists, as for the transaction pool. *)
Theorem reinit_spec (g : Registry) (name : string) :
  ChaindataTables (reinit g) ≡ₚ ChaindataTables g
  /\ Sorted bytesLe (ChaindataTables (reinit g))
  /\ ChaindataTablesCfg (reinit g) !! name
     = (if decide (name ∈ ChaindataDeprecatedTables g)
        then Some (asDeprecated (default zeroItem (ChaindataTablesCfg g !! name)))
        else match ChaindataTablesCfg g !! name with
             | Some item => Some item
             | None => if decide (name ∈ ChaindataTables g) then Some zeroItem else None
             end)
  /\ (name ∈ ChaindataTables (reinit g) \/ name ∈ ChaindataDeprecatedTables g ->
      is_Some (ChaindataTablesCfg (reinit g) !! name))
  /\ (forall item, ChaindataTablesCfg g !! name = Some item ->
        exists item', ChaindataTablesCfg (reinit g) !! name = Some item'
                      /\ Flags item' = Flags item)
  /\ TxpoolTablesCfg (reinit g) !! name
     = match TxpoolTablesCfg g !! name with
       | Some item => Some item
       | None => if decide (name ∈ TxPoolTables g) then Some zeroItem else None
       end.
Proof.
  assert (Hperm : sortBuckets (ChaindataTables g) ≡ₚ ChaindataTables g)
    by apply merge_sort_Permutation.
  assert (Hlook : ChaindataTablesCfg (reinit g) !! name
     = (if decide (name ∈ ChaindataDeprecatedTables g)
        then Some (asDeprecated (default zeroItem (ChaindataTablesCfg g !! name)))
        else match ChaindataTablesCfg g !! name with
             | Some item => Some item
             | None => if decide (name ∈ ChaindataTables g) then Some zeroItem else None
             end)).
  { cbn [reinit ChaindataTablesCfg].
    rewrite deprecateTables_lookup, ensureTables_lookup.
    assert (Hmem : name ∈ sortBuckets (ChaindataTables g) <-> name ∈ ChaindataTables g)
      by (now rewrite Hperm).
    destruct (decide (name ∈ ChaindataDeprecatedTables g)).
    - f_equal. f_equal. destruct (ChaindataTablesCfg g !! name); [reflexivity |].
      destruct (decide (name ∈ sortBuckets (ChaindataTables g))); reflexivity.
    - destruct (ChaindataTablesCfg g !! name); [reflexivity |].
      destruct (decide (name ∈ sortBuckets (ChaindataTables g))) as [H | H],
               (decide (name ∈ ChaindataTables g)) as [H' | H']; try reflexivity;
        exfalso; tauto. }
  split; [exact Hperm | split; [apply Sorted_merge_sort, _ | split; [exact Hlook |]]].
  split; [| split].
  - rewrite Hlook. cbn [reinit ChaindataTables]. rewrite Hperm. intros Hin.
    destruct (decide (name ∈ ChaindataDeprecatedTables g)) as [| Hnd]; [eauto |].
    destruct (ChaindataTablesCfg g !! name); [eauto |].
    destruct (decide (name ∈ ChaindataTables g)) as [| Hn]; [eauto |].
    exfalso. tauto.
  - intros item Hitem. rewrite Hlook, Hitem.
    destruct (decide (name ∈ ChaindataDeprecatedTables g)); eexists; split;
      reflexivity.
  - cbn [reinit TxpoolTablesCfg]. apply ensureTables_lookup.
Qed.

Lemma reinit_spec_witness :
  let g := {| ChaindataTables := ["Header"; "Code"; "Account"];
              ChaindataDeprecatedTables := ["PlainState"];
              TxPoolTables := ["PoolTransaction"]; SentryTables := [];
              ConsensusTables := []; DownloaderTables := []; ReconTables := [];
              DiagnosticsTables := []; HeimdallTables := []; PolygonBridgeTables := [];
              ChaindataTablesCfg :=
                {[ "Code" := {| Flags := 4; AutoDupSortKeysConversion := false;
                                IsDeprecated := false; DBI := 0; DupFromLen := 0;
                                DupToLen := 0 |} ]};
              TxpoolTablesCfg := ∅; SentryTablesCfg := ∅; ConsensusTablesCfg := ∅;
              DownloaderTablesCfg := ∅; ReconTablesCfg := ∅; DiagnosticsTablesCfg := ∅;
              HeimdallTablesCfg := ∅; PolygonBridgeTablesCfg := ∅ |} in
  ChaindataTables (reinit g) = ["Account"; "Code"; "Header"]
  /\ ("Header" ∈ ChaindataTables (reinit g) \/ "Header" ∈ ChaindataDeprecatedTables g)
  /\ is_Some (ChaindataTablesCfg (reinit g) !! "Header")
  /\ ChaindataTablesCfg (reinit g) !! "PlainState" = Some (asDeprecated zeroItem)
  /\ (Flags <$> ChaindataTablesCfg (reinit g) !! "Code") = Some 4.
Proof.
  intros g.
  assert (H1 : ChaindataTables (reinit g) = ["Account"; "Code"; "Header"])
    by (vm_compute; reflexivity).
  assert (H2 : "Header" ∈ ChaindataTables (reinit g) \/ "Header" ∈ ChaindataDeprecatedTables g).
  { left. rewrite H1. apply list_elem_of_further, list_elem_of_further, list_elem_of_here. }
  destruct (reinit_spec g "Header") as (_ & _ & _ & Hsome & _).
  split; [exact H1 | split; [exact H2 | split; [exact (Hsome H2) | split]]];
    vm_compute; reflexivity.
Defined.
